(** * GaltonBoard.py: the path generator and the animation scheduler

    A shallow embedding of [GaltonBoardSimulation] (src/GaltonBoard.py) and
    the properties of its path generator, admission loop, per-tick advance,
    histogram accounting, pause/stop gates and slider handler; then of the
    rest of the program: no handler and no tick raises, the position tables,
    the balls in flight, the sliders pixel by pixel, the dispatch of clicks
    and keys, and the progress bar.

    Conventions of the embedding.
    - A Python [int] is a [Z]; a Python [float] is a binary64 primitive
      [float]; a variable that holds either at run time (a ball coordinate,
      [delay_counter], [observed_mean]) is a [num].
    - A function that can raise returns a [result]; attribute state is threaded
      explicitly through a [State] record grouped as [__init__] groups it.
    - numpy is external to the repository: its generator and its reductions
      are the methods of the class [NumPy].
    - Drawing code (pygame, matplotlib) only reads the state; the numbers
      behind the slider handles and the progress bar are embedded, the rest
      is left out. *)

From Stdlib Require Import ZArith Lia.
From Stdlib Require Import Floats.PrimFloat Floats.SpecFloat Floats.FloatOps
  Floats.FloatAxioms.
From stdpp Require Import base option list list_numbers gmap.

Set Warnings "-inexact-float".
Open Scope Z_scope.

(** ** Python numbers *)

Inductive num : Type :=
| PInt (z : Z)
| PFloat (f : float).

(** [float(z)]: the binary64 nearest to [z] (exact below 2^53). *)
Definition float_of_Z (z : Z) : float :=
  SF2Prim (binary_normalize prec emax z 0 false).

Definition to_float (a : num) : float :=
  match a with
  | PInt z => float_of_Z z
  | PFloat f => f
  end.

Inductive exn : Type :=
| IndexError
| ZeroDivisionError
| ValueError
| OverflowError
| TypeError.

Inductive result (A : Type) : Type :=
| Ok (a : A)
| Raise (e : exn).
Arguments Ok {A} a.
Arguments Raise {A} e.

#[global] Instance result_ret : MRet result := fun A a => Ok a.
#[global] Instance result_bind : MBind result := fun A B k m =>
  match m with
  | Ok a => k a
  | Raise e => Raise e
  end.
#[global] Instance result_fmap : FMap result := fun A B g m =>
  match m with
  | Ok a => Ok (g a)
  | Raise e => Raise e
  end.

(** [a + b], [a - b], [a * b]: integer when both operands are, else float. *)
Definition py_add (a b : num) : num :=
  match a, b with
  | PInt x, PInt y => PInt (x + y)
  | _, _ => PFloat (to_float a + to_float b)
  end.

Definition py_sub (a b : num) : num :=
  match a, b with
  | PInt x, PInt y => PInt (x - y)
  | _, _ => PFloat (to_float a - to_float b)
  end.

Definition py_mul (a b : num) : num :=
  match a, b with
  | PInt x, PInt y => PInt (x * y)
  | _, _ => PFloat (to_float a * to_float b)
  end.

Definition is_zero_num (a : num) : bool :=
  match a with
  | PInt z => z =? 0
  | PFloat f => (f =? 0)%float
  end.

(** [a / b]: true division, always a float; a zero divisor raises. *)
Definition py_div (a b : num) : result num :=
  if is_zero_num b then Raise ZeroDivisionError
  else Ok (PFloat (to_float a / to_float b)).

(** Comparisons; an [int] against a [float] goes through [float(z)], which is
    exact for the magnitudes of this program (pixels, counts). *)
Definition py_lt (a b : num) : bool :=
  match a, b with
  | PInt x, PInt y => x <? y
  | _, _ => (to_float a <? to_float b)%float
  end.

Definition py_le (a b : num) : bool :=
  match a, b with
  | PInt x, PInt y => x <=? y
  | _, _ => (to_float a <=? to_float b)%float
  end.

Definition py_gt (a b : num) : bool := py_lt b a.
Definition py_ge (a b : num) : bool := py_le b a.

(** [max(a, b)] keeps [a] unless [b > a]; [min(a, b)] keeps [a] unless [b < a]. *)
Definition py_max (a b : num) : num := if py_gt b a then b else a.
Definition py_min (a b : num) : num := if py_lt b a then b else a.

(** The integer nearest to [(-1)^s * m * 2^e] towards zero. *)
Definition trunc_finite (s : bool) (m : positive) (e : Z) : Z :=
  let a := if 0 <=? e then Z.pos m * 2 ^ e else Z.pos m / 2 ^ (- e) in
  if s then - a else a.

(** The integer nearest to [(-1)^s * m * 2^e], ties to even. *)
Definition round_half_even_finite (s : bool) (m : positive) (e : Z) : Z :=
  let a :=
    if 0 <=? e then Z.pos m * 2 ^ e
    else
      let d := 2 ^ (- e) in
      let q := Z.pos m / d in
      let r := Z.pos m mod d in
      if 2 * r <? d then q
      else if d <? 2 * r then q + 1
      else if Z.even q then q else q + 1 in
  if s then - a else a.

(** [int(a)] *)
Definition py_int (a : num) : result Z :=
  match a with
  | PInt z => Ok z
  | PFloat f =>
      match Prim2SF f with
      | S754_zero _ => Ok 0
      | S754_finite s m e => Ok (trunc_finite s m e)
      | S754_infinity _ => Raise OverflowError
      | S754_nan => Raise ValueError
      end
  end.

(** [round(a)] with one argument: an [int], ties to even. *)
Definition py_round (a : num) : result Z :=
  match a with
  | PInt z => Ok z
  | PFloat f =>
      match Prim2SF f with
      | S754_zero _ => Ok 0
      | S754_finite s m e => Ok (round_half_even_finite s m e)
      | S754_infinity _ => Raise OverflowError
      | S754_nan => Raise ValueError
      end
  end.

(** [round(f, 2)] on a float: the float nearest to the two-digit decimal
    nearest to [f] (ties to even); infinities and nan are returned as they are. *)
Definition py_round2 (f : float) : float :=
  match Prim2SF f with
  | S754_finite s m e =>
      (float_of_Z (round_half_even_finite s (m * 100) e) / float_of_Z 100)%float
  | _ => f
  end.

(** [math.sqrt]: a negative argument raises. *)
Definition math_sqrt (a : num) : result float :=
  let f := to_float a in
  if (f <? 0)%float then Raise ValueError else Ok (sqrt f).

(** ** Python lists *)

Definition len {A} (l : list A) : Z := Z.of_nat (length l).

(** [l[i]], a negative [i] counting from the end. *)
Definition py_getitem {A} (l : list A) (i : Z) : result A :=
  let j := if i <? 0 then i + len l else i in
  if (0 <=? j) && (j <? len l) then
    match l !! Z.to_nat j with
    | Some a => Ok a
    | None => Raise IndexError
    end
  else Raise IndexError.

(** [l.pop(i)] for a non-negative [i], the popped element dropped. *)
Definition py_pop {A} (l : list A) (i : nat) : result (list A) :=
  if decide (i < length l)%nat then Ok (delete i l) else Raise IndexError.

(** A [for] loop over an immutable sequence, the state threaded through. *)
Fixpoint for_each {A S} (body : A → S → result S) (l : list A) (s : S) : result S :=
  match l with
  | [] => Ok s
  | a :: l' => s' ← body a s; for_each body l' s'
  end.

(** ** numpy *)

(** [np_random_random k] is what the [k]-th call of [np.random.random()] in
    the life of the process returns; [np_mean] and [np_std] are the
    reductions over a list of ints. *)
Class NumPy : Type := {
  np_random_random : nat → float;
  np_mean : list Z → float;
  np_std : list Z → float;
}.

(** [np.zeros(n, dtype=int)] *)
Definition np_zeros (n : Z) : result (list Z) :=
  if n <? 0 then Raise ValueError else Ok (replicate (Z.to_nat n) 0).

(** ** Layout constants of [__init__] *)

Definition header_height : Z := 60.
Definition board_margin : Z := 20.

Record area : Type := { ax : Z; ay : Z; awidth : Z; aheight : Z }.

Definition board_area : area :=
  {| ax := 300; ay := header_height + 40; awidth := 600; aheight := 480 |}.

(** ** The simulation state *)

(** One entry of [balls_in_flight]:
    [[ball_index, current_row, x, y, target_x, target_y]]. *)
Record ball : Type := {
  ball_index : Z;
  current_row : Z;
  bx : num;
  by_ : num;
  target_x : num;
  target_y : num;
}.

(** Simulation parameters. *)
Record Params : Type := {
  n_balls : Z;
  n_rows : Z;
  probability : num;
  ball_speed : Z;
  max_simultaneous_balls : Z;
}.

(** Multi-ball animation state; [rng_calls] counts the draws made so far. *)
Record Anim : Type := {
  ball_paths : list (list Z);
  balls_in_flight : list ball;
  balls_dropped : Z;
  delay_counter : num;
  ball_falling : bool;
  paused : bool;
  stopped : bool;
  rng_calls : nat;
}.

(** Results tracking. *)
Record Results : Type := {
  positions : list Z;
  bins_count : list Z;
  balls_completed : Z;
  observed_mean : num;
  observed_std : num;
  theoretical_mean : num;
  theoretical_std : num;
  simulation_complete : bool;
}.

(** Pre-calculated positions. *)
Record Geometry : Type := {
  peg_positions : gmap (Z * Z) (Z * Z);
  bin_positions : gmap Z (Z * Z);
}.

(** The keys of [self.sliders], in insertion order. *)
Inductive slider_name : Type := Balls | Rows | Prob | Speed | Multi.

#[global] Instance slider_name_eq_dec : EqDecision slider_name.
Proof. solve_decision. Defined.

(** The [value] entries of [self.sliders] and the other widget state. *)
Record Widgets : Type := {
  value_balls : Z;
  value_rows : Z;
  value_prob : num;
  value_speed : Z;
  value_multi : Z;
  dragging : option slider_name;
  running : bool;
  plot_update_counter : Z;
  plot_needs_update : bool;
}.

Record State : Type := {
  params : Params;
  anim : Anim;
  results : Results;
  geometry : Geometry;
  widgets : Widgets;
}.

(** ** Attribute assignment

    [upd_anim (set_paused b) s] is [self.paused = b]: one setter per attribute,
    one updater per group. They are written by pattern matching, so that a
    chain of assignments on an unknown state does not grow when unfolded. *)

Definition set_n_balls (v : Z) (r : Params) : Params :=
  match r with
  | Build_Params _ x1 x2 x3 x4 => Build_Params v x1 x2 x3 x4
  end.

Definition set_n_rows (v : Z) (r : Params) : Params :=
  match r with
  | Build_Params x0 _ x2 x3 x4 => Build_Params x0 v x2 x3 x4
  end.

Definition set_probability (v : num) (r : Params) : Params :=
  match r with
  | Build_Params x0 x1 _ x3 x4 => Build_Params x0 x1 v x3 x4
  end.

Definition set_ball_speed (v : Z) (r : Params) : Params :=
  match r with
  | Build_Params x0 x1 x2 _ x4 => Build_Params x0 x1 x2 v x4
  end.

Definition set_max_simultaneous_balls (v : Z) (r : Params) : Params :=
  match r with
  | Build_Params x0 x1 x2 x3 _ => Build_Params x0 x1 x2 x3 v
  end.

Definition set_ball_paths (v : list (list Z)) (r : Anim) : Anim :=
  match r with
  | Build_Anim _ x1 x2 x3 x4 x5 x6 x7 => Build_Anim v x1 x2 x3 x4 x5 x6 x7
  end.

Definition set_balls_in_flight (v : list ball) (r : Anim) : Anim :=
  match r with
  | Build_Anim x0 _ x2 x3 x4 x5 x6 x7 => Build_Anim x0 v x2 x3 x4 x5 x6 x7
  end.

Definition set_balls_dropped (v : Z) (r : Anim) : Anim :=
  match r with
  | Build_Anim x0 x1 _ x3 x4 x5 x6 x7 => Build_Anim x0 x1 v x3 x4 x5 x6 x7
  end.

Definition set_delay_counter (v : num) (r : Anim) : Anim :=
  match r with
  | Build_Anim x0 x1 x2 _ x4 x5 x6 x7 => Build_Anim x0 x1 x2 v x4 x5 x6 x7
  end.

Definition set_ball_falling (v : bool) (r : Anim) : Anim :=
  match r with
  | Build_Anim x0 x1 x2 x3 _ x5 x6 x7 => Build_Anim x0 x1 x2 x3 v x5 x6 x7
  end.

Definition set_paused (v : bool) (r : Anim) : Anim :=
  match r with
  | Build_Anim x0 x1 x2 x3 x4 _ x6 x7 => Build_Anim x0 x1 x2 x3 x4 v x6 x7
  end.

Definition set_stopped (v : bool) (r : Anim) : Anim :=
  match r with
  | Build_Anim x0 x1 x2 x3 x4 x5 _ x7 => Build_Anim x0 x1 x2 x3 x4 x5 v x7
  end.

Definition set_rng_calls (v : nat) (r : Anim) : Anim :=
  match r with
  | Build_Anim x0 x1 x2 x3 x4 x5 x6 _ => Build_Anim x0 x1 x2 x3 x4 x5 x6 v
  end.

Definition set_positions (v : list Z) (r : Results) : Results :=
  match r with
  | Build_Results _ x1 x2 x3 x4 x5 x6 x7 => Build_Results v x1 x2 x3 x4 x5 x6 x7
  end.

Definition set_bins_count (v : list Z) (r : Results) : Results :=
  match r with
  | Build_Results x0 _ x2 x3 x4 x5 x6 x7 => Build_Results x0 v x2 x3 x4 x5 x6 x7
  end.

Definition set_balls_completed (v : Z) (r : Results) : Results :=
  match r with
  | Build_Results x0 x1 _ x3 x4 x5 x6 x7 => Build_Results x0 x1 v x3 x4 x5 x6 x7
  end.

Definition set_observed_mean (v : num) (r : Results) : Results :=
  match r with
  | Build_Results x0 x1 x2 _ x4 x5 x6 x7 => Build_Results x0 x1 x2 v x4 x5 x6 x7
  end.

Definition set_observed_std (v : num) (r : Results) : Results :=
  match r with
  | Build_Results x0 x1 x2 x3 _ x5 x6 x7 => Build_Results x0 x1 x2 x3 v x5 x6 x7
  end.

Definition set_theoretical_mean (v : num) (r : Results) : Results :=
  match r with
  | Build_Results x0 x1 x2 x3 x4 _ x6 x7 => Build_Results x0 x1 x2 x3 x4 v x6 x7
  end.

Definition set_theoretical_std (v : num) (r : Results) : Results :=
  match r with
  | Build_Results x0 x1 x2 x3 x4 x5 _ x7 => Build_Results x0 x1 x2 x3 x4 x5 v x7
  end.

Definition set_simulation_complete (v : bool) (r : Results) : Results :=
  match r with
  | Build_Results x0 x1 x2 x3 x4 x5 x6 _ => Build_Results x0 x1 x2 x3 x4 x5 x6 v
  end.

Definition set_peg_positions (v : gmap (Z * Z) (Z * Z)) (r : Geometry) : Geometry :=
  match r with
  | Build_Geometry _ x1 => Build_Geometry v x1
  end.

Definition set_bin_positions (v : gmap Z (Z * Z)) (r : Geometry) : Geometry :=
  match r with
  | Build_Geometry x0 _ => Build_Geometry x0 v
  end.

Definition set_value_balls (v : Z) (r : Widgets) : Widgets :=
  match r with
  | Build_Widgets _ x1 x2 x3 x4 x5 x6 x7 x8 => Build_Widgets v x1 x2 x3 x4 x5 x6 x7 x8
  end.

Definition set_value_rows (v : Z) (r : Widgets) : Widgets :=
  match r with
  | Build_Widgets x0 _ x2 x3 x4 x5 x6 x7 x8 => Build_Widgets x0 v x2 x3 x4 x5 x6 x7 x8
  end.

Definition set_value_prob (v : num) (r : Widgets) : Widgets :=
  match r with
  | Build_Widgets x0 x1 _ x3 x4 x5 x6 x7 x8 => Build_Widgets x0 x1 v x3 x4 x5 x6 x7 x8
  end.

Definition set_value_speed (v : Z) (r : Widgets) : Widgets :=
  match r with
  | Build_Widgets x0 x1 x2 _ x4 x5 x6 x7 x8 => Build_Widgets x0 x1 x2 v x4 x5 x6 x7 x8
  end.

Definition set_value_multi (v : Z) (r : Widgets) : Widgets :=
  match r with
  | Build_Widgets x0 x1 x2 x3 _ x5 x6 x7 x8 => Build_Widgets x0 x1 x2 x3 v x5 x6 x7 x8
  end.

Definition set_dragging (v : option slider_name) (r : Widgets) : Widgets :=
  match r with
  | Build_Widgets x0 x1 x2 x3 x4 _ x6 x7 x8 => Build_Widgets x0 x1 x2 x3 x4 v x6 x7 x8
  end.

Definition set_running (v : bool) (r : Widgets) : Widgets :=
  match r with
  | Build_Widgets x0 x1 x2 x3 x4 x5 _ x7 x8 => Build_Widgets x0 x1 x2 x3 x4 x5 v x7 x8
  end.

Definition set_plot_update_counter (v : Z) (r : Widgets) : Widgets :=
  match r with
  | Build_Widgets x0 x1 x2 x3 x4 x5 x6 _ x8 => Build_Widgets x0 x1 x2 x3 x4 x5 x6 v x8
  end.

Definition set_plot_needs_update (v : bool) (r : Widgets) : Widgets :=
  match r with
  | Build_Widgets x0 x1 x2 x3 x4 x5 x6 x7 _ => Build_Widgets x0 x1 x2 x3 x4 x5 x6 x7 v
  end.

Definition upd_params (f : Params → Params) (s : State) : State :=
  match s with
  | Build_State p a r g w => Build_State (f p) a r g w
  end.

Definition upd_anim (f : Anim → Anim) (s : State) : State :=
  match s with
  | Build_State p a r g w => Build_State p (f a) r g w
  end.

Definition upd_results (f : Results → Results) (s : State) : State :=
  match s with
  | Build_State p a r g w => Build_State p a (f r) g w
  end.

Definition upd_geometry (f : Geometry → Geometry) (s : State) : State :=
  match s with
  | Build_State p a r g w => Build_State p a r (f g) w
  end.

Definition upd_widgets (f : Widgets → Widgets) (s : State) : State :=
  match s with
  | Build_State p a r g w => Build_State p a r g (f w)
  end.

(** ** Geometry *)

(** [update_bins_array_size]: on a change of size, a zeroed array of
    [n_rows + 1] bins that keeps the old counts of the common prefix. *)
Definition update_bins_array_size (s : State) : result State :=
  let new_size := n_rows (params s) + 1 in
  if decide (len (bins_count (results s)) ≠ new_size) then
    let old_bins := bins_count (results s) in
    fresh ← np_zeros new_size;
    let copy_size := Z.min (len old_bins) new_size in
    let n := Z.to_nat copy_size in
    Ok (upd_results (set_bins_count (take n old_bins ++ drop n fresh)) s)
  else Ok s.

(** The body of the peg loops, for one [(row, col)]. *)
Definition peg_position (peg_spacing_x peg_spacing_y : num) (row col : Z) : result (Z * Z) :=
  let a := board_area in
  let safe_margin := board_margin in
  let usable_width := awidth a - 2 * safe_margin in
  let row_width := py_mul (PInt row) peg_spacing_x in
  half ← py_div (py_sub (PInt usable_width) row_width) (PInt 2);
  let row_start_x := py_add (PInt (ax a + safe_margin)) half in
  let x := py_add row_start_x (py_mul (PInt col) peg_spacing_x) in
  let y := py_add (py_add (PInt (ay a + safe_margin)) (py_mul (PInt row) peg_spacing_y))
                  (PInt 40) in
  let x := py_max (PInt (ax a + safe_margin))
                  (py_min x (PInt (ax a + awidth a - safe_margin))) in
  let y := py_max (PInt (ay a + safe_margin))
                  (py_min y (PInt (ay a + aheight a - safe_margin - 80))) in
  xi ← py_int x;
  yi ← py_int y;
  Ok (xi, yi).

(** The body of the bin loop, for one [bin_num]. *)
Definition bin_position (bin_row_start_x peg_spacing_x : num) (bin_num : Z) : result (Z * Z) :=
  let a := board_area in
  let safe_margin := board_margin in
  let bin_y := ay a + aheight a - 60 in
  let x := py_add bin_row_start_x (py_mul (PInt bin_num) peg_spacing_x) in
  let x := py_max (PInt (ax a + safe_margin))
                  (py_min x (PInt (ax a + awidth a - safe_margin))) in
  xi ← py_int x;
  Ok (xi, bin_y).

(** The two nested loops over [range(n_rows)] and [range(row + 1)]. *)
Definition peg_table (peg_spacing_x peg_spacing_y : num) (n_rows : Z)
    : result (gmap (Z * Z) (Z * Z)) :=
  for_each
    (λ row pegs,
       for_each
         (λ col pegs,
            p ← peg_position peg_spacing_x peg_spacing_y row col;
            Ok (<[(row, col) := p]> pegs))
         (seqZ 0 (row + 1)) pegs)
    (seqZ 0 n_rows) ∅.

(** The loop over [range(n_rows + 1)]. *)
Definition bin_table (bin_row_start_x peg_spacing_x : num) (n_rows : Z)
    : result (gmap Z (Z * Z)) :=
  for_each
    (λ bin_num bins,
       p ← bin_position bin_row_start_x peg_spacing_x bin_num;
       Ok (<[bin_num := p]> bins))
    (seqZ 0 (n_rows + 1)) ∅.

(** The tables of [precalculate_positions] for [n] rows. *)
Definition compute_geometry (n : Z) : result Geometry :=
  let a := board_area in
  let safe_margin := board_margin in
  let usable_width := awidth a - 2 * safe_margin in
  let usable_height := aheight a - 2 * safe_margin - 80 in
  peg_spacing_x ← py_div (PInt usable_width) (PInt (n + 1));
  peg_spacing_y ← py_div (PInt usable_height) (PInt (n + 1));
  pegs ← peg_table peg_spacing_x peg_spacing_y n;
  let bin_row_width := py_mul (PInt n) peg_spacing_x in
  half ← py_div (py_sub (PInt usable_width) bin_row_width) (PInt 2);
  let bin_row_start_x := py_add (PInt (ax a + safe_margin)) half in
  bins ← bin_table bin_row_start_x peg_spacing_x n;
  Ok {| peg_positions := pegs; bin_positions := bins |}.

(** [precalculate_positions] *)
Definition precalculate_positions (s : State) : result State :=
  s ← update_bins_array_size s;
  g ← compute_geometry (n_rows (params s));
  Ok (upd_geometry (λ _, g) s).

(** [calculate_theoretical_values]; [np.sqrt] of a negative is nan, as the
    binary64 square root is. *)
Definition calculate_theoretical_values (s : State) : State :=
  let n := PInt (n_rows (params s)) in
  let p := probability (params s) in
  let s := upd_results (set_theoretical_mean (py_mul n p)) s in
  upd_results
    (set_theoretical_std
       (PFloat (sqrt (to_float (py_mul (py_mul n p) (py_sub (PInt 1) p)))))) s.

Definition default_peg : Z * Z :=
  (ax board_area + awidth board_area / 2, ay board_area + board_margin).

Definition default_bin : Z * Z :=
  (ax board_area + awidth board_area / 2, ay board_area + aheight board_area - 60).

Definition get_peg_position (s : State) (row col : Z) : Z * Z :=
  default default_peg (peg_positions (geometry s) !! (row, col)).

Definition get_bin_position (s : State) (bin_num : Z) : Z * Z :=
  if (0 <=? bin_num) && (bin_num <? Z.of_nat (size (bin_positions (geometry s)))) then
    default default_bin (bin_positions (geometry s) !! bin_num)
  else default_bin.

Definition clamp_position (x y : num) : num * num :=
  let a := board_area in
  let safety_margin := board_margin in
  let min_x := PInt (ax a + safety_margin) in
  let max_x := PInt (ax a + awidth a - safety_margin) in
  let min_y := PInt (ay a + 20) in
  let max_y := PInt (ay a + aheight a - 20) in
  let clamped_x := py_max min_x (py_min x max_x) in
  let clamped_y := py_max min_y (py_min y max_y) in
  if py_le clamped_x (PInt (ax a + 10))
     || py_ge clamped_x (PInt (ax a + awidth a - 10))
     || py_le clamped_y (PInt (ay a + 10))
     || py_ge clamped_y (PInt (ay a + aheight a - 10))
  then (PInt (ax a + awidth a / 2), PInt (ay a + aheight a / 2))
  else (clamped_x, clamped_y).

(** ** The path generator *)

Section PathGenerator.
Context `{NumPy}.

(** The inner loop of [generate_ball_paths]: [rows] draws, starting at
    draw number [calls]. *)
Fixpoint generate_path (rows : nat) (p : num) (position : Z) (path : list Z)
    (calls : nat) : list Z * nat :=
  match rows with
  | O => (path, calls)
  | S rows' =>
      let position :=
        if py_lt (PFloat (np_random_random calls)) p then position + 1 else position in
      generate_path rows' p position (path ++ [position]) (S calls)
  end.

(** The outer loop. *)
Fixpoint generate_paths (count : nat) (rows : nat) (p : num)
    (paths : list (list Z)) (calls : nat) : list (list Z) * nat :=
  match count with
  | O => (paths, calls)
  | S count' =>
      let '(path, calls) := generate_path rows p 0 [] calls in
      generate_paths count' rows p (paths ++ [path]) calls
  end.

Definition generate_ball_paths (s : State) : State :=
  let '(paths, calls) :=
    generate_paths (Z.to_nat (n_balls (params s))) (Z.to_nat (n_rows (params s)))
      (probability (params s)) [] (rng_calls (anim s)) in
  upd_anim (set_rng_calls calls) (upd_anim (set_ball_paths paths) s).
End PathGenerator.

(** ** Admission *)

(** The condition of the [while] of [start_next_balls]. *)
Definition may_admit (s : State) : bool :=
  (len (balls_in_flight (anim s)) <? max_simultaneous_balls (params s))
  && (balls_dropped (anim s) <? n_balls (params s)).

(** One iteration of the [while]: the next ball enters above the first peg. *)
Definition admit_ball (s : State) : State :=
  let ball_index := balls_dropped (anim s) in
  let a := board_area in
  let '(x, y, tx, ty) :=
    match peg_positions (geometry s) !! (0, 0) with
    | Some start_pos => (start_pos.1, ay a + 20, start_pos.1, start_pos.2)
    | None =>
        let x := ax a + awidth a / 2 in
        (x, ay a + 20, x, ay a + board_margin)
    end in
  let '(x, y) := clamp_position (PInt x) (PInt y) in
  let '(tx, ty) := clamp_position (PInt tx) (PInt ty) in
  let b := {| ball_index := ball_index; current_row := 0;
              bx := x; by_ := y; target_x := tx; target_y := ty |} in
  upd_anim (set_balls_dropped (balls_dropped (anim s) + 1))
    (upd_anim (set_balls_in_flight (balls_in_flight (anim s) ++ [b])) s).

(** The [while] loop, at most [fuel] iterations. *)
Fixpoint admit_loop (fuel : nat) (s : State) : State :=
  match fuel with
  | O => s
  | S fuel' => if may_admit s then admit_loop fuel' (admit_ball s) else s
  end.

(** [start_next_balls]: every iteration drops one ball, so the balls still to
    drop bound the number of iterations (lemma [start_next_balls_exits]). *)
Definition start_next_balls (s : State) : State :=
  admit_loop (Z.to_nat (n_balls (params s) - balls_dropped (anim s))) s.

(** ** Start *)

Section Scheduler.
Context `{NumPy}.

Definition start_animation (s : State) : result State :=
  s ← update_bins_array_size s;
  let s := upd_results (set_positions []) s in
  let s := upd_results (set_bins_count (replicate (length (bins_count (results s))) 0)) s in
  let s := upd_results (set_balls_completed 0) s in
  let s := upd_results (set_observed_mean (PInt 0)) s in
  let s := upd_results (set_observed_std (PInt 0)) s in
  let s := upd_results (set_simulation_complete false) s in
  let s := upd_anim (set_balls_dropped 0) s in
  let s := upd_anim (set_balls_in_flight []) s in
  let s := upd_anim (set_ball_falling true) s in
  let s := upd_anim (set_paused false) s in
  let s := upd_anim (set_stopped false) s in
  let s := upd_anim (set_delay_counter (PInt 0)) s in
  let s := upd_widgets (set_plot_update_counter 0) s in
  let s := upd_widgets (set_plot_needs_update true) s in
  s ← precalculate_positions s;
  let s := generate_ball_paths s in
  Ok (start_next_balls s).

(** ** The tick *)

Definition plot_update_interval : Z := 10.

(** The final arrival, lines 337-350: the outcome is recorded when it is a
    valid bin index. *)
Definition record_outcome (final_position : Z) (s : State) : State :=
  if (0 <=? final_position) && (final_position <? len (bins_count (results s))) then
    let s := upd_results (set_positions (positions (results s) ++ [final_position])) s in
    let s := upd_results
               (set_bins_count
                  (alter (λ c, c + 1) (Z.to_nat final_position) (bins_count (results s)))) s in
    let s := upd_results (set_balls_completed (balls_completed (results s) + 1)) s in
    let s :=
      if balls_completed (results s) mod 5 =? 0 then
        let s := upd_results
                   (set_observed_mean (PFloat (np_mean (positions (results s))))) s in
        upd_results
          (set_observed_std
             (if 1 <? len (positions (results s))
              then PFloat (np_std (positions (results s))) else PInt 0)) s
      else s in
    let s := upd_widgets (set_plot_update_counter (plot_update_counter (widgets s) + 1)) s in
    if plot_update_interval <=? plot_update_counter (widgets s) then
      upd_widgets (set_plot_update_counter 0) (upd_widgets (set_plot_needs_update true) s)
    else s
  else s.

Definition effective_speed (s : State) : Z := Z.min (ball_speed (params s) * 2) 30.

(** The body of the [for] over [enumerate(self.balls_in_flight)]. *)
Definition advance_ball (i : nat) (ball_data : ball) (s : State)
    (balls_to_remove : list nat) : result (State * list nat) :=
  let ball_index := ball_index ball_data in
  let current_row := current_row ball_data in
  let '(x, y) := clamp_position (bx ball_data) (by_ ball_data) in
  let '(target_x, target_y) := clamp_position (target_x ball_data) (target_y ball_data) in
  let dx := py_sub target_x x in
  let dy := py_sub target_y y in
  let distance_sq := py_add (py_mul dx dx) (py_mul dy dy) in
  let effective_speed := PInt (effective_speed s) in
  if py_lt distance_sq (py_mul effective_speed effective_speed) then
    let '(x, y) := clamp_position target_x target_y in
    if current_row <? n_rows (params s) then
      let current_row := current_row + 1 in
      path ← py_getitem (ball_paths (anim s)) ball_index;
      target ←
        (if current_row <? n_rows (params s) then
           target_col ← py_getitem path current_row;
           Ok (get_peg_position s current_row target_col)
         else
           final_position ← py_getitem path (-1);
           Ok (get_bin_position s final_position));
      let '(target_x, target_y) := clamp_position (PInt target.1) (PInt target.2) in
      let b := {| ball_index := ball_index; current_row := current_row;
                  bx := x; by_ := y; target_x := target_x; target_y := target_y |} in
      Ok (upd_anim (set_balls_in_flight (<[i := b]> (balls_in_flight (anim s)))) s,
          balls_to_remove)
    else
      path ← py_getitem (ball_paths (anim s)) ball_index;
      final_position ← py_getitem path (-1);
      Ok (record_outcome final_position s, balls_to_remove ++ [i])
  else
    new ←
      (if py_gt distance_sq (PInt 0) then
         distance ← math_sqrt distance_sq;
         step_x ← py_div (py_mul effective_speed dx) (PFloat distance);
         step_y ← py_div (py_mul effective_speed dy) (PFloat distance);
         Ok (py_add x step_x, py_add y step_y)
       else Ok (x, y));
    let '(new_x, new_y) := clamp_position new.1 new.2 in
    let b := {| ball_index := ball_index; current_row := current_row;
                bx := new_x; by_ := new_y; target_x := target_x; target_y := target_y |} in
    Ok (upd_anim (set_balls_in_flight (<[i := b]> (balls_in_flight (anim s)))) s,
        balls_to_remove).

(** The [for] loop: the iterator reads the live list at index [i] and stops
    when the index runs past its end; the body never changes the length, so
    the length at entry bounds the iterations (lemma [advance_balls_exits]). *)
Fixpoint advance_balls (todo : nat) (i : nat) (s : State) (balls_to_remove : list nat)
    : result (State * list nat) :=
  match todo with
  | O => Ok (s, balls_to_remove)
  | S todo' =>
      match balls_in_flight (anim s) !! i with
      | None => Ok (s, balls_to_remove)
      | Some ball_data =>
          r ← advance_ball i ball_data s balls_to_remove;
          advance_balls todo' (S i) r.1 r.2
      end
  end.

(** [for index in reversed(balls_to_remove): self.balls_in_flight.pop(index)] *)
Definition remove_balls (balls_to_remove : list nat) (s : State) : result State :=
  for_each
    (λ index s,
       l ← py_pop (balls_in_flight (anim s)) index;
       Ok (upd_anim (set_balls_in_flight l) s))
    (reverse balls_to_remove) s.

Definition next_delay (s : State) : num :=
  py_max (PInt 1) (py_sub (PInt 30) (py_mul (PInt (ball_speed (params s))) (PFloat 0.3))).

(** Lines 301-305. *)
Definition admission_phase (s : State) : State :=
  if py_gt (delay_counter (anim s)) (PInt 0) then
    upd_anim (set_delay_counter (py_sub (delay_counter (anim s)) (PInt 1))) s
  else
    let s := start_next_balls s in
    upd_anim (set_delay_counter (next_delay s)) s.

(** Lines 368-371. *)
Definition completion_check (s : State) : State :=
  if (n_balls (params s) <=? balls_dropped (anim s))
     && (len (balls_in_flight (anim s)) =? 0) then
    upd_widgets (set_plot_needs_update true)
      (upd_results (set_simulation_complete true)
         (upd_anim (set_ball_falling false) s))
  else s.

Definition update_animation (s : State) : result State :=
  if negb (ball_falling (anim s)) || paused (anim s) || stopped (anim s) then Ok s
  else
    let s := admission_phase s in
    r ← advance_balls (length (balls_in_flight (anim s))) 0 s [];
    s ← remove_balls r.2 r.1;
    Ok (completion_check s).

(** [update_plot_surface], the flag only: the plot itself is drawing. *)
Definition update_plot_surface (s : State) : State :=
  if negb (plot_needs_update (widgets s)) || (len (positions (results s)) =? 0) then s
  else upd_widgets (set_plot_needs_update false) s.
End Scheduler.

(** ** Sliders *)

Definition slider_x : Z := 40.
Definition slider_width : Z := 200.
Definition slider_height : Z := 20.
Definition slider_spacing : Z := 70.
Definition slider_start_y : Z := header_height + 60.

Definition slider_names : list slider_name := [Balls; Rows; Prob; Speed; Multi].

Definition slider_y (name : slider_name) : Z :=
  match name with
  | Balls => slider_start_y
  | Rows => slider_start_y + slider_spacing
  | Prob => slider_start_y + 2 * slider_spacing
  | Speed => slider_start_y + 3 * slider_spacing
  | Multi => slider_start_y + 4 * slider_spacing
  end.

Definition slider_min (name : slider_name) : num :=
  match name with
  | Balls => PInt 100
  | Rows => PInt 5
  | Prob => PFloat 0.1
  | Speed => PInt 1
  | Multi => PInt 1
  end.

Definition slider_max (name : slider_name) : num :=
  match name with
  | Balls => PInt 1000
  | Rows => PInt 18
  | Prob => PFloat 0.9
  | Speed => PInt 100
  | Multi => PInt 25
  end.

Definition slider_step (name : slider_name) : num :=
  match name with
  | Balls => PInt 50
  | Prob => PFloat 0.01
  | Rows | Speed | Multi => PInt 1
  end.

(** [x <= mx <= x + width and y - 15 <= my <= y + height + 15] *)
Definition slider_hit (name : slider_name) (mx my : Z) : bool :=
  (slider_x <=? mx) && (mx <=? slider_x + slider_width)
  && (slider_y name - 15 <=? my) && (my <=? slider_y name + slider_height + 15).

(** [round(a, 2)]: an [int] is returned as it is. *)
Definition py_round_2 (a : num) : num :=
  match a with
  | PInt z => PInt z
  | PFloat f => PFloat (py_round2 f)
  end.

(** [slider['min'] + ratio * (slider['max'] - slider['min'])] for the mouse
    abscissa [mx]. *)
Definition slider_new_value (name : slider_name) (mx : Z) : result num :=
  r ← py_div (PInt (mx - slider_x)) (PInt slider_width);
  let ratio := py_max (PFloat 0.0) (py_min (PFloat 1.0) r) in
  Ok (py_add (slider_min name) (py_mul ratio (py_sub (slider_max name) (slider_min name)))).

(** What [slider['value']] becomes, lines 656-663 and 677. *)
Definition slider_value (name : slider_name) (mx : Z) : result num :=
  new_value ← slider_new_value name mx;
  new_value ←
    match name with
    | Balls =>
        q ← py_div new_value (slider_step name);
        k ← py_int q;
        Ok (py_mul (PInt k) (slider_step name))
    | Rows | Speed | Multi => PInt <$> py_round new_value
    | Prob => Ok (py_round_2 new_value)
    end;
  Ok (py_max (slider_min name) (py_min (slider_max name) new_value)).

(** An attribute used as an [int] ([range], array sizes, [%]) that holds a
    float makes those uses raise; the embedding raises at the assignment. *)
Definition as_int (a : num) : result Z :=
  match a with
  | PInt z => Ok z
  | PFloat _ => Raise TypeError
  end.

(** The body of the slider loop once [name] is hit, lines 652-680. *)
Definition set_slider (name : slider_name) (mx : Z) (s : State) : result State :=
  value ← slider_value name mx;
  s ←
    match name with
    | Balls =>
        v ← as_int value;
        Ok (upd_params (set_n_balls v) (upd_widgets (set_value_balls v) s))
    | Rows =>
        v ← as_int value;
        let s := upd_params (set_n_rows v) (upd_widgets (set_value_rows v) s) in
        s ← update_bins_array_size s;
        precalculate_positions s
    | Speed =>
        v ← as_int value;
        Ok (upd_params (set_ball_speed v) (upd_widgets (set_value_speed v) s))
    | Multi =>
        v ← as_int value;
        Ok (upd_params (set_max_simultaneous_balls v) (upd_widgets (set_value_multi v) s))
    | Prob =>
        Ok (upd_params (set_probability value) (upd_widgets (set_value_prob value) s))
    end;
  Ok (calculate_theoretical_values s).

(** The loop over [self.sliders.items()]: the first slider hit is set and
    its name returned. *)
Fixpoint slider_loop (names : list slider_name) (mx my : Z) (s : State)
    : result (State * option slider_name) :=
  match names with
  | [] => Ok (s, None)
  | name :: names' =>
      if slider_hit name mx my then
        s ← set_slider name mx s; Ok (s, Some name)
      else slider_loop names' mx my s
  end.

Definition handle_slider_input (mouse_pos : Z * Z) (s : State)
    : result (State * option slider_name) :=
  if ball_falling (anim s) && negb (stopped (anim s)) then Ok (s, None)
  else slider_loop slider_names mouse_pos.1 mouse_pos.2 s.

(** ** Buttons, reset, construction, main loop *)

Inductive button_name : Type := Run | Pause | Reset | Stop.

Definition button_names : list button_name := [Run; Pause; Reset; Stop].

Definition button_height : Z := 40.
Definition button_width : Z := 110.
Definition button_y : Z := slider_start_y + 5 * slider_spacing + 20.

Definition button_pos (name : button_name) : Z * Z :=
  match name with
  | Run => (40, button_y)
  | Pause => (40, button_y + 50)
  | Reset => (160, button_y)
  | Stop => (160, button_y + 50)
  end.

Definition button_hit (name : button_name) (mx my : Z) : bool :=
  let '(x, y) := button_pos name in
  (x <=? mx) && (mx <=? x + button_width) && (y <=? my) && (my <=? y + button_height).

Definition default_params : Params :=
  {| n_balls := 500; n_rows := 12; probability := PFloat 0.5;
     ball_speed := 6; max_simultaneous_balls := 8 |}.

Definition reset_parameters (s : State) : result State :=
  let s := upd_params (λ _, default_params) s in
  let s := upd_widgets (set_value_balls 500) s in
  let s := upd_widgets (set_value_rows 12) s in
  let s := upd_widgets (set_value_prob (PFloat 0.5)) s in
  let s := upd_widgets (set_value_speed 6) s in
  let s := upd_widgets (set_value_multi 8) s in
  let s := upd_anim (set_ball_falling false) s in
  let s := upd_results (set_simulation_complete false) s in
  let s := upd_results (set_balls_completed 0) s in
  let s := upd_results (set_positions []) s in
  s ← update_bins_array_size s;
  let s := upd_results (set_bins_count (replicate (length (bins_count (results s))) 0)) s in
  let s := upd_anim (set_balls_in_flight []) s in
  let s := upd_anim (set_paused false) s in
  let s := upd_anim (set_stopped false) s in
  let s := upd_widgets (set_plot_needs_update true) s in
  precalculate_positions (calculate_theoretical_values s).

(** The attributes as [__init__] assigns them, before its two final calls. *)
Definition initial_attributes : State :=
  {| params := default_params;
     anim := {| ball_paths := []; balls_in_flight := []; balls_dropped := 0;
                delay_counter := PInt 0; ball_falling := false; paused := false;
                stopped := false; rng_calls := 0 |};
     results := {| positions := []; bins_count := replicate 13 0; balls_completed := 0;
                   observed_mean := PInt 0; observed_std := PInt 0;
                   theoretical_mean := PInt 0; theoretical_std := PInt 0;
                   simulation_complete := false |};
     geometry := {| peg_positions := ∅; bin_positions := ∅ |};
     widgets := {| value_balls := 500; value_rows := 12; value_prob := PFloat 0.5;
                   value_speed := 6; value_multi := 8; dragging := None; running := true;
                   plot_update_counter := 0; plot_needs_update := false |} |}.

(** [__init__] *)
Definition init : result State :=
  precalculate_positions (calculate_theoretical_values initial_attributes).

Inductive key : Type := K_q | K_ESCAPE | K_r | K_RETURN | K_SPACE | K_p | K_other.

Inductive event : Type :=
| QUIT
| KEYDOWN (k : key)
| MOUSEBUTTONDOWN (button : Z) (pos : Z * Z)
| MOUSEBUTTONUP (button : Z)
| MOUSEMOTION (pos : Z * Z)
| OTHER.

Section Controller.
Context `{NumPy}.

(** The dispatch of [handle_button_click] on the button hit. *)
Definition click (name : button_name) (s : State) : result State :=
  match name with
  | Run => if negb (ball_falling (anim s)) then start_animation s else Ok s
  | Pause =>
      if ball_falling (anim s)
      then Ok (upd_anim (set_paused (negb (paused (anim s)))) s)
      else Ok s
  | Stop => Ok (upd_anim (set_stopped true) (upd_anim (set_ball_falling false) s))
  | Reset => reset_parameters s
  end.

Fixpoint button_loop (names : list button_name) (mx my : Z) (s : State)
    : result (State * option button_name) :=
  match names with
  | [] => Ok (s, None)
  | name :: names' =>
      if button_hit name mx my then s ← click name s; Ok (s, Some name)
      else button_loop names' mx my s
  end.

Definition handle_button_click (mouse_pos : Z * Z) (s : State)
    : result (State * option button_name) :=
  button_loop button_names mouse_pos.1 mouse_pos.2 s.

(** One event of the [for event in pygame.event.get()] loop. *)
Definition handle_event (e : event) (s : State) : result State :=
  match e with
  | QUIT => Ok (upd_widgets (set_running false) s)
  | KEYDOWN k =>
      match k with
      | K_q | K_ESCAPE => Ok (upd_widgets (set_running false) s)
      | K_r => reset_parameters s
      | K_RETURN | K_SPACE =>
          if negb (ball_falling (anim s)) then start_animation s else Ok s
      | K_p =>
          if ball_falling (anim s)
          then Ok (upd_anim (set_paused (negb (paused (anim s)))) s)
          else Ok s
      | K_other => Ok s
      end
  | MOUSEBUTTONDOWN button pos =>
      if button =? 1 then
        r ← handle_slider_input pos s;
        let s := upd_widgets (set_dragging r.2) r.1 in
        match r.2 with
        | Some _ => Ok s
        | None => fst <$> handle_button_click pos s
        end
      else Ok s
  | MOUSEBUTTONUP button =>
      if button =? 1 then Ok (upd_widgets (set_dragging None) s) else Ok s
  | MOUSEMOTION pos =>
      match dragging (widgets s) with
      | Some _ => fst <$> handle_slider_input pos s
      | None => Ok s
      end
  | OTHER => Ok s
  end.

(** One iteration of the [while self.running] loop, drawing left out. *)
Definition frame (events : list event) (s : State) : result State :=
  s ← for_each handle_event events s;
  s ← update_animation s;
  Ok (if plot_needs_update (widgets s) then update_plot_surface s else s).

(** [run]: the [while self.running] loop, over the events of the successive
    frames. What follows the loop, [pygame.quit(); sys.exit()], is left out:
    [Ok s] is the state in which the loop ends, or the one reached when the
    frames given run out. *)
Fixpoint run (frames : list (list event)) (s : State) : result State :=
  match frames with
  | [] => Ok s
  | events :: frames' =>
      if running (widgets s) then s ← frame events s; run frames' s else Ok s
  end.
End Controller.

(** ** Specification-side definitions *)

Section Counting.
Context `{NumPy}.

(** Draw number [k] is a success: the sample is below [p]. *)
Definition success (p : num) (k : nat) : bool :=
  py_lt (PFloat (np_random_random k)) p.

(** The number of successes among the [k] draws from draw [first] on. *)
Fixpoint successes (p : num) (first k : nat) : Z :=
  match k with
  | O => 0
  | S k' => (if success p first then 1 else 0) + successes p (S first) k'
  end.
End Counting.

(** [sum(l)] *)
Definition sum_list (l : list Z) : Z := foldr Z.add 0 l.

(** ** Reachable states *)

(** The main loop interleaves three kinds of steps: an event is handled, the
    animation is updated, the plot flag is refreshed. *)
Inductive action : Type :=
| Event (e : event)
| Tick
| Plot.

Section Reachability.
Context `{NumPy}.

Definition perform (a : action) (s : State) : result State :=
  match a with
  | Event e => handle_event e s
  | Tick => update_animation s
  | Plot => Ok (update_plot_surface s)
  end.

(** The states the program passes through: the state [__init__] builds,
    closed under the steps that do not raise. *)
Inductive reachable : State → Prop :=
| reachable_init s : init = Ok s → reachable s
| reachable_step a s s' : reachable s → perform a s = Ok s' → reachable s'.

(** [n] consecutive calls of [update_animation]. *)
Fixpoint ticks (n : nat) (s : State) : result State :=
  match n with
  | O => Ok s
  | S n' => s' ← update_animation s; ticks n' s'
  end.

(** The statistics on display are those of the whole outcome list. *)
Definition stats_fresh (s : State) : Prop :=
  observed_mean (results s) = PFloat (np_mean (positions (results s)))
  ∧ observed_std (results s) = PFloat (np_std (positions (results s))).
End Reachability.

(** ** Invariants *)

Definition prob_in_range (p : num) : bool :=
  py_le (PFloat 0.1) p && py_le p (PFloat 0.9) && py_le (PFloat 0) p && py_le p (PFloat 1).

(** What the sliders and the defaults allow. *)
Record valid_params (p : Params) : Prop := {
  vp_balls : 100 ≤ n_balls p ≤ 1000;
  vp_balls_step : n_balls p mod 50 = 0;
  vp_rows : 5 ≤ n_rows p ≤ 18;
  vp_prob : prob_in_range (probability p) = true;
  vp_speed : 1 ≤ ball_speed p ≤ 100;
  vp_multi : 1 ≤ max_simultaneous_balls p ≤ 25;
}.

(** The final entry of every path is the index of a bin. *)
Definition outcomes_valid (s : State) : Prop :=
  ∀ path v, path ∈ ball_paths (anim s) → last path = Some v →
    0 ≤ v < len (bins_count (results s)).

Section Invariants.
Context `{NumPy}.

(** The bookkeeping of a run. [pending] balls have had their outcome
    recorded but are still in [balls_in_flight] (inside the [for] loop of
    [update_animation]); it is [0] between steps. *)
Record run_facts (pending : Z) (s : State) : Prop := {
  rf_outcomes : outcomes_valid s;
  rf_accounting :
    balls_completed (results s) + len (balls_in_flight (anim s)) - pending
    = balls_dropped (anim s);
  rf_dropped : balls_dropped (anim s) ≤ n_balls (params s);
  rf_hist : sum_list (bins_count (results s)) = balls_completed (results s);
  rf_positions : len (positions (results s)) = balls_completed (results s);
  rf_cap : len (balls_in_flight (anim s)) ≤ max_simultaneous_balls (params s);
  rf_stats :
    balls_completed (results s) mod 5 = 0 → 1 < balls_completed (results s) →
    stats_fresh s;
}.

Record inv (s : State) : Prop := {
  inv_params : valid_params (params s);
  inv_bins_len : len (bins_count (results s)) = n_rows (params s) + 1;
  inv_bins_nonneg : Forall (λ c, 0 ≤ c) (bins_count (results s));
  inv_hist_le : sum_list (bins_count (results s)) ≤ balls_completed (results s);
  inv_run :
    ball_falling (anim s) = true →
    stopped (anim s) = false ∧ simulation_complete (results s) = false ∧ run_facts 0 s;
  inv_complete :
    simulation_complete (results s) = true →
    ball_falling (anim s) = false ∧ stats_fresh s;
}.
End Invariants.

(** What the [for] loop of [update_animation] and the removals after it
    leave alone. *)
Record loop_frame (s s' : State) : Prop := {
  lf_params : params s' = params s;
  lf_geometry : geometry s' = geometry s;
  lf_paths : ball_paths (anim s') = ball_paths (anim s);
  lf_dropped : balls_dropped (anim s') = balls_dropped (anim s);
  lf_delay : delay_counter (anim s') = delay_counter (anim s);
  lf_falling : ball_falling (anim s') = ball_falling (anim s);
  lf_paused : paused (anim s') = paused (anim s);
  lf_stopped : stopped (anim s') = stopped (anim s);
  lf_rng : rng_calls (anim s') = rng_calls (anim s);
  lf_bins_len : length (bins_count (results s')) = length (bins_count (results s));
  lf_complete : simulation_complete (results s') = simulation_complete (results s);
}.

(** What a whole tick before its completion check leaves alone. *)
Record loop_frame_but_delay (s s' : State) : Prop := {
  lfd_params : params s' = params s;
  lfd_geometry : geometry s' = geometry s;
  lfd_paths : ball_paths (anim s') = ball_paths (anim s);
  lfd_falling : ball_falling (anim s') = ball_falling (anim s);
  lfd_paused : paused (anim s') = paused (anim s);
  lfd_stopped : stopped (anim s') = stopped (anim s);
  lfd_rng : rng_calls (anim s') = rng_calls (anim s);
  lfd_bins_len : length (bins_count (results s')) = length (bins_count (results s));
  lfd_complete : simulation_complete (results s') = simulation_complete (results s);
}.

(** ** Checks run over every pixel of a slider *)

(** The probability slider, pixel by pixel: whatever the mouse abscissa on the
    slider, the value lies in [[0.1, 0.9]], hence in [[0, 1]]. *)
Definition prob_slider_ok (mx : Z) : bool :=
  match slider_value Prob mx with
  | Ok v => prob_in_range v
  | Raise _ => false
  end.

(** The integer sliders never raise on the slider either. *)
Definition int_slider_ok (name : slider_name) (mx : Z) : bool :=
  match slider_value name mx ≫= as_int with
  | Ok _ => true
  | Raise _ => false
  end.

(** ** The advance rule in the spec's words *)

Inductive advance_outcome : Type :=
| Arrived (x y : num)
| Moved (x y : num).

(** One interpolation step from [(x, y)] towards [(tx, ty)]: arrival when
    [arrival distance_sq step^2] holds, else a move of length [step] along
    the normalised direction, and no move at distance zero. The spec reads
    the arrival test as [<=]. *)
Definition advance_rule (arrival : num → num → bool) (step x y tx ty : num)
    : result advance_outcome :=
  let dx := py_sub tx x in
  let dy := py_sub ty y in
  let distance_sq := py_add (py_mul dx dx) (py_mul dy dy) in
  if arrival distance_sq (py_mul step step) then Ok (Arrived tx ty)
  else if py_gt distance_sq (PInt 0) then
    distance ← math_sqrt distance_sq;
    step_x ← py_div (py_mul step dx) (PFloat distance);
    step_y ← py_div (py_mul step dy) (PFloat distance);
    Ok (Moved (py_add x step_x) (py_add y step_y))
  else Ok (Moved x y).

(** The attribute a slider sets. *)
Definition param_of (name : slider_name) (p : Params) : num :=
  match name with
  | Balls => PInt (n_balls p)
  | Rows => PInt (n_rows p)
  | Prob => probability p
  | Speed => PInt (ball_speed p)
  | Multi => PInt (max_simultaneous_balls p)
  end.

(** ** A concrete environment and a concrete run, for the examples *)

(** A fixed sample sequence, the mean as numpy computes it on small ints, and
    the population standard deviation summed from the right. *)
Definition demo_numpy : NumPy := {|
  np_random_random k :=
    (float_of_Z ((Z.of_nat k * 7919 + 13) mod 1000) / float_of_Z 1000)%float;
  np_mean l := (float_of_Z (sum_list l) / float_of_Z (len l))%float;
  np_std l :=
    let mean := (float_of_Z (sum_list l) / float_of_Z (len l))%float in
    let squares := (λ x, let d := (float_of_Z x - mean)%float in (d * d)%float) <$> l in
    sqrt (foldr PrimFloat.add 0%float squares / float_of_Z (len l))%float;
|}.

Definition state_of (r : result State) : State :=
  match r with
  | Ok s => s
  | Raise _ => initial_attributes
  end.

(** The state after [__init__]. *)
Definition demo_init : State := Eval vm_compute in state_of init.

(** Clicks that set 100 balls, 5 rows, speed 100 and 25 balls at once, then
    the start key. *)
Definition demo_setup : list event :=
  [MOUSEBUTTONDOWN 1 (40, 120); MOUSEBUTTONUP 1;
   MOUSEBUTTONDOWN 1 (40, 190); MOUSEBUTTONUP 1;
   MOUSEBUTTONDOWN 1 (240, 330); MOUSEBUTTONUP 1;
   MOUSEBUTTONDOWN 1 (240, 400); MOUSEBUTTONUP 1;
   KEYDOWN K_SPACE].

(** The run just started, one tick before its end, and complete. *)
Definition demo_started : State :=
  Eval vm_compute in state_of (@run demo_numpy [demo_setup] demo_init).

Definition demo_last_tick : State :=
  Eval vm_compute in state_of (@run demo_numpy (replicate 89 []) demo_started).

Definition demo_complete : State :=
  Eval vm_compute in state_of (@update_animation demo_numpy demo_last_tick).

(** Clicks that set 100 balls, 5 rows and speed 10 (a step of 20 pixels),
    then the start key. *)
Definition demo_slow_setup : list event :=
  [MOUSEBUTTONDOWN 1 (40, 120); MOUSEBUTTONUP 1;
   MOUSEBUTTONDOWN 1 (40, 190); MOUSEBUTTONUP 1;
   MOUSEBUTTONDOWN 1 (58, 330); MOUSEBUTTONUP 1;
   KEYDOWN K_SPACE].

(** That run after its first tick: every ball in flight is 20 pixels above
    the first peg. *)
Definition demo_slow : State :=
  Eval vm_compute in state_of (@run demo_numpy [demo_slow_setup] demo_init).

(** A state no slider can produce: three balls to drop, the run started and
    ticked 43 times. *)
Definition demo_three : State :=
  Eval vm_compute in
    state_of (s ← @start_animation demo_numpy (upd_params (set_n_balls 3) demo_init);
              @ticks demo_numpy 43 s).

(** The complete run, then the rows slider set to 9. *)
Definition demo_resized : State :=
  Eval vm_compute in
    state_of (fst <$> handle_slider_input (101, 190) demo_complete).

(** Ball 0 of [demo_slow]: 20 pixels above its target. *)
Definition demo_ball : ball :=
  {| ball_index := 0; current_row := 0; bx := PFloat 600; by_ := PFloat 140;
     target_x := PInt 600; target_y := PInt 160 |}.

(** [demo_slow] after one more tick. *)
Definition demo_slow_next : State :=
  Eval vm_compute in state_of (@update_animation demo_numpy demo_slow).

(** * Definitions for the further properties *)

(** ** The safe area *)

(** The box [clamp_position] clamps to. *)
Definition contained (x y : num) : bool :=
  let a := board_area in
  py_le (PInt (ax a + board_margin)) x
  && py_le x (PInt (ax a + awidth a - board_margin))
  && py_le (PInt (ay a + 20)) y
  && py_le y (PInt (ay a + aheight a - 20)).

Definition ball_contained (b : ball) : Prop :=
  contained (bx b) (by_ b) = true ∧ contained (target_x b) (target_y b) = true.

(** ** Checks run over the tables of [precalculate_positions] *)

Definition peg_of (g : Geometry) (row col : Z) : Z * Z :=
  default default_peg (peg_positions g !! (row, col)).

Definition bin_of (g : Geometry) (bin_num : Z) : Z * Z :=
  default default_bin (bin_positions g !! bin_num).

(** Peg [(row, col)] is in the table and inside the safe box; the pegs of the
    next row at [col] and [col + 1] are below it, to its left and to its
    right. *)
Definition peg_ok (g : Geometry) (n row col : Z) : bool :=
  match peg_positions g !! (row, col) with
  | Some (x, y) =>
      contained (PInt x) (PInt y)
      && ((n <=? row + 1)
          || ((peg_of g (row + 1) col).1 <? x) && (x <? (peg_of g (row + 1) (col + 1)).1)
             && (y <? (peg_of g (row + 1) col).2)
             && ((peg_of g (row + 1) col).2 =? (peg_of g (row + 1) (col + 1)).2))
  | None => false
  end.

(** Bin [bin_num] is in the table, on the bin line and inside the safe box;
    the bins go from left to right, with the pegs of the last row between
    them. *)
Definition bin_ok (g : Geometry) (n bin_num : Z) : bool :=
  match bin_positions g !! bin_num with
  | Some (x, y) =>
      contained (PInt x) (PInt y) && (y =? ay board_area + aheight board_area - 60)
      && ((n <=? bin_num)
          || ((x <? (peg_of g (n - 1) bin_num).1)
              && ((peg_of g (n - 1) bin_num).1 <? (bin_of g (bin_num + 1)).1)))
  | None => false
  end.

Definition geometry_ok (n : Z) : bool :=
  match compute_geometry n with
  | Ok g =>
      forallb (λ row, forallb (peg_ok g n row) (seqZ 0 (row + 1))) (seqZ 0 n)
      && forallb (bin_ok g n) (seqZ 0 (n + 1))
      && (Z.of_nat (size (bin_positions g)) =? n + 1)
      && bool_decide (peg_positions g !! (0, 0) = Some (600, 160))
  | Raise _ => false
  end.

(** ** What the histogram and the statistics on display are *)

(** The number of outcomes in each of [n] bins. *)
Definition histogram (n : nat) (l : list Z) : list Z :=
  (λ k, len (filter (λ v, v = k) l)) <$> seqZ 0 (Z.of_nat n).

(** The outcomes the last refresh of the statistics has seen: a refresh
    happens at every fifth outcome. *)
Definition refreshed (l : list Z) : list Z := take (Z.to_nat (5 * (len l / 5))) l.

Section Shown.
Context `{NumPy}.

Definition shown_mean (l : list Z) : num :=
  if len l <? 5 then PInt 0 else PFloat (np_mean (refreshed l)).

Definition shown_std (l : list Z) : num :=
  if len l <? 5 then PInt 0 else PFloat (np_std (refreshed l)).

Record outcome_facts (r : Results) : Prop := {
  of_count : len (positions r) = balls_completed r;
  of_hist : bins_count r = histogram (length (bins_count r)) (positions r);
  of_range : Forall (λ v, 0 ≤ v < len (bins_count r)) (positions r);
  of_mean : observed_mean r = shown_mean (positions r);
  of_std : observed_std r = shown_std (positions r);
}.
End Shown.

(** ** What holds of the balls in flight *)

(** The ball [start_next_balls] admits as number [k]: above the first peg,
    heading for it. *)
Definition new_ball (k : Z) : ball :=
  {| ball_index := k; current_row := 0; bx := PInt 600; by_ := PInt 120;
     target_x := PInt 600; target_y := PInt 160 |}.

(** Where the path of a ball sends it on its current row: to the first peg,
    to the peg [(row, path[row])], or to the bin of its final entry. *)
Definition target_of (s : State) (b : ball) : option (Z * Z) :=
  path ← ball_paths (anim s) !! Z.to_nat (ball_index b);
  if current_row b =? 0 then Some (get_peg_position s 0 0)
  else if current_row b <? n_rows (params s) then
    col ← path !! Z.to_nat (current_row b);
    Some (get_peg_position s (current_row b) col)
  else
    final_position ← last path;
    Some (get_bin_position s final_position).

Record ball_ok (s : State) (b : ball) : Prop := {
  bo_index : 0 ≤ ball_index b < balls_dropped (anim s);
  bo_row : 0 ≤ current_row b ≤ n_rows (params s);
  bo_contained : ball_contained b;
  bo_target :
    ∃ x y, target_x b = PInt x ∧ target_y b = PInt y ∧ target_of s b = Some (x, y);
}.

(** A list of indices in strictly increasing order. *)
Definition increasing (l : list Z) : Prop :=
  ∀ (i j : nat) a b, l !! i = Some a → l !! j = Some b → (i < j)%nat → a < b.

Section Flight.
Context `{NumPy}.

Record flight_facts (s : State) : Prop := {
  ff_count : len (ball_paths (anim s)) = n_balls (params s);
  ff_rows : Forall (λ path, len path = n_rows (params s)) (ball_paths (anim s));
  ff_balls : Forall (ball_ok s) (balls_in_flight (anim s));
  ff_sorted : increasing (ball_index <$> balls_in_flight (anim s));
  ff_outcomes : outcome_facts (results s);
}.
End Flight.

(** Indices that can be popped one after the other, the first below
    [bound] and each one below the one before. *)
Fixpoint removable (indices : list nat) (bound : nat) : Prop :=
  match indices with
  | [] => True
  | i :: rest => (i < bound)%nat ∧ removable rest i
  end.

(** ** What holds of the configuration *)

Record config_facts (s : State) : Prop := {
  cf_balls : value_balls (widgets s) = n_balls (params s);
  cf_rows : value_rows (widgets s) = n_rows (params s);
  cf_prob : value_prob (widgets s) = probability (params s);
  cf_speed : value_speed (widgets s) = ball_speed (params s);
  cf_multi : value_multi (widgets s) = max_simultaneous_balls (params s);
  cf_mean :
    theoretical_mean (results s)
    = py_mul (PInt (n_rows (params s))) (probability (params s));
  cf_std :
    theoretical_std (results s)
    = PFloat (sqrt (to_float (py_mul (py_mul (PInt (n_rows (params s))) (probability (params s)))
                                (py_sub (PInt 1) (probability (params s))))));
  cf_geometry : compute_geometry (n_rows (params s)) = Ok (geometry s);
}.

(** What a tick leaves alone of the configuration and the widgets. *)
Record tick_frame (s s' : State) : Prop := {
  tk_params : params s' = params s;
  tk_geometry : geometry s' = geometry s;
  tk_paths : ball_paths (anim s') = ball_paths (anim s);
  tk_rng : rng_calls (anim s') = rng_calls (anim s);
  tk_paused : paused (anim s') = paused (anim s);
  tk_stopped : stopped (anim s') = stopped (anim s);
  tk_balls : value_balls (widgets s') = value_balls (widgets s);
  tk_rows : value_rows (widgets s') = value_rows (widgets s);
  tk_prob : value_prob (widgets s') = value_prob (widgets s);
  tk_speed : value_speed (widgets s') = value_speed (widgets s);
  tk_multi : value_multi (widgets s') = value_multi (widgets s);
  tk_dragging : dragging (widgets s') = dragging (widgets s);
  tk_running : running (widgets s') = running (widgets s);
  tk_mean : theoretical_mean (results s') = theoretical_mean (results s);
  tk_std : theoretical_std (results s') = theoretical_std (results s);
}.

Section ProgramFacts.
Context `{NumPy}.

(** Everything that is kept from [__init__] on. *)
Record program_facts (s : State) : Prop := {
  pf_inv : inv s;
  pf_config : config_facts s;
  pf_flight : ball_falling (anim s) = true → flight_facts s;
}.
End ProgramFacts.

(** ** The values of the sliders *)

Definition num_eqb (a b : num) : bool :=
  match a, b with
  | PInt x, PInt y => x =? y
  | PFloat x, PFloat y => PrimFloat.Leibniz.eqb x y
  | _, _ => false
  end.

(** The values a slider offers: the multiples of its step between its
    bounds. *)
Definition slider_values (name : slider_name) : list num :=
  match name with
  | Balls => (λ k, PInt (100 + 50 * k)) <$> seqZ 0 19
  | Rows => PInt <$> seqZ 5 14
  | Prob => (λ k, PFloat (float_of_Z k / float_of_Z 100)) <$> seqZ 10 81
  | Speed => PInt <$> seqZ 1 100
  | Multi => PInt <$> seqZ 1 25
  end.

(** The pixels of a slider, from its left end to its right end. *)
Definition slider_pixels : list Z := seqZ slider_x (slider_width + 1).

Definition result_is (v : num) (r : result num) : bool :=
  match r with
  | Ok w => num_eqb w v
  | Raise _ => false
  end.

(** Every pixel gives one of the values, and every value has a pixel. *)
Definition slider_values_ok (name : slider_name) : bool :=
  let got := slider_value name <$> slider_pixels in
  forallb (λ r, existsb (λ v, result_is v r) (slider_values name)) got
  && forallb (λ v, existsb (result_is v) got) (slider_values name).

(** The value never decreases from a pixel to the next, and the two ends
    give the bounds. *)
Definition slider_monotone_ok (name : slider_name) : bool :=
  forallb
    (λ mx, match slider_value name mx, slider_value name (mx + 1) with
           | Ok v, Ok w => py_le v w
           | _, _ => false
           end)
    (seqZ slider_x slider_width)
  && result_is (slider_min name) (slider_value name slider_x)
  && result_is (slider_max name) (slider_value name (slider_x + slider_width)).

(** ** Drawing: the numbers behind the handles and the progress bar *)

(** [draw_slider], lines 578-589: the abscissa [int(handle_x)] at which the
    centre of the handle is drawn for [value]. *)
Definition slider_handle_x (name : slider_name) (value : num) : result Z :=
  progress ← py_div (py_sub value (slider_min name))
               (py_sub (slider_max name) (slider_min name));
  py_int (py_add (PInt slider_x) (py_mul progress (PInt slider_width))).

(** The value a click on the centre of the handle selects. *)
Definition click_on_handle (name : slider_name) (value : num) : result num :=
  mx ← slider_handle_x name value; slider_value name mx.

(** What the click on the handle does to each value of the slider: it keeps
    the value, except on the balls slider, where it takes one step off every
    value but 100, 550 and 1000. *)
Definition handle_click_ok (name : slider_name) : bool :=
  forallb
    (λ v, match click_on_handle name v with
          | Ok w =>
              match name, v with
              | Balls, PInt k =>
                  num_eqb w (if (k =? 100) || (k =? 550) || (k =? 1000)
                             then PInt k else PInt (k - 50))
              | _, _ => num_eqb w v
              end
          | Raise _ => false
          end)
    (slider_values name).

Definition progress_area_width : Z := 260.

(** [draw_horizontal_progress_bar], lines 457-464:
    [(progress_width, remaining_width)]. *)
Definition progress_bar_widths (s : State) : result (Z * Z) :=
  progress ←
    (if 0 <? n_balls (params s)
     then py_div (PInt (len (positions (results s)))) (PInt (n_balls (params s)))
     else Ok (PInt 0));
  progress_width ← py_int (py_mul (PInt (progress_area_width - 20)) progress);
  Ok (progress_width, progress_area_width - 20 - progress_width).

(** The widths for [k] outcomes out of [n]. *)
Definition progress_width_of (k n : Z) : result Z :=
  progress ← py_div (PInt k) (PInt n);
  py_int (py_mul (PInt (progress_area_width - 20)) progress).

(** For [n] balls: the width is within the bar for every count, never
    shrinks as the count grows, and is the whole bar only when every ball has
    landed. *)
Definition progress_ok (n : Z) : bool :=
  forallb
    (λ k, match progress_width_of k n, progress_width_of (k + 1) n with
          | Ok w, Ok w' => (0 <=? w) && (w <=? w') && (w <? 240) && (w' <=? 240)
          | _, _ => false
          end)
    (seqZ 0 n)
  && match progress_width_of n n with Ok w => w =? 240 | Raise _ => false end.

(** ** More of the concrete runs, and of the statements *)

(** The run of [demo_started] one tick later: every ball in flight has
    reached the first peg and has its target on row 1. *)
Definition demo_on_row_one : State :=
  Eval vm_compute in state_of (@update_animation demo_numpy demo_started).

(** The keys [run] binds to what a button does; the stop button has none. *)
Definition shortcuts (name : button_name) : list key :=
  match name with
  | Run => [K_RETURN; K_SPACE]
  | Pause => [K_p]
  | Reset => [K_r]
  | Stop => []
  end.

(** The steps that end the main loop: the window is closed, or [q] or
    [Escape] is pressed. *)
Definition quits (a : action) : bool :=
  match a with
  | Event QUIT | Event (KEYDOWN K_q) | Event (KEYDOWN K_ESCAPE) => true
  | _ => false
  end.

(** Every parameter is one of the values its slider offers. *)
Definition on_grid (p : Params) : Prop :=
  ∀ name, param_of name p ∈ slider_values name.

(** The probability after a step is the one before or one of the grid. *)
Definition probability_step (s s' : State) : Prop :=
  probability (params s') = probability (params s)
  ∨ probability (params s') ∈ slider_values Prob.

(** The theoretical values for [n] rows and probability [p], as
    [calculate_theoretical_values] computes them, are floats in [(0, n]]. *)
Definition theory_ok (n : Z) (p : num) : bool :=
  match py_mul (PInt n) p with
  | PFloat mean =>
      let std := sqrt (to_float (py_mul (py_mul (PInt n) p) (py_sub (PInt 1) p))) in
      (0 <? mean)%float && (mean <=? float_of_Z n)%float
      && (0 <? std)%float && (std <=? float_of_Z n)%float
  | PInt _ => false
  end.

(** Ball 2 of [demo_on_row_one]: on row 1, its path [1; 2; 3; 3; 3] sends it
    to column 2. *)
Definition demo_ball_two : ball :=
  {| ball_index := 2; current_row := 1; bx := PInt 600; by_ := PInt 160;
     target_x := PInt 600; target_y := PInt 120 |}.

(** [demo_init] after the window is closed. *)
Definition demo_quit : State := upd_widgets (set_running false) demo_init.

(** * Properties *)

(** ** The path generator *)

Section PathGeneratorFacts.
Context `{NumPy}.
Implicit Types (p : num) (path : list Z) (paths : list (list Z)).

Lemma successes_last p first k :
  successes p first (S k)
  = successes p first k + (if success p (first + k) then 1 else 0).
Proof.
  revert first. induction k as [|k IH]; intros first.
  - cbn [successes]. rewrite Nat.add_0_r. lia.
  - change (successes p first (S (S k)))
      with ((if success p first then 1 else 0) + successes p (S first) (S k)).
    rewrite IH. cbn [successes].
    replace (S first + k)%nat with (first + S k)%nat by lia. lia.
Qed.

Lemma successes_bounds p first k : 0 ≤ successes p first k ≤ Z.of_nat k.
Proof.
  revert first. induction k as [|k IH]; intros first; [cbn; lia|].
  cbn [successes]. specialize (IH (S first)). destruct (success p first); lia.
Qed.

Lemma successes_mono p first k : successes p first k ≤ successes p first (S k).
Proof. rewrite successes_last. destruct (success p (first + k)); lia. Qed.

(** The inner loop appends, row by row, the running count of successes. *)
Lemma generate_path_spec rows p position path calls :
  generate_path rows p position path calls
  = (path ++ ((λ r, position + successes p calls (S r)) <$> seq 0 rows),
     (calls + rows)%nat).
Proof.
  revert position path calls.
  induction rows as [|rows IH]; intros position path calls.
  - cbn. by rewrite app_nil_r, Nat.add_0_r.
  - cbn [generate_path]. rewrite IH. f_equal; [|lia].
    rewrite <- app_assoc. f_equal. cbn [seq fmap list_fmap app].
    f_equal.
    + cbn [successes]. unfold success. destruct (py_lt _ p); lia.
    + rewrite <- fmap_S_seq, <- list_fmap_compose.
      apply list_fmap_ext. intros _ r _. cbn [compose].
      change (successes p calls (S (S r)))
        with ((if success p calls then 1 else 0) + successes p (S calls) (S r)).
      unfold success. destruct (py_lt _ p); lia.
Qed.

(** The outer loop: ball [b] consumes the draws [b * rows .. b * rows + rows - 1]
    after the ones made before the call. *)
Lemma generate_paths_spec count rows p paths calls :
  generate_paths count rows p paths calls
  = (paths ++ ((λ b, (λ r, successes p (calls + b * rows) (S r)) <$> seq 0 rows)
                 <$> seq 0 count),
     (calls + count * rows)%nat).
Proof.
  revert paths calls. induction count as [|count IH]; intros paths calls.
  - cbn. by rewrite app_nil_r, Nat.add_0_r.
  - cbn [generate_paths]. rewrite generate_path_spec. cbn [app].
    rewrite IH. f_equal; [|lia].
    rewrite <- app_assoc. f_equal. cbn [seq fmap list_fmap app]. f_equal.
    + rewrite Nat.add_0_r. apply list_fmap_ext. intros _ r _. lia.
    + rewrite <- fmap_S_seq, <- list_fmap_compose.
      apply list_fmap_ext. intros _ b _. cbn [compose].
      apply list_fmap_ext. intros _ r _.
      replace (calls + rows + b * rows)%nat with (calls + S b * rows)%nat by lia.
      done.
Qed.

(** C1. Every path produced by [generate_ball_paths] has exactly [n_rows]
    entries; the entry for row [r + 1] (index [r]) is the number of
    successful trials among the first [r + 1] trials of that ball; the
    entries are non-decreasing; [path[r] <= r + 1] at every index; and the
    final entry lies in [[0, n_rows]]. One path is produced per ball. *)
Theorem generate_ball_paths_spec (s : State) :
  let s' := generate_ball_paths s in
  let count := Z.to_nat (n_balls (params s)) in
  let rows := Z.to_nat (n_rows (params s)) in
  let p := probability (params s) in
  length (ball_paths (anim s')) = count
  ∧ ∀ (b : nat) path, ball_paths (anim s') !! b = Some path →
      length path = rows
      ∧ (∀ r : nat, (r < rows)%nat →
           path !! r = Some (successes p (rng_calls (anim s) + b * rows) (S r)))
      ∧ (∀ (r : nat) v w, path !! r = Some v → path !! S r = Some w → v ≤ w)
      ∧ (∀ (r : nat) v, path !! r = Some v → 0 ≤ v ≤ Z.of_nat r + 1)
      ∧ (∀ v, last path = Some v → 0 ≤ v ≤ Z.of_nat rows).
Proof.
  destruct s as [[balls nrows p speed cap] [] ? ? ?].
  cbn zeta. unfold generate_ball_paths.
  cbn [params anim n_balls n_rows probability rng_calls].
  set (count := Z.to_nat balls). set (rows := Z.to_nat nrows).
  rewrite generate_paths_spec.
  cbn [app ball_paths anim upd_anim set_rng_calls set_ball_paths].
  split; [by rewrite length_fmap, length_seq|].
  intros b path Hb.
  apply list_lookup_fmap_Some in Hb as (b' & -> & Hb').
  apply lookup_seq in Hb' as [-> Hlt]. rewrite Nat.add_0_l.
  match goal with |- context [successes p ?f _] => set (first := f) end.
  assert (Hlook : ∀ r v,
    ((λ r, successes p first (S r)) <$> seq 0 rows) !! r = Some v
    → v = successes p first (S r) ∧ (r < rows)%nat).
  { intros r v Hr. apply list_lookup_fmap_Some in Hr as (r' & -> & Hr').
    apply lookup_seq in Hr' as [-> ?]. done. }
  split; [by rewrite length_fmap, length_seq|].
  split.
  { intros r Hr. rewrite list_lookup_fmap, lookup_seq_lt by done. done. }
  split.
  { intros r v w Hv Hw. apply Hlook in Hv as [-> _]. apply Hlook in Hw as [-> _].
    apply successes_mono. }
  split.
  { intros r v Hv. apply Hlook in Hv as [-> _].
    pose proof (successes_bounds p first (S r)). lia. }
  intros v Hv. rewrite last_lookup in Hv. apply Hlook in Hv as [-> Hr].
  rewrite length_fmap, length_seq in Hr |- *.
  pose proof (successes_bounds p first (S (pred rows))). lia.
Qed.
End PathGeneratorFacts.

(** ** Tactics and basic facts *)

(** Case analysis on every state in sight, so that assignments compute. *)
Ltac destruct_states :=
  repeat match goal with
         | s : State |- _ => destruct s as [[] [] [] [] []]
         end.

Ltac simpl_upd :=
  cbn [n_balls n_rows probability ball_speed max_simultaneous_balls ball_paths balls_in_flight balls_dropped delay_counter ball_falling paused stopped rng_calls positions bins_count balls_completed observed_mean observed_std theoretical_mean theoretical_std simulation_complete peg_positions bin_positions value_balls value_rows value_prob value_speed value_multi dragging running plot_update_counter plot_needs_update params anim results geometry widgets set_n_balls set_n_rows set_probability set_ball_speed set_max_simultaneous_balls set_ball_paths set_balls_in_flight set_balls_dropped set_delay_counter set_ball_falling set_paused set_stopped set_rng_calls set_positions set_bins_count set_balls_completed set_observed_mean set_observed_std set_theoretical_mean set_theoretical_std set_simulation_complete set_peg_positions set_bin_positions set_value_balls set_value_rows set_value_prob set_value_speed set_value_multi set_dragging set_running set_plot_update_counter set_plot_needs_update upd_params upd_anim upd_results upd_geometry upd_widgets] in *.

Ltac simpl_state := destruct_states; simpl_upd.

Lemma bind_Ok {A B} (m : result A) (k : A → result B) (b : B) :
  m ≫= k = Ok b ↔ ∃ a, m = Ok a ∧ k a = Ok b.
Proof.
  destruct m as [a|e]; cbn.
  - split; [intros Hk; by exists a | by intros (a' & [= <-] & Hk)].
  - split; [done | by intros (a' & [=] & _)].
Qed.

Lemma fmap_Ok {A B} (m : result A) (g : A → B) (b : B) :
  g <$> m = Ok b ↔ ∃ a, m = Ok a ∧ g a = b.
Proof.
  destruct m as [a|e]; cbn.
  - split; [intros [= <-]; by exists a | by intros (a' & [= <-] & <-)].
  - split; [done | by intros (a' & [=] & _)].
Qed.

(** Splits a successful [x ← m; k] into its two successful parts. *)
Ltac bind_inv H :=
  let a := fresh "a" in
  let Ha := fresh "Ha" in
  apply bind_Ok in H as (a & Ha & H).

Tactic Notation "bind_split" hyp(H) "as" simple_intropattern(a) ident(Ha) :=
  apply bind_Ok in H as (a & Ha & H).

Lemma len_nonneg {A} (l : list A) : 0 ≤ len l.
Proof. unfold len. lia. Qed.

Lemma len_app {A} (l k : list A) : len (l ++ k) = len l + len k.
Proof. unfold len. rewrite length_app. lia. Qed.

Lemma len_nil {A} : len (@nil A) = 0.
Proof. done. Qed.

Lemma sum_list_cons a l : sum_list (a :: l) = a + sum_list l.
Proof. done. Qed.

Lemma sum_list_app l k : sum_list (l ++ k) = sum_list l + sum_list k.
Proof.
  induction l as [|a l IH]; [done|].
  cbn [app]. rewrite !sum_list_cons. lia.
Qed.

Lemma sum_list_replicate n : sum_list (replicate n 0) = 0.
Proof. induction n as [|n IH]; [done|]. cbn [replicate]. by rewrite sum_list_cons. Qed.

Lemma sum_list_nonneg l : Forall (λ c, 0 ≤ c) l → 0 ≤ sum_list l.
Proof. induction 1; [done|]. rewrite sum_list_cons. lia. Qed.

Lemma sum_list_take_le n l : Forall (λ c, 0 ≤ c) l → sum_list (take n l) ≤ sum_list l.
Proof.
  intros Hl. revert n. induction Hl as [|a l Ha Hl IH]; intros [|n]; cbn [take]; try done.
  - pose proof (sum_list_nonneg l Hl). rewrite sum_list_cons. cbn. lia.
  - specialize (IH n). rewrite !sum_list_cons. lia.
Qed.

Lemma sum_list_alter_succ l i c :
  l !! i = Some c → sum_list (alter (λ c, c + 1) i l) = sum_list l + 1.
Proof.
  revert i. induction l as [|a l IH]; intros [|i] Hi; try done.
  - cbn. lia.
  - cbn [alter list_alter]. rewrite !sum_list_cons.
    change (list_alter (λ c, c + 1) i l) with (alter (λ c, c + 1) i l).
    rewrite (IH i Hi). lia.
Qed.

(** ** Frame facts: which attributes each method assigns *)

Lemma update_bins_array_size_Ok s s' :
  update_bins_array_size s = Ok s' →
  0 ≤ n_rows (params s) + 1
  ∧ s' = upd_results
           (set_bins_count
              (resize (Z.to_nat (n_rows (params s) + 1)) 0 (bins_count (results s)))) s.
Proof.
  unfold update_bins_array_size, np_zeros, len.
  case_decide as Hlen.
  - destruct (Z.ltb_spec (n_rows (params s) + 1) 0) as [|Hpos]; [done|].
    cbn. intros [= <-]. split; [done|]. do 2 f_equal.
    rewrite resize_spec, drop_replicate. f_equal.
    + destruct (decide (length (bins_count (results s))
                        ≤ Z.to_nat (n_rows (params s) + 1))%nat).
      * rewrite !take_ge; [done|lia..].
      * f_equal. lia.
    + f_equal. lia.
  - intros [= <-]. split; [lia|].
    rewrite resize_all_alt by lia. by destruct s as [? ? [] ? ?].
Qed.

Lemma precalculate_positions_Ok s s' :
  precalculate_positions s = Ok s' →
  ∃ g, compute_geometry (n_rows (params s)) = Ok g
       ∧ s' = upd_geometry (λ _, g)
                (upd_results
                   (set_bins_count
                      (resize (Z.to_nat (n_rows (params s) + 1)) 0
                         (bins_count (results s)))) s).
Proof.
  unfold precalculate_positions. intros Hs.
  bind_inv Hs. apply update_bins_array_size_Ok in Ha as [_ ->].
  bind_inv Hs. injection Hs as <-. simpl_state. eauto.
Qed.

Lemma generate_ball_paths_frame `{NumPy} s :
  ∃ paths calls,
    generate_ball_paths s = upd_anim (set_rng_calls calls) (upd_anim (set_ball_paths paths) s)
    ∧ ∀ path v, path ∈ paths → last path = Some v →
        0 ≤ v ≤ Z.of_nat (Z.to_nat (n_rows (params s))).
Proof.
  unfold generate_ball_paths. rewrite generate_paths_spec. eexists _, _.
  split; [done|]. cbn [app].
  intros path v (b & -> & _)%list_elem_of_fmap Hv.
  rewrite last_lookup, length_fmap, length_seq in Hv.
  apply list_lookup_fmap_Some in Hv as (r & -> & Hr).
  pose proof (successes_bounds (probability (params s))
                (rng_calls (anim s) + b * Z.to_nat (n_rows (params s))) (S r)).
  apply lookup_seq in Hr as [-> Hr]. lia.
Qed.

(** The admission loop. *)
Lemma admit_ball_frame s :
  ∃ b, admit_ball s
       = upd_anim (set_balls_dropped (balls_dropped (anim s) + 1))
           (upd_anim (set_balls_in_flight (balls_in_flight (anim s) ++ [b])) s)
       ∧ ball_index b = balls_dropped (anim s) ∧ current_row b = 0.
Proof.
  unfold admit_ball.
  destruct (peg_positions (geometry s) !! (0, 0)) as [[px py]|];
    cbn [fst snd]; repeat destruct (clamp_position _ _); eauto.
Qed.

Lemma admit_loop_spec fuel s :
  ∃ new,
    admit_loop fuel s
    = upd_anim (set_balls_dropped (balls_dropped (anim s) + len new))
        (upd_anim (set_balls_in_flight (balls_in_flight (anim s) ++ new)) s)
    ∧ (new ≠ [] → may_admit s = true)
    ∧ (len new ≤ Z.of_nat fuel)
    ∧ (0 < len new →
       len (balls_in_flight (anim s)) + len new ≤ max_simultaneous_balls (params s)
       ∧ balls_dropped (anim s) + len new ≤ n_balls (params s)).
Proof.
  revert s. induction fuel as [|fuel IH]; intros s.
  - exists []. cbn [admit_loop]. rewrite app_nil_r, len_nil, Z.add_0_r.
    split; [by destruct s as [? [] ? ? ?]|]. repeat split; try done; lia.
  - cbn [admit_loop]. destruct (may_admit s) eqn:Hadm.
    + destruct (admit_ball_frame s) as (b & Hb & _). rewrite Hb.
      set (s1 := upd_anim _ _) in *.
      destruct (IH s1) as (new & -> & Hne & Hfuel & Hcap).
      exists (b :: new). subst s1. simpl_state.
      rewrite <- app_assoc. cbn [app].
      assert (len (b :: new) = 1 + len new) as -> by (unfold len; cbn [length]; lia).
      rewrite Z.add_assoc.
      split; [done|]. split; [done|].
      split; [unfold len in *; cbn [length]; lia|].
      unfold may_admit in Hadm, Hne. simpl_state.
      apply andb_true_iff in Hadm as [Hc%Z.ltb_lt Hd%Z.ltb_lt].
      intros _. destruct (decide (new = [])) as [->|Hnew].
      { unfold len in *. cbn [length] in *. lia. }
      assert (0 < len new) as Hpos.
      { destruct new; [done|]. unfold len. cbn [length]. lia. }
      specialize (Hcap Hpos). rewrite len_app in Hcap.
      unfold len in *. cbn [length] in *. lia.
    + exists []. rewrite app_nil_r, len_nil, Z.add_0_r.
      split; [by destruct s as [? [] ? ? ?]|].
      repeat split; try done; lia.
Qed.

(** The fuel of [start_next_balls] is never what stops the loop: on exit the
    condition of the [while] is false. *)
Lemma admit_loop_exits fuel s :
  n_balls (params s) - balls_dropped (anim s) ≤ Z.of_nat fuel →
  may_admit (admit_loop fuel s) = false.
Proof.
  revert s. induction fuel as [|fuel IH]; intros s Hfuel; cbn [admit_loop].
  - unfold may_admit. apply andb_false_iff. right. apply Z.ltb_ge. lia.
  - destruct (may_admit s) eqn:Hadm; [|done].
    apply IH. destruct (admit_ball_frame s) as (b & -> & _). simpl_state. lia.
Qed.

Lemma start_next_balls_exits s : may_admit (start_next_balls s) = false.
Proof. apply admit_loop_exits. lia. Qed.

Lemma start_next_balls_spec s :
  ∃ new,
    start_next_balls s
    = upd_anim (set_balls_dropped (balls_dropped (anim s) + len new))
        (upd_anim (set_balls_in_flight (balls_in_flight (anim s) ++ new)) s)
    ∧ (new ≠ [] → may_admit s = true)
    ∧ (0 < len new →
       len (balls_in_flight (anim s)) + len new ≤ max_simultaneous_balls (params s)
       ∧ balls_dropped (anim s) + len new ≤ n_balls (params s)).
Proof.
  destruct (admit_loop_spec (Z.to_nat (n_balls (params s) - balls_dropped (anim s))) s)
    as (new & Hs & Hne & _ & Hcap). by exists new.
Qed.

(** ** The tick, ball by ball *)

Lemma py_getitem_elem_of {A} (l : list A) i a : py_getitem l i = Ok a → a ∈ l.
Proof.
  unfold py_getitem. destruct (_ && _); [|done].
  destruct (l !! _) eqn:Hl; [|done]. intros [= <-]. by eapply list_elem_of_lookup_2.
Qed.

Lemma py_getitem_last {A} (l : list A) a : py_getitem l (-1) = Ok a → last l = Some a.
Proof.
  unfold py_getitem. cbn [Z.ltb Z.compare]. destruct (_ && _) eqn:Hr; [|done].
  destruct (l !! _) eqn:Hl; [|done]. intros [= <-].
  rewrite last_lookup, <- Hl. f_equal. unfold len. lia.
Qed.

Lemma py_pop_Ok {A} (l l' : list A) i :
  py_pop l i = Ok l' → len l' + 1 = len l.
Proof.
  unfold py_pop. case_decide as Hi; [|done]. intros [= <-].
  unfold len. rewrite length_delete by by apply lookup_lt_is_Some. lia.
Qed.

Section SchedulerFacts.
Context `{NumPy}.

(** What recording an outcome assigns. *)
Lemma record_outcome_valid v s :
  0 ≤ v < len (bins_count (results s)) →
  ∃ om os w,
    record_outcome v s
    = upd_widgets (λ _, w)
        (upd_results
           (λ r, {| positions := positions r ++ [v];
                    bins_count := alter (λ c, c + 1) (Z.to_nat v) (bins_count r);
                    balls_completed := balls_completed r + 1;
                    observed_mean := om; observed_std := os;
                    theoretical_mean := theoretical_mean r;
                    theoretical_std := theoretical_std r;
                    simulation_complete := simulation_complete r |}) s)
    ∧ (if (balls_completed (results s) + 1) mod 5 =? 0 then
         om = PFloat (np_mean (positions (results s) ++ [v]))
         ∧ os = (if 1 <? len (positions (results s) ++ [v])
                 then PFloat (np_std (positions (results s) ++ [v])) else PInt 0)
       else om = observed_mean (results s) ∧ os = observed_std (results s)).
Proof.
  intros [Hlo Hhi]. unfold record_outcome.
  apply Z.leb_le in Hlo as ->. apply Z.ltb_lt in Hhi as ->. cbn [andb].
  simpl_state.
  destruct (_ mod 5 =? 0); simpl_state;
    (destruct (plot_update_interval <=? _);
     eexists _, _, _; (split; [|done]); done).
Qed.

Lemma record_outcome_invalid v s :
  ¬ (0 ≤ v < len (bins_count (results s))) → record_outcome v s = s.
Proof.
  intros Hv. unfold record_outcome.
  destruct (Z.leb_spec 0 v), (Z.ltb_spec v (len (bins_count (results s)))); cbn [andb];
    try done. lia.
Qed.

(** One iteration of the loop either rewrites entry [i] of
    [balls_in_flight], or records an outcome and schedules [i] for removal. *)
Lemma advance_ball_Ok i b s rm s' rm' :
  advance_ball i b s rm = Ok (s', rm') →
  (rm' = rm
   ∧ ∃ b', s' = upd_anim (set_balls_in_flight (<[i := b']> (balls_in_flight (anim s)))) s)
  ∨ (rm' = rm ++ [i]
     ∧ ∃ path v, path ∈ ball_paths (anim s) ∧ last path = Some v
                 ∧ s' = record_outcome v s).
Proof.
  unfold advance_ball.
  destruct (clamp_position (bx b) (by_ b)) as [x y].
  destruct (clamp_position (target_x b) (target_y b)) as [tx ty].
  destruct (py_lt _ _).
  - destruct (clamp_position tx ty) as [x' y'].
    destruct (current_row b <? n_rows (params s)).
    + intros Hs. bind_inv Hs. bind_inv Hs.
      destruct (clamp_position _ _) as [tx' ty']. injection Hs as <- <-.
      left. eauto.
    + intros Hs. bind_inv Hs. bind_inv Hs. injection Hs as <- <-.
      right. split; [done|]. eexists _, _.
      eauto using py_getitem_elem_of, py_getitem_last.
  - intros Hs. bind_inv Hs.
    destruct (clamp_position _ _) as [nx ny]. injection Hs as <- <-.
    left. eauto.
Qed.
End SchedulerFacts.

(** ** The tick as a whole *)

Lemma loop_frame_refl s : loop_frame s s.
Proof. by constructor. Qed.

Lemma loop_frame_trans s1 s2 s3 : loop_frame s1 s2 → loop_frame s2 s3 → loop_frame s1 s3.
Proof. intros [] []. constructor; congruence. Qed.

Section TickFacts.
Context `{NumPy}.

Lemma advance_ball_facts i b s rm s' rm' k :
  advance_ball i b s rm = Ok (s', rm') →
  run_facts k s →
  Forall (λ c, 0 ≤ c) (bins_count (results s)) →
  loop_frame s s'
  ∧ length (balls_in_flight (anim s')) = length (balls_in_flight (anim s))
  ∧ run_facts (k + (len rm' - len rm)) s'
  ∧ Forall (λ c, 0 ≤ c) (bins_count (results s')).
Proof.
  intros Hs [Hout Hacc Hdrop Hhist Hpos Hcap Hstats] Hnn.
  apply advance_ball_Ok in Hs as [(-> & b' & ->)|(-> & path & v & Hpath & Hv & ->)].
  - unfold outcomes_valid, stats_fresh in *. simpl_state.
    split; [by constructor|].
    split; [by rewrite length_insert|].
    replace (k + (len rm - len rm)) with k by lia. split; [|done].
    constructor; unfold outcomes_valid, stats_fresh; simpl_upd;
      unfold len in *; rewrite ?length_insert; done.
  - pose proof Hout as Hout0. specialize (Hout path v Hpath Hv).
    destruct (record_outcome_valid v s Hout) as (om & os & w & -> & Hobs).
    assert (is_Some (bins_count (results s) !! Z.to_nat v)) as [c Hc].
    { apply lookup_lt_is_Some. unfold len in Hout. lia. }
    unfold outcomes_valid, stats_fresh in *. simpl_state.
    split; [constructor; simpl_upd; try done; by rewrite length_alter|].
    split; [done|].
    rewrite len_app. change (len [i]) with 1.
    split.
    + constructor; unfold outcomes_valid, stats_fresh; simpl_upd.
      * intros path' v' Hp' Hv'. unfold len. rewrite length_alter.
        by apply (Hout0 path' v').
      * lia.
      * done.
      * rewrite (sum_list_alter_succ _ _ c Hc). lia.
      * rewrite len_app. change (len [v]) with 1. lia.
      * done.
      * intros Hmod Hgt. apply Z.eqb_eq in Hmod. rewrite Hmod in Hobs.
        destruct Hobs as [-> ->].
        split; [done|].
        rewrite len_app. change (len [v]) with 1.
        match goal with |- context [1 <? ?x] => destruct (Z.ltb_spec 1 x) end; [done|lia].
    + apply Forall_alter; [done|]. intros c' _ ?. lia.
Qed.

Lemma advance_balls_facts todo i s rm s' rm' k :
  advance_balls todo i s rm = Ok (s', rm') →
  run_facts k s →
  Forall (λ c, 0 ≤ c) (bins_count (results s)) →
  loop_frame s s'
  ∧ length (balls_in_flight (anim s')) = length (balls_in_flight (anim s))
  ∧ run_facts (k + (len rm' - len rm)) s'
  ∧ Forall (λ c, 0 ≤ c) (bins_count (results s')).
Proof.
  revert i s rm k. induction todo as [|todo IH]; intros i s rm k Hs Hrf Hnn.
  - injection Hs as <- <-. replace (k + (len rm - len rm)) with k by lia.
    eauto using loop_frame_refl.
  - cbn [advance_balls] in Hs. destruct (balls_in_flight (anim s) !! i) as [b|].
    + bind_inv Hs. destruct a as [s1 rm1]. cbn [fst snd] in Hs.
      destruct (advance_ball_facts _ _ _ _ _ _ k Ha Hrf Hnn) as (Hf1 & Hl1 & Hrf1 & Hnn1).
      destruct (IH _ _ _ _ Hs Hrf1 Hnn1) as (Hf2 & Hl2 & Hrf2 & Hnn2).
      split; [by eapply loop_frame_trans|]. split; [congruence|]. split; [|done].
      replace (k + (len rm' - len rm)) with (k + (len rm1 - len rm) + (len rm' - len rm1))
        by lia.
      done.
    + injection Hs as <- <-. replace (k + (len rm - len rm)) with k by lia.
      eauto using loop_frame_refl.
Qed.

Lemma record_outcome_anim v s :
  anim (record_outcome v s) = anim s ∧ params (record_outcome v s) = params s
  ∧ geometry (record_outcome v s) = geometry s.
Proof.
  destruct (decide (0 ≤ v < len (bins_count (results s)))) as [Hv|Hv].
  - destruct (record_outcome_valid v s Hv) as (om & os & w & -> & _).
    by destruct s.
  - by rewrite record_outcome_invalid.
Qed.

Lemma advance_ball_length i b s rm s' rm' :
  advance_ball i b s rm = Ok (s', rm') →
  length (balls_in_flight (anim s')) = length (balls_in_flight (anim s)).
Proof.
  intros [(-> & b' & ->)|(-> & path & v & _ & _ & ->)]%advance_ball_Ok.
  - simpl_state. by rewrite length_insert.
  - by destruct (record_outcome_anim v s) as [-> _].
Qed.

(** The fuel of the [for] loop is never what stops it: with the length of
    the list at entry as fuel, more fuel changes nothing. *)
Lemma advance_balls_exits todo extra i s rm :
  (length (balls_in_flight (anim s)) ≤ i + todo)%nat →
  advance_balls (todo + extra) i s rm = advance_balls todo i s rm.
Proof.
  revert i s rm. induction todo as [|todo IH]; intros i s rm Hlen.
  - cbn [Nat.add advance_balls].
    destruct extra as [|extra]; [done|]. cbn [advance_balls].
    rewrite lookup_ge_None_2 by lia. done.
  - cbn [Nat.add advance_balls].
    destruct (balls_in_flight (anim s) !! i) as [b|]; [|done].
    destruct (advance_ball i b s rm) as [[s1 rm1]|e] eqn:Hb; [|done].
    cbn [mbind result_bind fst snd]. apply IH.
    rewrite (advance_ball_length _ _ _ _ _ _ Hb). lia.
Qed.

Lemma remove_balls_Ok rm s s' :
  remove_balls rm s = Ok s' →
  ∃ l, s' = upd_anim (set_balls_in_flight l) s
       ∧ len l + len rm = len (balls_in_flight (anim s)).
Proof.
  unfold remove_balls.
  replace (len rm) with (len (reverse rm)) by (unfold len; by rewrite length_reverse).
  generalize (reverse rm). clear rm. intros rm. revert s.
  induction rm as [|a rm IH]; intros s Hs.
  - injection Hs as <-. exists (balls_in_flight (anim s)).
    split; [by destruct s as [? [] ? ? ?]|]. rewrite len_nil. lia.
  - cbn [for_each] in Hs. bind_inv Hs. bind_inv Ha. injection Ha as <-.
    apply py_pop_Ok in Ha0. apply IH in Hs as (l & -> & Hl). simpl_state.
    exists l. split; [done|]. unfold len in *. cbn [length]. lia.
Qed.
End TickFacts.

Section TickInvariant.
Context `{NumPy}.

(** The gate of lines 298-299. *)
Lemma update_animation_closed s :
  ball_falling (anim s) = false ∨ paused (anim s) = true ∨ stopped (anim s) = true →
  update_animation s = Ok s.
Proof.
  unfold update_animation. intros [-> | [-> | ->]]; cbn [negb orb]; try done.
  - by destruct (negb _).
  - by destruct (negb _), (paused _).
Qed.

Lemma ticks_closed n s :
  ball_falling (anim s) = false ∨ paused (anim s) = true ∨ stopped (anim s) = true →
  ticks n s = Ok s.
Proof.
  intros Hs. induction n as [|n IH]; [done|].
  cbn [ticks]. by rewrite update_animation_closed.
Qed.

Lemma admission_phase_spec s :
  ∃ new d,
    admission_phase s
    = upd_anim (set_delay_counter d)
        (upd_anim (set_balls_dropped (balls_dropped (anim s) + len new))
           (upd_anim (set_balls_in_flight (balls_in_flight (anim s) ++ new)) s))
    ∧ (0 < len new →
       len (balls_in_flight (anim s)) + len new ≤ max_simultaneous_balls (params s)
       ∧ balls_dropped (anim s) + len new ≤ n_balls (params s)).
Proof.
  unfold admission_phase. destruct (py_gt _ _).
  - exists [], (py_sub (delay_counter (anim s)) (PInt 1)).
    rewrite app_nil_r, len_nil, Z.add_0_r. split; [|lia].
    by destruct s as [? [] ? ? ?].
  - destruct (start_next_balls_spec s) as (new & -> & _ & Hcap).
    eexists new, _. split; [done|]. done.
Qed.

Lemma admission_phase_facts s :
  run_facts 0 s →
  loop_frame_but_delay s (admission_phase s) ∧ run_facts 0 (admission_phase s)
  ∧ results (admission_phase s) = results s.
Proof.
  intros [Hout Hacc Hdrop Hhist Hpos Hcap Hstats].
  destruct (admission_phase_spec s) as (new & d & -> & Hnew).
  assert (new = [] ∨ 0 < len new) as Hcases.
  { destruct new; [by left|right]. unfold len. cbn [length]. lia. }
  unfold outcomes_valid, stats_fresh in *. simpl_state.
  split; [by constructor|]. split; [|done].
  destruct Hcases as [->|Hlen].
  - constructor; unfold outcomes_valid, stats_fresh in *; simpl_upd;
      rewrite ?app_nil_r, ?Z.add_0_r; try done.
    all: unfold len in *; cbn [length] in *; lia.
  - destruct (Hnew Hlen) as [Hc Hd].
    constructor; unfold outcomes_valid, stats_fresh in *; simpl_upd;
      rewrite ?len_app; try done; lia.
Qed.

(** A tick with the gate open: the state before the completion check. *)
Lemma update_animation_open s s' :
  update_animation s = Ok s' →
  ball_falling (anim s) = true → paused (anim s) = false → stopped (anim s) = false →
  run_facts 0 s →
  Forall (λ c, 0 ≤ c) (bins_count (results s)) →
  ∃ s2, s' = completion_check s2
        ∧ loop_frame_but_delay s s2
        ∧ run_facts 0 s2
        ∧ Forall (λ c, 0 ≤ c) (bins_count (results s2)).
Proof.
  unfold update_animation. intros Hs Hf Hp Hst Hrf Hnn.
  rewrite Hf, Hp, Hst in Hs. cbn [negb orb] in Hs.
  destruct (admission_phase_facts s Hrf) as (Hf1 & Hrf1 & Hres1).
  revert Hs Hf1 Hrf1 Hres1. generalize (admission_phase s).
  intros s1 Hs Hf1 Hrf1 Hres1.
  bind_split Hs as [s2 rm] Hloop. cbn [fst snd] in Hs.
  bind_split Hs as s3 Hrm. injection Hs as <-.
  rewrite <- Hres1 in Hnn.
  destruct (advance_balls_facts _ _ _ _ _ _ 0 Hloop Hrf1 Hnn) as (Hf2 & Hl2 & Hrf2 & Hnn2).
  apply remove_balls_Ok in Hrm as (l & -> & Hl).
  exists (upd_anim (set_balls_in_flight l) s2). split; [done|].
  replace (0 + (len rm - len (@nil nat))) with (len rm) in Hrf2
    by (unfold len; cbn [length]; lia).
  destruct Hf1, Hf2, Hrf2.
  pose proof (len_nonneg rm).
  clear Hloop Hrf Hrf1.
  unfold outcomes_valid, stats_fresh in *. simpl_state. simplify_eq.
  split; [constructor; simpl_upd; congruence|].
  split; [|done].
  constructor; unfold outcomes_valid, stats_fresh in *; simpl_upd; try done; lia.
Qed.

Lemma completion_check_spec s :
  (n_balls (params s) ≤ balls_dropped (anim s) ∧ balls_in_flight (anim s) = []
   ∧ completion_check s
     = upd_widgets (set_plot_needs_update true)
         (upd_results (set_simulation_complete true)
            (upd_anim (set_ball_falling false) s)))
  ∨ ((balls_dropped (anim s) < n_balls (params s) ∨ balls_in_flight (anim s) ≠ [])
     ∧ completion_check s = s).
Proof.
  unfold completion_check.
  destruct (Z.leb_spec (n_balls (params s)) (balls_dropped (anim s)));
    destruct (Z.eqb_spec (len (balls_in_flight (anim s))) 0) as [Hl|Hl]; cbn [andb].
  - left. split; [done|]. split; [|done].
    destruct (balls_in_flight (anim s)); [done|]. unfold len in Hl. cbn in Hl. lia.
  - right. split; [|done]. right. intros Hnil. by rewrite Hnil in Hl.
  - right. split; [|done]. by left.
  - right. split; [|done]. by left.
Qed.
End TickInvariant.

(** ** Slider values *)

Lemma clamp_int lo hi k :
  py_max (PInt lo) (py_min (PInt hi) (PInt k)) = PInt (Z.max lo (Z.min hi k)).
Proof.
  unfold py_max, py_min, py_gt, py_lt.
  destruct (Z.ltb_spec k hi);
    match goal with |- context [?a <? ?b] => destruct (Z.ltb_spec a b) end;
    f_equal; lia.
Qed.

Lemma slider_value_balls mx v :
  slider_value Balls mx = Ok v →
  ∃ z, v = PInt z ∧ 100 ≤ z ≤ 1000 ∧ z mod 50 = 0.
Proof.
  unfold slider_value. intros Hv.
  bind_split Hv as new_value Hnew. bind_split Hv as stepped Hstepped.
  bind_split Hstepped as q Hq. bind_split Hstepped as k Hk.
  injection Hstepped as <-. injection Hv as <-.
  cbn [slider_step slider_min slider_max py_mul]. rewrite clamp_int.
  eexists. split; [done|]. split; [lia|].
  destruct (Z.max_spec 100 (Z.min 1000 (k * 50))) as [[_ ->]|[_ ->]]; [|done].
  destruct (Z.min_spec 1000 (k * 50)) as [[_ ->]|[_ ->]]; [done|].
  apply Z.mod_mul. done.
Qed.

Lemma slider_value_rounded name mx v :
  name = Rows ∨ name = Speed ∨ name = Multi →
  slider_value name mx = Ok v →
  ∃ lo hi z, slider_min name = PInt lo ∧ slider_max name = PInt hi
             ∧ v = PInt z ∧ lo ≤ z ≤ hi.
Proof.
  unfold slider_value. intros Hname Hv.
  bind_split Hv as new_value Hnew. bind_split Hv as rounded Hrounded.
  injection Hv as <-.
  assert (∃ k, rounded = PInt k) as [k ->].
  { destruct Hname as [-> | [-> | ->]]; apply fmap_Ok in Hrounded as (k & _ & <-); eauto. }
  destruct Hname as [-> | [-> | ->]]; cbn [slider_min slider_max]; rewrite clamp_int;
    eexists _, _, _; (split; [done|]); (split; [done|]); (split; [done|]); lia.
Qed.

(** The probability slider, pixel by pixel. *)
Lemma prob_slider_table :
  forallb prob_slider_ok (seqZ slider_x (slider_width + 1)) = true.
Proof. vm_compute. reflexivity. Qed.

Lemma slider_value_prob mx :
  slider_x ≤ mx ≤ slider_x + slider_width →
  ∃ v, slider_value Prob mx = Ok v ∧ prob_in_range v = true.
Proof.
  intros Hmx. pose proof prob_slider_table as Htab.
  rewrite forallb_forall in Htab. specialize (Htab mx).
  unfold prob_slider_ok in Htab. destruct (slider_value Prob mx) as [v|e].
  - exists v. split; [done|]. apply Htab, list_elem_of_In, elem_of_seqZ. lia.
  - exfalso. enough (false = true) by done.
    apply Htab, list_elem_of_In, elem_of_seqZ. lia.
Qed.

Lemma int_slider_table :
  forallb (λ name, forallb (int_slider_ok name) (seqZ slider_x (slider_width + 1)))
    [Balls; Rows; Speed; Multi] = true.
Proof. vm_compute. reflexivity. Qed.

Lemma slider_value_int_total name mx :
  name ≠ Prob →
  slider_x ≤ mx ≤ slider_x + slider_width →
  ∃ z, slider_value name mx ≫= as_int = Ok z.
Proof.
  intros Hname Hmx. pose proof int_slider_table as Htab.
  rewrite forallb_forall in Htab. specialize (Htab name).
  rewrite forallb_forall in Htab.
  assert (int_slider_ok name mx = true) as Hok.
  { apply Htab; [|apply list_elem_of_In, elem_of_seqZ; lia].
    destruct name; cbn; tauto. }
  unfold int_slider_ok in Hok. destruct (_ ≫= _) as [z|]; [eauto|done].
Qed.

(** The geometry is computed without error for every row count a slider
    can give. *)
Lemma compute_geometry_table :
  forallb (λ n, match compute_geometry n with Ok _ => true | Raise _ => false end)
    (seqZ 5 14) = true.
Proof. vm_compute. reflexivity. Qed.

Lemma compute_geometry_total n :
  5 ≤ n ≤ 18 → ∃ g, compute_geometry n = Ok g.
Proof.
  intros Hn. pose proof compute_geometry_table as Htab.
  rewrite forallb_forall in Htab. specialize (Htab n).
  destruct (compute_geometry n) as [g|]; [eauto|].
  exfalso. enough (false = true) by done.
  apply Htab, list_elem_of_In, elem_of_seqZ. lia.
Qed.

(** ** The invariant is established and kept *)

Lemma sum_list_resize_le n l :
  Forall (λ c, 0 ≤ c) l → sum_list (resize n 0 l) ≤ sum_list l.
Proof.
  intros Hl. rewrite resize_spec, sum_list_app, sum_list_replicate.
  pose proof (sum_list_take_le n l Hl). lia.
Qed.

Lemma valid_params_default : valid_params default_params.
Proof. constructor; cbn; try lia; done. Qed.

Section InvariantSteps.
Context `{NumPy}.

(** A change of configuration outside a run. *)
Lemma inv_config_change s s' :
  inv s →
  ball_falling (anim s) = false →
  valid_params (params s') →
  anim s' = anim s →
  positions (results s') = positions (results s) →
  balls_completed (results s') = balls_completed (results s) →
  observed_mean (results s') = observed_mean (results s) →
  observed_std (results s') = observed_std (results s) →
  simulation_complete (results s') = simulation_complete (results s) →
  bins_count (results s')
  = resize (Z.to_nat (n_rows (params s') + 1)) 0 (bins_count (results s)) →
  inv s'.
Proof.
  intros [Hp Hbl Hnn Hle Hrun Hcomp] Hf Hp' Ha Hpos Hbc Hom Hos Hsc Hbins.
  pose proof (vp_rows _ Hp') as Hrows.
  constructor; rewrite ?Ha, ?Hbins, ?Hbc, ?Hsc; try done.
  - unfold len. rewrite length_resize. lia.
  - by apply Forall_resize.
  - pose proof (sum_list_resize_le (Z.to_nat (n_rows (params s') + 1)) _ Hnn). lia.
  - by rewrite Hf.
  - intros Hc. destruct (Hcomp Hc) as [_ [Hm Hs]]. split; [done|].
    unfold stats_fresh. by rewrite Hom, Hos, Hpos.
Qed.

Lemma start_animation_inv s s' :
  valid_params (params s) → start_animation s = Ok s' → inv s'.
Proof.
  intros Hp Hs. unfold start_animation in Hs.
  bind_split Hs as s1 Hs1. apply update_bins_array_size_Ok in Hs1 as [_ ->].
  bind_split Hs as s2 Hs2. apply precalculate_positions_Ok in Hs2 as (g & _ & ->).
  injection Hs as <-.
  match goal with |- inv (start_next_balls (generate_ball_paths ?s0)) =>
    destruct (generate_ball_paths_frame s0) as (paths & calls & -> & Hpaths) end.
  match goal with |- inv (start_next_balls ?s0) =>
    destruct (start_next_balls_spec s0) as (new & -> & _ & Hnew) end.
  destruct Hp as [Hballs Hstep Hrows Hprob Hspeed Hmulti].
  assert (new = [] ∨ 0 < len new) as Hcases.
  { destruct new; [by left|right]. unfold len. cbn [length]. lia. }
  simpl_state.
  destruct Hcases as [->|Hpos]; [clear Hnew|specialize (Hnew Hpos)];
    unfold len in *; cbn [length app] in *.
  all: constructor; unfold outcomes_valid, stats_fresh; simpl_upd;
    rewrite ?length_resize, ?resize_replicate, ?sum_list_replicate;
    [by constructor
    |unfold len; rewrite length_replicate; lia
    |by apply Forall_replicate
    |done
    |
    |done].
  all: intros _; split; [done|]; split; [done|].
  all: constructor; unfold outcomes_valid, stats_fresh; simpl_upd;
    rewrite ?length_resize, ?resize_replicate, ?sum_list_replicate;
    unfold len; cbn [length]; try done; try lia.
  all: intros path v Hpath Hv; specialize (Hpaths path v Hpath Hv);
    rewrite length_replicate; lia.
Qed.

Lemma reset_parameters_inv s s' : reset_parameters s = Ok s' → inv s'.
Proof.
  intros Hs. unfold reset_parameters in Hs.
  bind_split Hs as s1 Hs1. apply update_bins_array_size_Ok in Hs1 as [_ ->].
  apply precalculate_positions_Ok in Hs as (g & _ & ->).
  unfold calculate_theoretical_values.
  constructor; unfold outcomes_valid, stats_fresh; simpl_state;
    rewrite ?length_resize, ?resize_replicate, ?sum_list_replicate.
  - apply valid_params_default.
  - unfold len. by rewrite length_replicate.
  - by apply Forall_replicate.
  - lia.
  - intros [=].
  - intros [=].
Qed.

Lemma init_inv s : init = Ok s → inv s.
Proof.
  unfold init. intros (g & _ & ->)%precalculate_positions_Ok.
  unfold calculate_theoretical_values, initial_attributes.
  constructor; unfold outcomes_valid, stats_fresh; simpl_state;
    rewrite ?length_resize, ?resize_replicate, ?sum_list_replicate.
  - apply valid_params_default.
  - unfold len. by rewrite length_replicate.
  - by apply Forall_replicate.
  - lia.
  - intros [=].
  - intros [=].
Qed.
End InvariantSteps.

Lemma mod_50_mod_5 n : n mod 50 = 0 → n mod 5 = 0.
Proof.
  intros Hn. apply Z.mod_divide in Hn as [k ->]; [|done].
  replace (k * 50) with (k * 10 * 5) by lia. by apply Z.mod_mul.
Qed.

Section InvariantTick.
Context `{NumPy}.

(** A tick keeps the invariant, and tells what holds when it completes the
    run. *)
Lemma update_animation_inv s s' :
  inv s → update_animation s = Ok s' →
  inv s'
  ∧ params s' = params s
  ∧ (simulation_complete (results s) = false →
     simulation_complete (results s') = true →
     ball_falling (anim s) = true
     ∧ balls_in_flight (anim s') = []
     ∧ balls_completed (results s') = n_balls (params s')
     ∧ sum_list (bins_count (results s')) = n_balls (params s')
     ∧ len (positions (results s')) = n_balls (params s')).
Proof.
  intros Hinv Hs.
  destruct (ball_falling (anim s)) eqn:Hf; cycle 1.
  { rewrite update_animation_closed in Hs by auto. injection Hs as <-.
    split; [done|]. split; [done|]. by intros ->. }
  destruct (paused (anim s)) eqn:Hp.
  { rewrite update_animation_closed in Hs by auto. injection Hs as <-.
    split; [done|]. split; [done|]. by intros ->. }
  destruct Hinv as [Hpar Hbl Hnn Hle Hrun Hcomp].
  destruct (Hrun Hf) as (Hst & Hsc & Hrf).
  destruct (update_animation_open s s' Hs Hf Hp Hst Hrf Hnn)
    as (s2 & -> & Hfr & Hrf2 & Hnn2).
  destruct Hfr, Hrf2, Hpar.
  pose proof (mod_50_mod_5 _ vp_balls_step0) as Hmod5.
  destruct (completion_check_spec s2) as [(Hall & Hnil & ->)|(Hnot & ->)].
  - clear Hrun Hcomp Hs Hrf.
    unfold outcomes_valid, stats_fresh, len in *. simpl_state. simplify_eq.
    cbn [length] in *.
    split; [|split; [done|intros _ _; repeat split; try done; lia]].
    constructor; unfold outcomes_valid, stats_fresh, len; simpl_upd; try done.
    + lia.
    + intros _. split; [done|].
      assert (sum_list bins_count0 = n_balls1) as Heq by lia.
      apply rf_stats0; rewrite Heq; [done|lia].
  - clear Hrun Hcomp Hs Hrf.
    unfold outcomes_valid, stats_fresh, len in *. simpl_state. simplify_eq.
    split; [|split; [done|by intros _ [=]]].
    constructor; unfold outcomes_valid, stats_fresh, len; simpl_upd; try done.
    lia.
Qed.
End InvariantTick.

Lemma slider_hit_range name mx my :
  slider_hit name mx my = true →
  slider_x ≤ mx ≤ slider_x + slider_width
  ∧ slider_y name - 15 ≤ my ≤ slider_y name + slider_height + 15.
Proof. unfold slider_hit. rewrite !andb_true_iff, !Z.leb_le. lia. Qed.

Lemma as_int_Ok v z : as_int v = Ok z → v = PInt z.
Proof. destruct v; [by intros [= ->]|done]. Qed.

Section InvariantEvents.
Context `{NumPy}.

(** An accepted slider edit leaves a valid configuration and touches
    nothing of the run. *)
Lemma set_slider_inv name mx s s' :
  inv s → ball_falling (anim s) = false →
  slider_x ≤ mx ≤ slider_x + slider_width →
  set_slider name mx s = Ok s' →
  inv s' ∧ anim s' = anim s.
Proof.
  intros Hinv Hf Hmx Hs. unfold set_slider in Hs.
  bind_split Hs as value Hvalue. bind_split Hs as s1 Hs1. injection Hs as <-.
  unfold calculate_theoretical_values.
  pose proof Hinv as [[Hballs Hstep Hrows Hprob Hspeed Hmulti] Hbl Hnn Hle Hrun Hcomp].
  assert (bins_count (results s)
          = resize (Z.to_nat (n_rows (params s) + 1)) 0 (bins_count (results s)))
    as Hbins by (rewrite resize_all_alt; [done|unfold len in Hbl; lia]).
  destruct name.
  - apply slider_value_balls in Hvalue as (z & -> & Hz & Hzstep).
    injection Hs1 as <-.
    split; [|by destruct s as [? ? [] ? ?]].
    eapply (inv_config_change s); try done; clear Hinv Hrun Hcomp; simpl_state;
      try done; by constructor.
  - apply slider_value_rounded in Hvalue as (lo & hi & z & [= <-] & [= <-] & -> & Hz);
      [|auto].
    cbn [as_int mbind result_bind] in Hs1.
    bind_split Hs1 as s2 Hs2. apply update_bins_array_size_Ok in Hs2 as [_ ->].
    apply precalculate_positions_Ok in Hs1 as (g & _ & ->).
    split; [|by destruct s as [? ? [] ? ?]].
    eapply (inv_config_change s); try done; clear Hinv Hrun Hcomp; simpl_state;
      try done; try (by constructor); by rewrite resize_idemp.
  - destruct (slider_value_prob mx Hmx) as (v & Hv & Hvr).
    rewrite Hv in Hvalue. injection Hvalue as <-. injection Hs1 as <-.
    split; [|by destruct s as [? ? [] ? ?]].
    eapply (inv_config_change s); try done; clear Hinv Hrun Hcomp; simpl_state;
      try done; by constructor.
  - apply slider_value_rounded in Hvalue as (lo & hi & z & [= <-] & [= <-] & -> & Hz);
      [|auto].
    injection Hs1 as <-.
    split; [|by destruct s as [? ? [] ? ?]].
    eapply (inv_config_change s); try done; clear Hinv Hrun Hcomp; simpl_state;
      try done; by constructor.
  - apply slider_value_rounded in Hvalue as (lo & hi & z & [= <-] & [= <-] & -> & Hz);
      [|auto].
    injection Hs1 as <-.
    split; [|by destruct s as [? ? [] ? ?]].
    eapply (inv_config_change s); try done; clear Hinv Hrun Hcomp; simpl_state;
      try done; by constructor.
Qed.

Lemma slider_loop_inv names mx my s s' r :
  inv s → ball_falling (anim s) = false →
  slider_loop names mx my s = Ok (s', r) →
  inv s' ∧ anim s' = anim s.
Proof.
  intros Hinv Hf. induction names as [|name names IH]; cbn [slider_loop].
  - by intros [= <- <-].
  - destruct (slider_hit name mx my) eqn:Hhit; [|done].
    intros Hs. bind_split Hs as s1 Hs1. injection Hs as <- <-.
    apply slider_hit_range in Hhit as [Hmx _].
    by eapply set_slider_inv.
Qed.

Lemma handle_slider_input_inv pos s s' r :
  inv s → handle_slider_input pos s = Ok (s', r) →
  inv s' ∧ anim s' = anim s.
Proof.
  intros Hinv. unfold handle_slider_input.
  destruct (ball_falling (anim s)) eqn:Hf; cbn [andb].
  - destruct (inv_run s Hinv Hf) as (-> & _). cbn [negb]. by intros [= <- <-].
  - by apply slider_loop_inv.
Qed.

Lemma toggle_pause_inv s : inv s → inv (upd_anim (set_paused (negb (paused (anim s)))) s).
Proof.
  intros [Hpar Hbl Hnn Hle Hrun Hcomp].
  constructor; unfold stats_fresh in *; simpl_state; try done.
  intros Hf. destruct (Hrun Hf) as (? & ? & []).
  split; [done|]. split; [done|]. by constructor.
Qed.

Lemma click_inv name s s' : inv s → click name s = Ok s' → inv s'.
Proof.
  intros Hinv. destruct name; cbn [click].
  - destruct (ball_falling (anim s)); cbn [negb]; [by intros [= <-]|].
    apply start_animation_inv, Hinv.
  - destruct (ball_falling (anim s)); intros [= <-]; [|done].
    by apply toggle_pause_inv.
  - apply reset_parameters_inv.
  - intros [= <-]. destruct Hinv as [Hpar Hbl Hnn Hle Hrun Hcomp].
    constructor; unfold stats_fresh in *; simpl_state; try done.
    intros Hc. by destruct (Hcomp Hc) as [_ ?].
Qed.

Lemma handle_button_click_inv pos s s' r :
  inv s → handle_button_click pos s = Ok (s', r) → inv s'.
Proof.
  intros Hinv. unfold handle_button_click. generalize button_names.
  intros names. induction names as [|name names IH]; cbn [button_loop].
  - by intros [= <- <-].
  - destruct (button_hit name _ _); [|done].
    intros Hs. bind_split Hs as s1 Hs1. injection Hs as <- <-.
    by eapply click_inv.
Qed.

Lemma inv_widgets f s : inv s → inv (upd_widgets f s).
Proof.
  intros [Hpar Hbl Hnn Hle Hrun Hcomp].
  constructor; unfold stats_fresh in *; simpl_state; try done.
  intros Hf. destruct (Hrun Hf) as (? & ? & []).
  split; [done|]. split; [done|]. by constructor.
Qed.

Lemma handle_event_inv e s s' : inv s → handle_event e s = Ok s' → inv s'.
Proof.
  intros Hinv. destruct e as [|k|button pos|button|pos|]; cbn [handle_event].
  - intros [= <-]. by apply inv_widgets.
  - destruct k.
    + intros [= <-]. by apply inv_widgets.
    + intros [= <-]. by apply inv_widgets.
    + apply reset_parameters_inv.
    + destruct (ball_falling (anim s)); cbn [negb]; [by intros [= <-]|].
      apply start_animation_inv, Hinv.
    + destruct (ball_falling (anim s)); cbn [negb]; [by intros [= <-]|].
      apply start_animation_inv, Hinv.
    + destruct (ball_falling (anim s)); intros [= <-]; [|done].
      by apply toggle_pause_inv.
    + by intros [= <-].
  - destruct (button =? 1); [|by intros [= <-]].
    intros Hs. bind_split Hs as [s1 r] Hs1. cbn [fst snd] in Hs.
    apply handle_slider_input_inv in Hs1 as [Hinv1 _]; [|done].
    destruct r.
    + injection Hs as <-. by apply inv_widgets.
    + apply fmap_Ok in Hs as ([s2 r2] & Hs2 & <-).
      eapply handle_button_click_inv; [|done]. by apply inv_widgets.
  - destruct (button =? 1); intros [= <-]; [|done]. by apply inv_widgets.
  - destruct (dragging (widgets s)); [|by intros [= <-]].
    intros ([s1 r] & Hs1 & <-)%fmap_Ok.
    by apply handle_slider_input_inv in Hs1 as [Hinv1 _].
  - by intros [= <-].
Qed.

Lemma update_plot_surface_inv s : inv s → inv (update_plot_surface s).
Proof.
  intros Hinv. unfold update_plot_surface.
  destruct (_ || _); [done|]. by apply inv_widgets.
Qed.

Lemma perform_inv a s s' : inv s → perform a s = Ok s' → inv s'.
Proof.
  intros Hinv. destruct a as [e| |]; cbn [perform].
  - by apply handle_event_inv.
  - intros Hs. by apply update_animation_inv in Hs as [? _].
  - intros [= <-]. by apply update_plot_surface_inv.
Qed.

(** Every reachable state satisfies the invariant. *)
Lemma reachable_inv s : reachable s → inv s.
Proof.
  induction 1 as [s Hs|a s s' _ IH Hs]; [by apply init_inv|by eapply perform_inv].
Qed.

(** The main loop only passes through reachable states. *)
Lemma for_each_reachable events s s' :
  reachable s → for_each handle_event events s = Ok s' → reachable s'.
Proof.
  revert s. induction events as [|e events IH]; intros s Hr; cbn [for_each].
  - by intros [= <-].
  - intros Hs. bind_split Hs as s1 Hs1. eapply IH; [|done].
    by apply (reachable_step (Event e) s).
Qed.

Lemma frame_reachable events s s' :
  reachable s → frame events s = Ok s' → reachable s'.
Proof.
  intros Hr Hs. unfold frame in Hs.
  bind_split Hs as s1 Hs1. bind_split Hs as s2 Hs2. injection Hs as <-.
  apply for_each_reachable in Hs1; [|done].
  assert (reachable s2) as Hr2 by by apply (reachable_step Tick s1).
  destruct (plot_needs_update (widgets s2)); [|done].
  by apply (reachable_step Plot s2).
Qed.

Lemma run_reachable frames s s' :
  reachable s → run frames s = Ok s' → reachable s'.
Proof.
  revert s. induction frames as [|events frames IH]; intros s Hr; cbn [run].
  - by intros [= <-].
  - destruct (running (widgets s)); [|by intros [= <-]].
    intros Hs. bind_split Hs as s1 Hs1. eapply IH; [|done].
    by eapply frame_reachable.
Qed.
End InvariantEvents.

(** ** The concrete run is a run of the program *)

Lemma demo_init_Ok : init = Ok demo_init.
Proof. vm_compute. reflexivity. Qed.

Lemma demo_started_Ok : @run demo_numpy [demo_setup] demo_init = Ok demo_started.
Proof. vm_compute. reflexivity. Qed.

Lemma demo_last_tick_Ok :
  @run demo_numpy (replicate 89 []) demo_started = Ok demo_last_tick.
Proof. vm_compute. reflexivity. Qed.

Lemma demo_complete_Ok : @update_animation demo_numpy demo_last_tick = Ok demo_complete.
Proof. vm_compute. reflexivity. Qed.

Lemma demo_slow_Ok : @run demo_numpy [demo_slow_setup] demo_init = Ok demo_slow.
Proof. vm_compute. reflexivity. Qed.

Lemma demo_resized_Ok :
  handle_slider_input (101, 190) demo_complete = Ok (demo_resized, Some Rows).
Proof. vm_compute. reflexivity. Qed.

Lemma demo_slow_next_Ok : @update_animation demo_numpy demo_slow = Ok demo_slow_next.
Proof. vm_compute. reflexivity. Qed.

Lemma demo_init_reachable : @reachable demo_numpy demo_init.
Proof. apply reachable_init, demo_init_Ok. Qed.

Lemma demo_started_reachable : @reachable demo_numpy demo_started.
Proof. eapply run_reachable; [apply demo_init_reachable|apply demo_started_Ok]. Qed.

Lemma demo_last_tick_reachable : @reachable demo_numpy demo_last_tick.
Proof. eapply run_reachable; [apply demo_started_reachable|apply demo_last_tick_Ok]. Qed.

Lemma demo_complete_reachable : @reachable demo_numpy demo_complete.
Proof.
  apply (reachable_step Tick demo_last_tick);
    [apply demo_last_tick_reachable|apply demo_complete_Ok].
Qed.

Lemma demo_slow_reachable : @reachable demo_numpy demo_slow.
Proof. eapply run_reachable; [apply demo_init_reachable|apply demo_slow_Ok]. Qed.

(** ** Hit testing and totality of the handlers *)

(** The sliders are stacked without overlap: a point hits at most one. *)
Lemma slider_hit_unique name name' mx my :
  slider_hit name mx my = true → name' ≠ name → slider_hit name' mx my = false.
Proof.
  intros [_ Hy]%slider_hit_range Hne. unfold slider_hit.
  apply andb_false_iff.
  destruct (Z.leb_spec (slider_y name' - 15) my) as [Hlo|Hlo];
    [|left; apply andb_false_iff; by right].
  right. apply Z.leb_gt.
  destruct name, name'; try done;
    unfold slider_y, slider_start_y, slider_spacing, slider_height, header_height in *; lia.
Qed.

(** A point on the Stop button is on no other button and on no slider. *)
Lemma stop_hit_only mx my :
  button_hit Stop mx my = true →
  button_hit Run mx my = false ∧ button_hit Pause mx my = false
  ∧ button_hit Reset mx my = false ∧ ∀ name, slider_hit name mx my = false.
Proof.
  unfold button_hit, button_pos, button_y, button_width, button_height,
    slider_start_y, slider_spacing, header_height.
  rewrite !andb_true_iff, !Z.leb_le. intros Hstop.
  repeat split; try intros name; rewrite ?andb_false_iff, ?Z.leb_gt.
  - lia.
  - lia.
  - lia.
  - unfold slider_hit. rewrite !andb_false_iff, !Z.leb_gt.
    destruct name;
      unfold slider_y, slider_start_y, slider_spacing, slider_height, header_height; lia.
Qed.

Lemma slider_loop_hit name mx my s :
  slider_hit name mx my = true →
  slider_loop slider_names mx my s = (s' ← set_slider name mx s; Ok (s', Some name)).
Proof.
  intros Hhit. unfold slider_names.
  destruct name; cbn [slider_loop];
    rewrite ?(slider_hit_unique _ _ _ _ Hhit) by done; by rewrite Hhit.
Qed.

Lemma update_bins_array_size_total s :
  0 ≤ n_rows (params s) + 1 → ∃ s', update_bins_array_size s = Ok s'.
Proof.
  intros Hn. unfold update_bins_array_size, np_zeros. case_decide; [|eauto].
  destruct (Z.ltb_spec (n_rows (params s) + 1) 0); [lia|]. cbn. eauto.
Qed.

Lemma precalculate_positions_total s :
  5 ≤ n_rows (params s) ≤ 18 → ∃ s', precalculate_positions s = Ok s'.
Proof.
  intros Hn. unfold precalculate_positions.
  destruct (update_bins_array_size_total s) as [s1 Hs1]; [lia|].
  rewrite Hs1. cbn [mbind result_bind].
  apply update_bins_array_size_Ok in Hs1 as [_ ->].
  destruct (compute_geometry_total (n_rows (params s)) Hn) as [g Hg].
  assert (n_rows (params (upd_results
            (set_bins_count
               (resize (Z.to_nat (n_rows (params s) + 1)) 0 (bins_count (results s)))) s))
          = n_rows (params s)) as -> by by destruct s.
  rewrite Hg. cbn. eauto.
Qed.

(** On the slider, an edit always goes through, and assigns the value
    computed for the pixel to the attribute of the slider. *)
Lemma set_slider_total name mx s :
  slider_x ≤ mx ≤ slider_x + slider_width →
  ∃ v s', slider_value name mx = Ok v ∧ set_slider name mx s = Ok s'
          ∧ param_of name (params s') = v.
Proof.
  intros Hmx. unfold set_slider.
  destruct (decide (name = Prob)) as [->|Hname].
  { destruct (slider_value_prob mx Hmx) as (v & Hv & _). rewrite Hv.
    cbn [mbind result_bind]. eexists _, _. split; [done|]. split; [done|].
    unfold calculate_theoretical_values. by destruct s as [[] ? [] ? []]. }
  destruct (slider_value_int_total name mx Hname Hmx) as (z & Hz).
  apply bind_Ok in Hz as (v & Hv & ->%as_int_Ok). rewrite Hv.
  cbn [mbind result_bind as_int].
  destruct name; try done.
  - eexists _, _. split; [done|]. split; [done|].
    unfold calculate_theoretical_values. by destruct s as [[] ? [] ? []].
  - apply slider_value_rounded in Hv as (lo & hi & z' & [= <-] & [= <-] & [= <-] & Hz);
      [|auto].
    set (s1 := upd_params _ _).
    assert (n_rows (params s1) = z) as Hrows by by destruct s as [[] ? ? ? []].
    destruct (update_bins_array_size_total s1) as [s2 Hs2]; [lia|].
    rewrite Hs2. cbn [mbind result_bind].
    assert (n_rows (params s2) = z) as Hrows2.
    { apply update_bins_array_size_Ok in Hs2 as [_ ->]. by destruct s as [[] ? [] ? []]. }
    destruct (precalculate_positions_total s2) as [s3 Hs3]; [lia|].
    rewrite Hs3. eexists _, _. split; [done|]. split; [done|].
    apply precalculate_positions_Ok in Hs3 as (g & _ & ->).
    rewrite <- Hrows2. unfold calculate_theoretical_values.
    by destruct s2 as [[] ? [] ? []].
  - eexists _, _. split; [done|]. split; [done|].
    unfold calculate_theoretical_values. by destruct s as [[] ? [] ? []].
  - eexists _, _. split; [done|]. split; [done|].
    unfold calculate_theoretical_values. by destruct s as [[] ? [] ? []].
Qed.

Lemma slider_loop_total names mx my s :
  ∃ s' r, slider_loop names mx my s = Ok (s', r).
Proof.
  induction names as [|name names IH]; cbn [slider_loop]; [eauto|].
  destruct (slider_hit name mx my) eqn:Hhit; [|done].
  apply slider_hit_range in Hhit as [Hmx _].
  destruct (set_slider_total name mx s Hmx) as (v & s' & _ & -> & _).
  cbn. eauto.
Qed.

Lemma handle_slider_input_total pos s :
  ∃ s' r, handle_slider_input pos s = Ok (s', r).
Proof.
  unfold handle_slider_input. destruct (_ && _); [eauto|apply slider_loop_total].
Qed.

(** ** The advance rule, ball by ball and over the loop *)

Lemma effective_speed_eq s : effective_speed s = Z.min (2 * ball_speed (params s)) 30.
Proof. unfold effective_speed. by rewrite Z.mul_comm. Qed.

Section AdvanceRule.
Context `{NumPy}.

(** One iteration of the loop follows [advance_rule] with the strict test. *)
Lemma advance_ball_rule i b s rm s' rm' :
  advance_ball i b s rm = Ok (s', rm') →
  (i < length (balls_in_flight (anim s)))%nat →
  ∃ o,
    advance_rule py_lt (PInt (Z.min (2 * ball_speed (params s)) 30))
      (clamp_position (bx b) (by_ b)).1 (clamp_position (bx b) (by_ b)).2
      (clamp_position (target_x b) (target_y b)).1
      (clamp_position (target_x b) (target_y b)).2 = Ok o
    ∧ match o with
      | Moved nx ny =>
          rm' = rm ∧ results s' = results s
          ∧ balls_in_flight (anim s') !! i
            = Some {| ball_index := ball_index b; current_row := current_row b;
                      bx := (clamp_position nx ny).1; by_ := (clamp_position nx ny).2;
                      target_x := (clamp_position (target_x b) (target_y b)).1;
                      target_y := (clamp_position (target_x b) (target_y b)).2 |}
      | Arrived ax ay =>
          (current_row b < n_rows (params s) →
           rm' = rm ∧ results s' = results s
           ∧ ∃ b', balls_in_flight (anim s') !! i = Some b'
                   ∧ ball_index b' = ball_index b
                   ∧ current_row b' = current_row b + 1
                   ∧ (bx b', by_ b') = clamp_position ax ay)
          ∧ (n_rows (params s) ≤ current_row b →
             rm' = rm ++ [i]
             ∧ balls_in_flight (anim s') = balls_in_flight (anim s))
      end.
Proof.
  intros Hs Hi. unfold advance_ball in Hs. unfold advance_rule.
  rewrite <- effective_speed_eq.
  destruct (clamp_position (bx b) (by_ b)) as [x y].
  destruct (clamp_position (target_x b) (target_y b)) as [tx ty]. cbn [fst snd].
  destruct (py_lt _ _).
  - eexists. split; [done|].
    destruct (clamp_position tx ty) as [x' y'] eqn:Hclamp.
    destruct (Z.ltb_spec (current_row b) (n_rows (params s))) as [Hrow|Hrow].
    + split; [intros _|lia].
      bind_split Hs as path Hpath. bind_split Hs as target Htarget.
      destruct (clamp_position (PInt target.1) (PInt target.2)) as [tx' ty'].
      injection Hs as <- <-.
      split; [done|]. split; [by destruct s as [? [] ? ? ?]|].
      eexists. split.
      { assert (∀ l : list ball,
          balls_in_flight (anim (upd_anim (set_balls_in_flight l) s)) = l) as ->
          by (by destruct s as [? [] ? ? ?]).
        by apply list_lookup_insert_eq. }
      done.
    + split; [lia|intros _].
      bind_split Hs as path Hpath. bind_split Hs as final Hfinal. injection Hs as <- <-.
      split; [done|]. by destruct (record_outcome_anim final s) as [-> _].
  - bind_split Hs as new Hnew.
    destruct (clamp_position new.1 new.2) as [nx ny] eqn:Hclamp. injection Hs as <- <-.
    assert (∀ l : list ball,
      balls_in_flight (anim (upd_anim (set_balls_in_flight l) s)) = l) as Hset
      by (by destruct s as [? [] ? ? ?]).
    destruct (py_gt _ _).
    + bind_split Hnew as distance Hdistance. bind_split Hnew as step_x Hx.
      bind_split Hnew as step_y Hy. injection Hnew as <-.
      rewrite Hdistance. cbn [mbind result_bind]. rewrite Hx. cbn [mbind result_bind].
      rewrite Hy. cbn [mbind result_bind]. eexists. split; [done|]. cbn [fst snd] in *.
      split; [done|]. split; [by destruct s as [? [] ? ? ?]|].
      rewrite Hset, Hclamp. by apply list_lookup_insert_eq.
    + injection Hnew as <-. eexists. split; [done|]. cbn [fst snd] in *.
      split; [done|]. split; [by destruct s as [? [] ? ? ?]|].
      rewrite Hset, Hclamp. by apply list_lookup_insert_eq.
Qed.

(** What an iteration leaves alone: the configuration, the geometry, the
    paths, and every other entry of the list. *)
Lemma advance_ball_env i b s rm s' rm' :
  advance_ball i b s rm = Ok (s', rm') →
  params s' = params s ∧ geometry s' = geometry s
  ∧ ball_paths (anim s') = ball_paths (anim s)
  ∧ (∀ k, k ≠ i → balls_in_flight (anim s') !! k = balls_in_flight (anim s) !! k)
  ∧ (rm' = rm ∨ rm' = rm ++ [i]).
Proof.
  intros [(-> & b' & ->)|(-> & path & v & _ & _ & ->)]%advance_ball_Ok.
  - destruct s as [? [] ? ? ?]. cbn. repeat split; auto.
    intros k Hk. by apply list_lookup_insert_ne.
  - destruct (record_outcome_anim v s) as (-> & -> & ->). repeat split; auto.
Qed.

(** The iterations from index [j] on leave the entries below [j] alone and
    only schedule indices from [j] on. *)
Lemma advance_balls_later todo j s rm s' rm' :
  advance_balls todo j s rm = Ok (s', rm') →
  params s' = params s
  ∧ (∀ k, (k < j)%nat → balls_in_flight (anim s') !! k = balls_in_flight (anim s) !! k)
  ∧ ∃ extra, rm' = rm ++ extra ∧ Forall (λ k, (j ≤ k)%nat) extra.
Proof.
  revert j s rm. induction todo as [|todo IH]; intros j s rm Hs; cbn [advance_balls] in Hs.
  { injection Hs as <- <-. repeat split; auto. exists []. by rewrite app_nil_r. }
  destruct (balls_in_flight (anim s) !! j) as [b|]; cycle 1.
  { injection Hs as <- <-. repeat split; auto. exists []. by rewrite app_nil_r. }
  bind_split Hs as [s1 rm1] Hb. cbn [fst snd] in Hs.
  apply advance_ball_env in Hb as (Hp & _ & _ & Hother & Hrm).
  apply IH in Hs as (Hp' & Hbelow & extra & -> & Hextra).
  split; [congruence|]. split.
  - intros k Hk. rewrite Hbelow by lia. apply Hother. lia.
  - destruct Hrm as [->| ->].
    + exists extra. split; [done|]. eapply Forall_impl; [done|]. intros; cbn in *; lia.
    + exists (j :: extra). rewrite <- app_assoc. split; [done|].
      constructor; [done|]. eapply Forall_impl; [done|]. intros; cbn in *; lia.
Qed.

(** Every ball in the list at the entry of the loop is advanced once, by
    [advance_ball], in a state with the same configuration; what that
    iteration leaves at its index is there at the exit, and its index is
    scheduled for removal exactly when that iteration scheduled it. *)
Lemma advance_balls_each todo j s rm s' rm' i b :
  advance_balls todo j s rm = Ok (s', rm') →
  balls_in_flight (anim s) !! i = Some b →
  (j ≤ i < j + todo)%nat →
  Forall (λ k, (k < j)%nat) rm →
  ∃ si rmi si' rmi',
    advance_ball i b si rmi = Ok (si', rmi')
    ∧ (i < length (balls_in_flight (anim si)))%nat
    ∧ params si = params s
    ∧ balls_in_flight (anim s') !! i = balls_in_flight (anim si') !! i
    ∧ (rmi' = rmi → i ∉ rm')
    ∧ (rmi' = rmi ++ [i] → i ∈ rm').
Proof.
  revert j s rm. induction todo as [|todo IH]; intros j s rm Hs Hb Hi Hrm; [lia|].
  cbn [advance_balls] in Hs.
  destruct (balls_in_flight (anim s) !! j) as [bj|] eqn:Hj; cycle 1.
  { apply lookup_ge_None in Hj. apply lookup_lt_Some in Hb. lia. }
  bind_split Hs as [s1 rm1] Hbj. cbn [fst snd] in Hs.
  destruct (decide (i = j)) as [->|Hne].
  - assert (bj = b) as -> by congruence.
    apply advance_balls_later in Hs as (_ & Hbelow & extra & -> & Hextra).
    exists s, rm, s1, rm1. split; [done|].
    split; [by eapply lookup_lt_Some|]. split; [done|].
    split; [apply Hbelow; lia|].
    split.
    + intros -> [Hin|Hin]%elem_of_app.
      * rewrite Forall_forall in Hrm. specialize (Hrm _ Hin). cbn in Hrm. lia.
      * rewrite Forall_forall in Hextra. specialize (Hextra _ Hin). cbn in Hextra. lia.
    + intros ->. rewrite !elem_of_app, list_elem_of_singleton. auto.
  - pose proof (advance_ball_env _ _ _ _ _ _ Hbj) as (Hp & _ & _ & Hother & Hrm1).
    destruct (IH (S j) s1 rm1 Hs) as (si & rmi & si' & rmi' & Hbi & Hlen & Hpi & Hrest);
      [by rewrite Hother|lia| |].
    { destruct Hrm1 as [->| ->]; [|apply Forall_app; split; [|by repeat constructor]];
        (eapply Forall_impl; [done|]); intros; cbn in *; lia. }
    exists si, rmi, si', rmi'. split; [done|]. split; [done|]. split; [congruence|]. done.
Qed.
End AdvanceRule.

(** * The claims *)

Section Claims.
Context `{NumPy}.

(** C2. Histogram accounting. In every reachable state with a run in
    progress the bin counts sum to [balls_completed]; in every reachable
    state they sum to at most [balls_completed]; and when a tick takes the
    run to the Complete state, they sum to [n_balls] exactly (every ball
    was dropped, none is in flight, every outcome was a valid bin). *)
Theorem histogram_accounting s :
  reachable s →
  (ball_falling (anim s) = true →
   sum_list (bins_count (results s)) = balls_completed (results s))
  ∧ sum_list (bins_count (results s)) ≤ balls_completed (results s)
  ∧ ∀ s', update_animation s = Ok s' →
          simulation_complete (results s) = false →
          simulation_complete (results s') = true →
          balls_in_flight (anim s') = []
          ∧ balls_completed (results s') = n_balls (params s')
          ∧ sum_list (bins_count (results s')) = n_balls (params s').
Proof.
  intros Hinv%reachable_inv. split; [|split].
  - intros Hf. destruct (inv_run s Hinv Hf) as (_ & _ & Hrf). apply Hrf.
  - apply Hinv.
  - intros s' Hs Hc Hc'.
    destruct (update_animation_inv s s' Hinv Hs) as (_ & _ & Hdone).
    destruct (Hdone Hc Hc') as (_ & ? & ? & ? & _). done.
Qed.

(** C3. Concurrency cap. The cap is at least 1 in every reachable state;
    while a run is in progress the number of balls in flight never exceeds
    it, between ticks and inside a tick after the admission; and
    [start_next_balls], on any state, only appends balls, one per ball
    dropped, stops with the condition of its loop false, and appends a ball
    only if the balls in flight stay within the cap and the balls dropped
    within [n_balls]. *)
Theorem concurrency_cap s :
  reachable s →
  1 ≤ max_simultaneous_balls (params s)
  ∧ (ball_falling (anim s) = true →
     len (balls_in_flight (anim s)) ≤ max_simultaneous_balls (params s)
     ∧ len (balls_in_flight (anim (admission_phase s)))
       ≤ max_simultaneous_balls (params s))
  ∧ ∃ new,
      balls_in_flight (anim (start_next_balls s)) = balls_in_flight (anim s) ++ new
      ∧ balls_dropped (anim (start_next_balls s)) = balls_dropped (anim s) + len new
      ∧ may_admit (start_next_balls s) = false
      ∧ (new ≠ [] →
         len (balls_in_flight (anim s)) < max_simultaneous_balls (params s)
         ∧ balls_dropped (anim s) < n_balls (params s)
         ∧ len (balls_in_flight (anim s)) + len new ≤ max_simultaneous_balls (params s)
         ∧ balls_dropped (anim s) + len new ≤ n_balls (params s)).
Proof.
  intros Hinv%reachable_inv. split; [|split].
  - pose proof (vp_multi _ (inv_params s Hinv)). lia.
  - intros Hf. destruct (inv_run s Hinv Hf) as (_ & _ & Hrf).
    split; [apply Hrf|].
    destruct (admission_phase_facts s Hrf) as (Hfr & Hrf1 & _).
    pose proof (rf_cap _ _ Hrf1) as Hcap. by rewrite (lfd_params _ _ Hfr) in Hcap.
  - pose proof (start_next_balls_exits s) as Hexit.
    destruct (start_next_balls_spec s) as (new & Hs & Hne & Hcap).
    exists new. rewrite Hs in *. clear Hs.
    split; [by destruct s as [? [] ? ? ?]|]. split; [by destruct s as [? [] ? ? ?]|].
    split; [done|]. intros Hnew.
    assert (0 < len new) as Hpos.
    { destruct new; [done|]. unfold len. cbn [length]. lia. }
    specialize (Hne Hnew). specialize (Hcap Hpos).
    unfold may_admit in Hne. apply andb_true_iff in Hne as [?%Z.ltb_lt ?%Z.ltb_lt].
    lia.
Qed.

(** C8. Final statistics. In every reachable state that is Complete, the
    observed mean and standard deviation are those of the whole outcome
    list; and when a tick takes the run to the Complete state, that list
    holds one outcome per ball. The refresh every fifth outcome does not
    skew them: every ball count a slider gives is a multiple of 50. *)
Theorem final_statistics s :
  reachable s →
  (simulation_complete (results s) = true →
   observed_mean (results s) = PFloat (np_mean (positions (results s)))
   ∧ observed_std (results s) = PFloat (np_std (positions (results s))))
  ∧ ∀ s', update_animation s = Ok s' →
          simulation_complete (results s) = false →
          simulation_complete (results s') = true →
          len (positions (results s')) = n_balls (params s')
          ∧ observed_mean (results s') = PFloat (np_mean (positions (results s')))
          ∧ observed_std (results s') = PFloat (np_std (positions (results s'))).
Proof.
  intros Hinv%reachable_inv. split.
  - intros Hc. by destruct (inv_complete s Hinv Hc) as [_ ?].
  - intros s' Hs Hc Hc'.
    destruct (update_animation_inv s s' Hinv Hs) as (Hinv' & _ & Hdone).
    destruct (Hdone Hc Hc') as (_ & _ & _ & _ & Hlen).
    destruct (inv_complete s' Hinv' Hc') as [_ [? ?]]. done.
Qed.

(** C5. Stop cancellation. A click on the Stop button, in any state, only
    sets the flags: the balls in flight stay where they are (abandoned, not
    force-completed), the histogram, the outcome list, the completed count
    and the statistics are untouched; and from then on any number of ticks
    leaves the whole state unchanged, so no ball completes and no outcome of
    an abandoned ball is ever recorded. *)
Theorem stop_cancels s pos :
  button_hit Stop pos.1 pos.2 = true →
  ∃ s1, handle_event (MOUSEBUTTONDOWN 1 pos) s = Ok s1
        ∧ ball_falling (anim s1) = false ∧ stopped (anim s1) = true
        ∧ balls_in_flight (anim s1) = balls_in_flight (anim s)
        ∧ balls_dropped (anim s1) = balls_dropped (anim s)
        ∧ results s1 = results s
        ∧ ∀ n, ticks n s1 = Ok s1.
Proof.
  destruct pos as [mx my]. cbn [fst snd]. intros Hstop.
  destruct (stop_hit_only mx my Hstop) as (Hrun & Hpause & Hreset & Hsliders).
  assert (handle_slider_input (mx, my) s = Ok (s, None)) as Hslider.
  { unfold handle_slider_input. destruct (_ && _); [done|].
    unfold slider_names. cbn [slider_loop fst snd]. by rewrite !Hsliders. }
  exists (upd_anim (set_stopped true)
            (upd_anim (set_ball_falling false) (upd_widgets (set_dragging None) s))).
  split.
  { cbn [handle_event]. change (1 =? 1) with true. cbn match. rewrite Hslider.
    cbn [mbind result_bind fst snd]. unfold handle_button_click, button_names.
    cbn [button_loop fst snd]. by rewrite Hrun, Hpause, Hreset, Hstop. }
  split; [by destruct s as [? [] ? ? ?]|]. split; [by destruct s as [? [] ? ? ?]|].
  split; [by destruct s as [? [] ? ? ?]|]. split; [by destruct s as [? [] ? ? ?]|].
  split; [by destruct s as [? [] ? ? ?]|].
  intros n. apply ticks_closed. left. by destruct s as [? [] ? ? ?].
Qed.

(** C6. Pause frame. While paused, any number of ticks leaves the whole
    state unchanged, in particular every [(current_row, x, y, target)] in
    flight, the histogram, the outcome list, the completed count and
    [balls_dropped]. Pausing a run, ticking any number of times and resuming
    gives back exactly the state at the pause: the first tick after the
    resume starts from the frozen positions. *)
Theorem pause_freezes s n :
  (paused (anim s) = true → ticks n s = Ok s)
  ∧ (ball_falling (anim s) = true → paused (anim s) = false →
     ∃ sp, handle_event (KEYDOWN K_p) s = Ok sp
           ∧ paused (anim sp) = true
           ∧ balls_in_flight (anim sp) = balls_in_flight (anim s)
           ∧ results sp = results s
           ∧ ticks n sp = Ok sp
           ∧ handle_event (KEYDOWN K_p) sp = Ok s).
Proof.
  split.
  - intros Hp. apply ticks_closed. auto.
  - intros Hf Hp. exists (upd_anim (set_paused true) s).
    assert (paused (anim (upd_anim (set_paused true) s)) = true) as Hp'
      by by destruct s as [? [] ? ? ?].
    assert (ball_falling (anim (upd_anim (set_paused true) s)) = true) as Hf'
      by (by destruct s as [? [] ? ? ?]; cbn in *).
    split; [cbn [handle_event]; by rewrite Hf, Hp|].
    split; [done|]. split; [by destruct s as [? [] ? ? ?]|].
    split; [by destruct s as [? [] ? ? ?]|].
    split; [apply ticks_closed; auto|].
    cbn [handle_event]. rewrite Hf', Hp'. f_equal.
    destruct s as [? [] ? ? ?]. cbn in Hp. by subst.
Qed.

(** C7. Configuration edits are gated. With [ball_falling] true and the run
    not stopped the slider handler returns [None] and changes nothing; every
    reachable state with [ball_falling] true (Running or Paused) is such a
    state; and with no run active a click on a slider is accepted: the
    handler returns the slider's name, having assigned the value computed
    for the pixel to the slider's attribute. *)
Theorem slider_edits_gated s pos :
  (ball_falling (anim s) = true → stopped (anim s) = false →
   handle_slider_input pos s = Ok (s, None))
  ∧ (reachable s → ball_falling (anim s) = true →
     handle_slider_input pos s = Ok (s, None))
  ∧ (ball_falling (anim s) = false →
     ∀ name, slider_hit name pos.1 pos.2 = true →
       ∃ v s', slider_value name pos.1 = Ok v
               ∧ handle_slider_input pos s = Ok (s', Some name)
               ∧ param_of name (params s') = v).
Proof.
  assert (ball_falling (anim s) = true → stopped (anim s) = false →
          handle_slider_input pos s = Ok (s, None)) as Hgate.
  { intros Hf Hst. unfold handle_slider_input. by rewrite Hf, Hst. }
  split; [done|]. split.
  - intros Hinv%reachable_inv Hf. apply Hgate; [done|].
    by destruct (inv_run s Hinv Hf) as [? _].
  - intros Hf name Hhit. unfold handle_slider_input. rewrite Hf. cbn [andb].
    rewrite (slider_loop_hit name _ _ _ Hhit).
    apply slider_hit_range in Hhit as [Hmx _].
    destruct (set_slider_total name pos.1 s Hmx) as (v & s' & Hv & Hs & Hparam).
    exists v, s'. rewrite Hs. done.
Qed.

(** C10. Resizing the histogram keeps the counts. [update_bins_array_size]
    leaves [n_rows + 1] bins, the old counts in the common prefix and zeros
    after it; a slider edit in a reachable state with no run active leaves
    the bins it had, resized to the new [n_rows + 1], so that bins
    [0 .. min(old n_rows, new n_rows)] keep their counts; [start_animation]
    and [reset_parameters] zero every bin. *)
Theorem bins_resize_keeps_counts s :
  (∀ s', update_bins_array_size s = Ok s' →
     len (bins_count (results s')) = n_rows (params s) + 1
     ∧ (∀ i : nat, Z.of_nat i < len (bins_count (results s)) →
          Z.of_nat i < n_rows (params s) + 1 →
          bins_count (results s') !! i = bins_count (results s) !! i)
     ∧ (∀ i : nat, len (bins_count (results s)) ≤ Z.of_nat i →
          Z.of_nat i < n_rows (params s) + 1 →
          bins_count (results s') !! i = Some 0))
  ∧ (reachable s → ball_falling (anim s) = false →
     ∀ pos s' r, handle_slider_input pos s = Ok (s', r) →
       len (bins_count (results s')) = n_rows (params s') + 1
       ∧ ∀ i : nat, Z.of_nat i ≤ Z.min (n_rows (params s)) (n_rows (params s')) →
           bins_count (results s') !! i = bins_count (results s) !! i)
  ∧ (∀ s', start_animation s = Ok s' → Forall (λ c, c = 0) (bins_count (results s')))
  ∧ (∀ s', reset_parameters s = Ok s' → Forall (λ c, c = 0) (bins_count (results s'))).
Proof.
  split; [|split; [|split]].
  - intros s' [Hn ->]%update_bins_array_size_Ok.
    assert (bins_count (results (upd_results (set_bins_count
              (resize (Z.to_nat (n_rows (params s) + 1)) 0 (bins_count (results s)))) s))
            = resize (Z.to_nat (n_rows (params s) + 1)) 0 (bins_count (results s)))
      as -> by by destruct s as [? ? [] ? ?].
    unfold len. rewrite length_resize. split; [lia|]. split.
    + intros i Hi Hi'. apply lookup_resize; lia.
    + intros i Hi Hi'. apply lookup_resize_new; lia.
  - intros Hr Hf pos s' r Hs. pose proof (reachable_inv s Hr) as Hinv.
    pose proof (inv_bins_len s Hinv) as Hlen.
    assert (bins_count (results s')
            = resize (Z.to_nat (n_rows (params s') + 1)) 0 (bins_count (results s)))
      as Hbins.
    { unfold handle_slider_input in Hs. rewrite Hf in Hs. cbn [andb] in Hs.
      revert Hs. generalize slider_names. intros names.
      induction names as [|name names IH]; cbn [slider_loop fst snd].
      - intros [= <- <-]. rewrite resize_all_alt; [done|unfold len in Hlen; lia].
      - destruct (slider_hit name pos.1 pos.2); [|done].
        intros Hs. bind_split Hs as s1 Hs1. injection Hs as <- <-.
        clear IH Hr Hinv. unfold set_slider in Hs1.
        bind_split Hs1 as v Hv. bind_split Hs1 as s2 Hs2. injection Hs1 as <-.
        unfold calculate_theoretical_values.
        destruct name.
        + bind_split Hs2 as z Hz. injection Hs2 as <-.
          destruct s as [[] ? [] ? []]. cbn in *.
          rewrite resize_all_alt; [done|unfold len in Hlen; lia].
        + bind_split Hs2 as z Hz. bind_split Hs2 as s3 Hs3.
          apply update_bins_array_size_Ok in Hs3 as [_ ->].
          apply precalculate_positions_Ok in Hs2 as (g & _ & ->).
          destruct s as [[] ? [] ? []]. cbn. by rewrite resize_idemp.
        + injection Hs2 as <-.
          destruct s as [[] ? [] ? []]. cbn in *.
          rewrite resize_all_alt; [done|unfold len in Hlen; lia].
        + bind_split Hs2 as z Hz. injection Hs2 as <-.
          destruct s as [[] ? [] ? []]. cbn in *.
          rewrite resize_all_alt; [done|unfold len in Hlen; lia].
        + bind_split Hs2 as z Hz. injection Hs2 as <-.
          destruct s as [[] ? [] ? []]. cbn in *.
          rewrite resize_all_alt; [done|unfold len in Hlen; lia]. }
    apply handle_slider_input_inv in Hs as [Hinv' _]; [|done].
    split; [apply Hinv'|].
    intros i Hi. rewrite Hbins. apply lookup_resize; unfold len in Hlen; lia.
  - intros s' Hs. unfold start_animation in Hs.
    bind_split Hs as s1 Hs1. apply update_bins_array_size_Ok in Hs1 as [_ ->].
    bind_split Hs as s2 Hs2. apply precalculate_positions_Ok in Hs2 as (g & _ & ->).
    injection Hs as <-.
    match goal with |- context [start_next_balls (generate_ball_paths ?s0)] =>
      destruct (generate_ball_paths_frame s0) as (paths & calls & -> & _) end.
    match goal with |- context [start_next_balls ?s0] =>
      destruct (start_next_balls_spec s0) as (new & -> & _) end.
    destruct s as [[] [] [] ? []]. cbn.
    rewrite length_resize, resize_replicate.
    apply Forall_forall. by intros c [-> _]%elem_of_replicate.
  - intros s' Hs. unfold reset_parameters in Hs.
    bind_split Hs as s1 Hs1. apply update_bins_array_size_Ok in Hs1 as [_ ->].
    apply precalculate_positions_Ok in Hs as (g & _ & ->).
    unfold calculate_theoretical_values.
    destruct s as [[] [] [] ? []]. cbn.
    rewrite length_resize, resize_replicate.
    apply Forall_forall. by intros c [-> _]%elem_of_replicate.
Qed.

(** C4, as the code has it. On a tick in the Running state the ticked state
    is what the removals and the completion check make of the result of the
    [for] loop, and the loop advances every ball in flight after the
    admission by [advance_rule] with the step [min(2 * ball_speed, 30)] and
    the STRICT arrival test [distance_sq < step * step], on the clamped
    position and target: a ball that has not arrived keeps its row and its
    target and moves by the step along the normalised direction (not at all
    at distance zero), clamped; a ball that has arrived is snapped to the
    target and takes the next row, or is scheduled for removal after its
    final arrival. *)
Theorem per_tick_advance s s' :
  ball_falling (anim s) = true → paused (anim s) = false → stopped (anim s) = false →
  update_animation s = Ok s' →
  ∃ r,
    advance_balls (length (balls_in_flight (anim (admission_phase s)))) 0
      (admission_phase s) [] = Ok r
    ∧ (s2 ← remove_balls r.2 r.1; Ok (completion_check s2)) = Ok s'
    ∧ ∀ (i : nat) b, balls_in_flight (anim (admission_phase s)) !! i = Some b →
        ∃ o,
          advance_rule py_lt (PInt (Z.min (2 * ball_speed (params s)) 30))
            (clamp_position (bx b) (by_ b)).1 (clamp_position (bx b) (by_ b)).2
            (clamp_position (target_x b) (target_y b)).1
            (clamp_position (target_x b) (target_y b)).2 = Ok o
          ∧ match o with
            | Moved nx ny =>
                (i ∉ r.2)
                ∧ balls_in_flight (anim r.1) !! i
                  = Some {| ball_index := ball_index b; current_row := current_row b;
                            bx := (clamp_position nx ny).1;
                            by_ := (clamp_position nx ny).2;
                            target_x := (clamp_position (target_x b) (target_y b)).1;
                            target_y := (clamp_position (target_x b) (target_y b)).2 |}
            | Arrived ax ay =>
                (current_row b < n_rows (params s) →
                 (i ∉ r.2)
                 ∧ ∃ b', balls_in_flight (anim r.1) !! i = Some b'
                         ∧ ball_index b' = ball_index b
                         ∧ current_row b' = current_row b + 1
                         ∧ (bx b', by_ b') = clamp_position ax ay)
                ∧ (n_rows (params s) ≤ current_row b → i ∈ r.2)
            end.
Proof.
  intros Hf Hp Hst Hs. unfold update_animation in Hs.
  rewrite Hf, Hp, Hst in Hs. cbn [negb orb] in Hs.
  assert (params (admission_phase s) = params s) as Hparams.
  { destruct (admission_phase_spec s) as (new & d & -> & _). by destruct s as [? [] ? ? ?]. }
  revert Hs Hparams. generalize (admission_phase s). intros s1 Hs Hparams.
  bind_split Hs as r Hloop. exists r. split; [done|]. split; [done|].
  intros i b Hb. destruct r as [s2 rm]. cbn [fst snd].
  destruct (advance_balls_each _ 0 s1 [] s2 rm i b Hloop Hb)
    as (si & rmi & si' & rmi' & Hbi & Hlen & Hpi & Hentry & Hout & Hin).
  { apply lookup_lt_Some in Hb. lia. }
  { constructor. }
  destruct (advance_ball_rule i b si rmi si' rmi' Hbi Hlen) as (o & Ho & Hcases).
  rewrite Hpi, Hparams in Ho, Hcases. exists o. split; [done|].
  destruct o as [ax ay|nx ny].
  - destruct Hcases as [Hnext Hfinal]. split.
    + intros Hrow. destruct (Hnext Hrow) as (Hrm & _ & b' & Hb' & ?).
      split; [by apply Hout|]. exists b'. by rewrite Hentry.
    + intros Hrow. destruct (Hfinal Hrow) as [Hrm _]. by apply Hin.
  - destruct Hcases as (Hrm & _ & Hb'). split; [by apply Hout|]. by rewrite Hentry.
Qed.
End Claims.

(** C2 on the concrete run: one tick before the end the counts sum to the 99
    balls completed; the last tick completes the run with a sum of 100. *)
Lemma histogram_accounting_witness :
  sum_list (bins_count (results demo_last_tick)) = 99
  ∧ balls_completed (results demo_last_tick) = 99
  ∧ sum_list (bins_count (results demo_complete)) = 100
  ∧ n_balls (params demo_complete) = 100.
Proof.
  destruct (@histogram_accounting demo_numpy demo_last_tick demo_last_tick_reachable)
    as (Hrun & _ & Hdone).
  destruct (Hdone demo_complete demo_complete_Ok eq_refl eq_refl) as (_ & _ & Hsum).
  split; [reflexivity|]. split; [reflexivity|]. split; [exact Hsum|reflexivity].
Defined.

(** C3 on the concrete run: 25 balls in flight under a cap of 25, and nothing
    more to admit. *)
Lemma concurrency_cap_witness :
  len (balls_in_flight (anim demo_started)) = 25
  ∧ len (balls_in_flight (anim demo_started))
    ≤ max_simultaneous_balls (params demo_started)
  ∧ may_admit (start_next_balls demo_started) = false.
Proof.
  destruct (@concurrency_cap demo_numpy demo_started demo_started_reachable)
    as (_ & Hcap & new & _ & _ & Hexit & _).
  split; [reflexivity|]. split; [apply Hcap; reflexivity|exact Hexit].
Defined.

(** C8 on the concrete run: at completion the mean on display is that of the
    100 outcomes. *)
Lemma final_statistics_witness :
  len (positions (results demo_complete)) = 100
  ∧ observed_mean (results demo_complete)
    = PFloat (@np_mean demo_numpy (positions (results demo_complete))).
Proof.
  destruct (@final_statistics demo_numpy demo_last_tick demo_last_tick_reachable)
    as (_ & Hdone).
  destruct (Hdone demo_complete demo_complete_Ok eq_refl eq_refl) as (Hlen & Hmean & _).
  split; [exact Hlen|exact Hmean].
Defined.

(** The sliders matter for C8. With three balls, a count no slider gives, the
    run completes without a refresh: the outcomes are [6; 6; 5] and the mean on
    display is still the [0] that [start_animation] assigned. *)
Remark stale_statistics_off_the_sliders :
  (s ← @start_animation demo_numpy (upd_params (set_n_balls 3) demo_init);
   @ticks demo_numpy 43 s) = Ok demo_three
  ∧ simulation_complete (results demo_three) = true
  ∧ positions (results demo_three) = [6; 6; 5]
  ∧ observed_mean (results demo_three) = PInt 0.
Proof.
  split; [vm_compute; reflexivity|]. split; [reflexivity|]. split; reflexivity.
Qed.

(** C4, the claim as stated fails. At speed 10 the step is 20; after the
    first tick of a run ball 0 is at [(600, 140)], exactly 20 pixels from the
    first peg at [(600, 160)]: the squared distance equals the squared step,
    so the rule with [<=] says arrival. The code does not treat it as one:
    the ball moves by the step, and keeps row 0 and the first peg as target;
    the arrival is processed on the following tick. *)
Lemma arrival_test_is_strict :
  balls_in_flight (anim demo_slow) !! 0%nat = Some demo_ball
  ∧ ball_speed (params demo_slow) = 10
  ∧ advance_rule py_le (PInt (Z.min (2 * 10) 30))
      (PFloat 600) (PFloat 140) (PInt 600) (PInt 160)
    = Ok (Arrived (PInt 600) (PInt 160))
  ∧ ∃ s', @advance_ball demo_numpy 0 demo_ball demo_slow [] = Ok (s', [])
          ∧ balls_in_flight (anim s') !! 0%nat
            = Some {| ball_index := 0; current_row := 0;
                      bx := PFloat 600; by_ := PFloat 160;
                      target_x := PInt 600; target_y := PInt 160 |}.
Proof.
  split; [reflexivity|]. split; [reflexivity|]. split; [reflexivity|].
  eexists. split; vm_compute; reflexivity.
Defined.

(** C4 on the concrete run: on the second tick ball 0, at distance 20 with a
    step of 20, is moved onto the peg and stays on row 0. *)
Lemma per_tick_advance_witness :
  ∃ r,
    @advance_balls demo_numpy
      (length (balls_in_flight (anim (admission_phase demo_slow)))) 0
      (admission_phase demo_slow) [] = Ok r
    ∧ (0%nat ∉ r.2)
    ∧ balls_in_flight (anim r.1) !! 0%nat
      = Some {| ball_index := 0; current_row := 0; bx := PFloat 600; by_ := PFloat 160;
                target_x := PInt 600; target_y := PInt 160 |}.
Proof.
  destruct (@per_tick_advance demo_numpy demo_slow demo_slow_next
              eq_refl eq_refl eq_refl demo_slow_next_Ok) as (r & Hloop & _ & Hballs).
  exists r. split; [exact Hloop|].
  destruct (Hballs 0%nat demo_ball eq_refl) as (o & Ho & Hcase).
  vm_compute in Ho. injection Ho as <-. exact Hcase.
Defined.

(** C5 on the concrete run: Stop is clicked with 25 balls in flight. *)
Lemma stop_cancels_witness :
  ∃ s1, @handle_event demo_numpy (MOUSEBUTTONDOWN 1 (200, 560)) demo_started = Ok s1
        ∧ ball_falling (anim s1) = false ∧ stopped (anim s1) = true
        ∧ balls_in_flight (anim s1) = balls_in_flight (anim demo_started)
        ∧ balls_dropped (anim s1) = balls_dropped (anim demo_started)
        ∧ results s1 = results demo_started
        ∧ ∀ n, @ticks demo_numpy n s1 = Ok s1.
Proof. exact (@stop_cancels demo_numpy demo_started (200, 560) eq_refl). Defined.

(** C6 on the concrete run: paused for 7 ticks, then resumed. *)
Lemma pause_freezes_witness :
  ∃ sp, @handle_event demo_numpy (KEYDOWN K_p) demo_started = Ok sp
        ∧ paused (anim sp) = true
        ∧ balls_in_flight (anim sp) = balls_in_flight (anim demo_started)
        ∧ results sp = results demo_started
        ∧ @ticks demo_numpy 7 sp = Ok sp
        ∧ @handle_event demo_numpy (KEYDOWN K_p) sp = Ok demo_started.
Proof. exact (proj2 (@pause_freezes demo_numpy demo_started 7) eq_refl eq_refl). Defined.

(** C7 on the concrete run: a click on the rows slider is ignored during the
    run, and sets 18 rows before it. *)
Lemma slider_edits_gated_witness :
  handle_slider_input (240, 190) demo_started = Ok (demo_started, None)
  ∧ ∃ v s', slider_value Rows 240 = Ok v
            ∧ handle_slider_input (240, 190) demo_init = Ok (s', Some Rows)
            ∧ param_of Rows (params s') = v.
Proof.
  split.
  - exact (proj1 (proj2 (@slider_edits_gated demo_numpy demo_started (240, 190)))
             demo_started_reachable eq_refl).
  - exact (proj2 (proj2 (@slider_edits_gated demo_numpy demo_init (240, 190)))
             eq_refl Rows eq_refl).
Defined.

(** C10 on the concrete run: after the complete run on 5 rows the rows slider
    is set to 9; the histogram has 10 bins and the first six keep the counts
    of the run. *)
Lemma bins_resize_keeps_counts_witness :
  bins_count (results demo_complete) = [18; 17; 16; 16; 16; 17]
  ∧ n_rows (params demo_resized) = 9
  ∧ len (bins_count (results demo_resized)) = 10
  ∧ bins_count (results demo_resized) !! 5%nat = Some 17.
Proof.
  destruct (proj1 (proj2 (@bins_resize_keeps_counts demo_numpy demo_complete))
              demo_complete_reachable eq_refl (101, 190) demo_resized (Some Rows)
              demo_resized_Ok) as [Hlen Hkeep].
  split; [reflexivity|]. split; [reflexivity|]. split; [exact Hlen|].
  rewrite (Hkeep 5%nat); [reflexivity|vm_compute; discriminate].
Defined.

(** * The program never raises: binary64, geometry, flight *)

(** ** Binary64 facts *)

Lemma digits2_pos_bounds (m : positive) :
  2 ^ (Z.pos (digits2_pos m) - 1) ≤ Z.pos m < 2 ^ Z.pos (digits2_pos m).
Proof.
  induction m as [m IH|m IH|]; cbn [digits2_pos]; [| |cbn; lia].
  all: rewrite Pos2Z.inj_succ;
    replace (Z.succ (Z.pos (digits2_pos m)) - 1) with (Z.pos (digits2_pos m)) by lia;
    rewrite Z.pow_succ_r by lia;
    assert (2 ^ Z.pos (digits2_pos m) = 2 * 2 ^ (Z.pos (digits2_pos m) - 1)) as Hd
      by (rewrite <- Z.pow_succ_r by lia; f_equal; lia);
    lia.
Qed.

Lemma Zdigits2_bounds (m : Z) :
  0 < m → 2 ^ (Zdigits2 m - 1) ≤ m < 2 ^ Zdigits2 m.
Proof. destruct m as [|p|p]; [lia| |lia]. intros _. apply digits2_pos_bounds. Qed.

Lemma shr_1_m r : 0 ≤ shr_m r → shr_m (shr_1 r) = shr_m r / 2.
Proof.
  destruct r as [m r s]. cbn [shr_m]. intros Hm.
  destruct m as [|[p|p|]|p]; cbn [shr_1 shr_m]; try lia; try done.
  all: first [apply Z.div_unique with 1; lia | apply Z.div_unique with 0; lia].
Qed.

Lemma iter_shr_1_m (p : positive) r :
  0 ≤ shr_m r → shr_m (SpecFloat.iter_pos shr_1 p r) = shr_m r / 2 ^ Z.pos p.
Proof.
  revert r. induction p as [p IH|p IH|]; intros r Hr; cbn [SpecFloat.iter_pos].
  - assert (0 ≤ shr_m (shr_1 r)) by (rewrite shr_1_m by done; apply Z.div_pos; lia).
    assert (0 ≤ shr_m (SpecFloat.iter_pos shr_1 p (shr_1 r)))
      by (rewrite IH by done; apply Z.div_pos; lia).
    rewrite IH, IH, shr_1_m by done.
    rewrite !Z.div_div by lia. f_equal.
    rewrite Pos2Z.inj_xI, Z.pow_add_r, Z.pow_mul_r by lia.
    change (2 ^ 2) with 4. change (2 ^ 1) with 2.
    replace (4 ^ Z.pos p) with (2 ^ Z.pos p * 2 ^ Z.pos p); [lia|].
    rewrite <- Z.pow_mul_l. done.
  - assert (0 ≤ shr_m (SpecFloat.iter_pos shr_1 p r))
      by (rewrite IH by done; apply Z.div_pos; lia).
    rewrite IH, IH by done. rewrite Z.div_div by lia. f_equal.
    rewrite Pos2Z.inj_xO. rewrite <- Z.pow_add_r by lia. f_equal. lia.
  - rewrite shr_1_m by done. done.
Qed.

(** Shifting a positive mantissa to its precision leaves a positive one. *)
Lemma shr_fexp_pos m e l :
  0 < m → SpecFloat.emin prec emax ≤ e →
  ∃ r e', shr_fexp prec emax m e l = (r, e') ∧ 0 < shr_m r ∧ SpecFloat.emin prec emax ≤ e'.
Proof.
  intros Hm He. unfold shr_fexp, shr.
  pose proof (Zdigits2_bounds m Hm) as Hd.
  assert (0 < Zdigits2 m) as Hdpos.
  { destruct m; try lia. cbn. lia. }
  assert (shr_m (shr_record_of_loc m l) = m) as Hrec.
  { by destruct l as [|[]]. }
  destruct (fexp prec emax (Zdigits2 m + e) - e) as [|p|p] eqn:Hn.
  - eexists _, _. split; [done|]. rewrite Hrec. lia.
  - eexists _, _. split; [done|]. rewrite iter_shr_1_m by lia. rewrite Hrec.
    assert (Z.pos p ≤ Zdigits2 m - 1) as Hp.
    { unfold fexp, SpecFloat.emin in *. change prec with 53 in *. change emax with 1024 in *. lia. }
    split; [|lia].
    apply Z.div_str_pos. split; [apply Z.pow_pos_nonneg; lia|].
    etransitivity; [|apply Hd]. apply Z.pow_le_mono_r; lia.
  - eexists _, _. split; [done|]. rewrite Hrec. lia.
Qed.

Lemma binary_round_aux_pos m e l :
  0 < m → SpecFloat.emin prec emax ≤ e →
  (∃ m' e', binary_round_aux prec emax false m e l = S754_finite false m' e')
  ∨ binary_round_aux prec emax false m e l = S754_infinity false.
Proof.
  intros Hm He. unfold binary_round_aux.
  destruct (shr_fexp_pos m e l Hm He) as (r & e' & -> & Hr & He').
  assert (0 < round_nearest_even (shr_m r) (loc_of_shr_record r)) as Hround.
  { unfold round_nearest_even. destruct (loc_of_shr_record r) as [|[]]; try lia.
    destruct (Z.even _); lia. }
  destruct (shr_fexp_pos _ e' loc_Exact Hround He') as (r' & e'' & -> & Hr' & _).
  destruct (shr_m r') as [|p|p]; try lia.
  destruct (_ <=? _); eauto.
Qed.

Lemma SFsqrt_pos m e :
  valid_binary (S754_finite false m e) = true →
  (∃ m' e', SF64sqrt (S754_finite false m e) = S754_finite false m' e')
  ∨ SF64sqrt (S754_finite false m e) = S754_infinity false.
Proof.
  intros Hvalid. unfold SF64sqrt, SFsqrt, SFsqrt_core_binary.
  assert (SpecFloat.emin prec emax ≤ e) as He.
  { cbn [valid_binary] in Hvalid. unfold bounded, canonical_mantissa in Hvalid.
    apply andb_true_iff in Hvalid as [Hc%Z.eqb_eq _].
    unfold fexp in Hc. lia. }
  set (e' := Z.min _ (Z.div2 e)).
  assert (SpecFloat.emin prec emax ≤ e') as He'.
  { subst e'. unfold fexp, SpecFloat.emin in *. change prec with 53 in *.
    change emax with 1024 in *. rewrite Z.div2_div.
    pose proof (Z.div_le_mono (-1074) e 2 ltac:(lia) ltac:(lia)) as Hdiv.
    change (-1074 / 2) with (-537) in Hdiv. lia. }
  assert (0 ≤ e - 2 * e') as Hs.
  { subst e'. rewrite Z.div2_div. pose proof (Z.mul_div_le e 2 ltac:(lia)). lia. }
  set (m1 := match e - 2 * e' with Z.pos _ => _ | 0 => _ | Z.neg _ => _ end).
  assert (0 < m1) as Hm1.
  { subst m1. destruct (e - 2 * e') as [|p|p] eqn:Hp; [lia| |lia].
    rewrite Z.shiftl_mul_pow2 by lia. apply Z.mul_pos_pos; [lia|]. apply Z.pow_pos_nonneg; lia. }
  pose proof (Z.sqrtrem_spec m1 ltac:(lia)) as Hsq.
  destruct (Z.sqrtrem m1) as [q r].
  assert (0 < q) as Hq by nia.
  apply binary_round_aux_pos; done.
Qed.

Lemma Prim2SF_zero : Prim2SF 0 = S754_zero false.
Proof. reflexivity. Qed.

(** A positive float has a non-zero square root, and is not negative. *)
Lemma sqrt_pos_nonzero (f : float) :
  (0 <? f)%float = true → (f <? 0)%float = false ∧ (sqrt f =? 0)%float = false.
Proof.
  intros Hpos. rewrite FloatAxioms.ltb_spec in Hpos.
  rewrite FloatAxioms.ltb_spec, FloatAxioms.eqb_spec, FloatAxioms.sqrt_spec. rewrite Prim2SF_zero in *.
  pose proof (Prim2SF_valid f) as Hvalid.
  destruct (Prim2SF f) as [s|s| |s m e]; try done.
  - by destruct s.
  - destruct s; [done|]. split; [done|].
    destruct (SFsqrt_pos m e Hvalid) as [(m' & e' & ->)| ->]; done.
Qed.

Lemma digits2_pos_iter_xO (m k : positive) :
  Z.pos (digits2_pos (Pos.iter xO m k)) = Z.pos (digits2_pos m) + Z.pos k.
Proof.
  induction k as [|k IH] using Pos.peano_ind.
  - cbn. lia.
  - rewrite Pos.iter_succ. cbn [digits2_pos]. lia.
Qed.

(** [float(z)] is exact, and positive, for [0 < z < 2^53]. *)
Lemma float_of_Z_small (z : Z) :
  0 < z < 2 ^ 53 →
  ∃ m e, Prim2SF (float_of_Z z) = S754_finite false m e.
Proof.
  intros Hz. destruct z as [|m|m]; [lia| |lia].
  pose proof (digits2_pos_bounds m) as Hd.
  assert (Z.pos (digits2_pos m) ≤ 53) as Hd53.
  { destruct (decide (Z.pos (digits2_pos m) ≤ 53)) as [|Hgt]; [done|].
    assert (2 ^ 53 ≤ 2 ^ (Z.pos (digits2_pos m) - 1)) by (apply Z.pow_le_mono_r; lia). lia. }
  unfold float_of_Z. cbn [binary_normalize]. unfold binary_round.
  assert (∃ mz ez,
            shl_align m 0 (fexp prec emax (Z.pos (digits2_pos m) + 0)) = (mz, ez)
            ∧ Z.pos (digits2_pos mz) = 53 ∧ -52 ≤ ez ≤ 0) as (mz & ez & -> & Hmz & Hez).
  { unfold shl_align, fexp, SpecFloat.emin. change prec with 53. change emax with 1024.
    rewrite Z.add_0_r, Z.sub_0_r.
    replace (Z.max (Z.pos (digits2_pos m) - 53) (3 - 1024 - 53))
      with (Z.pos (digits2_pos m) - 53) by lia.
    destruct (Z.pos (digits2_pos m) - 53) as [|p|p] eqn:Hp; [|lia|].
    - eexists _, _. split; [done|]. lia.
    - eexists _, _. split; [done|]. rewrite digits2_pos_iter_xO. lia. }
  assert (binary_round_aux prec emax false (Z.pos mz) ez loc_Exact = S754_finite false mz ez)
    as Hround.
  { unfold binary_round_aux, shr_fexp, shr, fexp, SpecFloat.emin. cbn [Zdigits2].
    change prec with 53. change emax with 1024. rewrite Hmz.
    replace (Z.max (53 + ez - 53) (3 - 1024 - 53) - ez) with 0 by lia.
    cbn [shr_record_of_loc shr_m loc_of_shr_record round_nearest_even Zdigits2].
    rewrite Hmz.
    replace (Z.max (53 + ez - 53) (3 - 1024 - 53) - ez) with 0 by lia.
    cbn [shr_m]. destruct (ez <=? 1024 - 53) eqn:Hle; [done|]. apply Z.leb_gt in Hle. lia. }
  rewrite Hround. exists mz, ez. apply Prim2SF_SF2Prim.
  cbn [valid_binary]. unfold bounded, canonical_mantissa, fexp, SpecFloat.emin.
  change prec with 53. change emax with 1024. rewrite Hmz.
  apply andb_true_iff. split; [apply Z.eqb_eq|apply Z.leb_le]; lia.
Qed.

Lemma float_of_Z_pos (z : Z) : 0 < z < 2 ^ 53 → (0 <? float_of_Z z)%float = true.
Proof.
  intros (m & e & Hz)%float_of_Z_small.
  by rewrite FloatAxioms.ltb_spec, Hz, Prim2SF_zero.
Qed.

(** [math.sqrt] of a positive number never fails and never gives zero. *)
Lemma math_sqrt_pos (d : num) :
  py_gt d (PInt 0) = true →
  (∀ z, d = PInt z → z < 2 ^ 53) →
  ∃ r, math_sqrt d = Ok r ∧ is_zero_num (PFloat r) = false.
Proof.
  intros Hd Hz. unfold math_sqrt.
  assert ((0 <? to_float d)%float = true) as Hpos.
  { destruct d as [z|f]; cbn in *.
    - apply float_of_Z_pos. specialize (Hz z eq_refl). lia.
    - done. }
  destruct (sqrt_pos_nonzero _ Hpos) as [-> Hsqrt]. by exists (sqrt (to_float d)).
Qed.

(** ** Order of binary64 numbers against the layout constants *)

Lemma compare_cont_Z (a b : positive) :
  PosDef.Pos.compare_cont Eq a b = (Z.pos a ?= Z.pos b).
Proof. reflexivity. Qed.

Ltac float_cases :=
  rewrite ?FloatAxioms.ltb_spec, ?FloatAxioms.leb_spec;
  repeat match goal with
         | |- context [Prim2SF (float_of_Z ?c)] =>
             let v := eval vm_compute in (Prim2SF (float_of_Z c)) in
             change (Prim2SF (float_of_Z c)) with v
         end;
  unfold SFltb, SFleb;
  match goal with
  | |- context [Prim2SF ?f] => destruct (Prim2SF f) as [[]|[]| |[] ? ?]
  end;
  cbn [SFcompare]; try done;
  rewrite ?compare_cont_Z;
  repeat match goal with
         | |- context [Z.compare ?a ?b] =>
             destruct (Z.compare_spec a b); try (exfalso; lia)
         end;
  try done.

Lemma x_axis_order (f : float) :
  (float_of_Z 880 <? f)%float = false → (float_of_Z 320 <? f)%float = true →
  (f <=? float_of_Z 310)%float = false ∧ (float_of_Z 890 <=? f)%float = false
  ∧ (float_of_Z 320 <=? f)%float = true ∧ (f <=? float_of_Z 880)%float = true.
Proof. float_cases. Qed.

Lemma y_axis_order (f : float) :
  (float_of_Z 560 <? f)%float = false → (float_of_Z 120 <? f)%float = true →
  (f <=? float_of_Z 110)%float = false ∧ (float_of_Z 570 <=? f)%float = false
  ∧ (float_of_Z 120 <=? f)%float = true ∧ (f <=? float_of_Z 560)%float = true.
Proof. float_cases. Qed.

(** ** [clamp_position] *)

Lemma clamp_position_unfold (x y : num) :
  clamp_position x y
  = let cx := py_max (PInt 320) (py_min x (PInt 880)) in
    let cy := py_max (PInt 120) (py_min y (PInt 560)) in
    if py_le cx (PInt 310) || py_ge cx (PInt 890)
       || py_le cy (PInt 110) || py_ge cy (PInt 570)
    then (PInt 600, PInt 340) else (cx, cy).
Proof. reflexivity. Qed.

Lemma clamp_x (x : num) :
  let c := py_max (PInt 320) (py_min x (PInt 880)) in
  py_le c (PInt 310) = false ∧ py_ge c (PInt 890) = false
  ∧ py_le (PInt 320) c = true ∧ py_le c (PInt 880) = true
  ∧ py_max (PInt 320) (py_min c (PInt 880)) = c
  ∧ (∀ z, c = PInt z → 320 ≤ z ≤ 880).
Proof.
  destruct x as [z|f]; unfold py_max, py_min, py_gt, py_ge, py_le, py_lt; cbn [to_float].
  - destruct (Z.ltb_spec 880 z).
    + cbn. repeat split; try done; simplify_eq; lia.
    + destruct (Z.ltb_spec 320 z).
      * destruct (Z.ltb_spec 880 z); [lia|]. destruct (Z.ltb_spec 320 z); [|lia].
        repeat split; try (apply Z.leb_gt; lia); try (apply Z.leb_le; lia);
          simplify_eq; lia.
      * cbn. repeat split; try done; simplify_eq; lia.
  - destruct (float_of_Z 880 <? f)%float eqn:Hhi; cbn [to_float].
    + cbn. repeat split; try done; simplify_eq; lia.
    + destruct (float_of_Z 320 <? f)%float eqn:Hlo; cbn [to_float].
      * destruct (x_axis_order f Hhi Hlo) as (? & ? & ? & ?).
        repeat (progress (rewrite ?Hhi, ?Hlo; cbn [to_float])). repeat split; done.
      * cbn. repeat split; try done; simplify_eq; lia.
Qed.

Lemma clamp_y (y : num) :
  let c := py_max (PInt 120) (py_min y (PInt 560)) in
  py_le c (PInt 110) = false ∧ py_ge c (PInt 570) = false
  ∧ py_le (PInt 120) c = true ∧ py_le c (PInt 560) = true
  ∧ py_max (PInt 120) (py_min c (PInt 560)) = c
  ∧ (∀ z, c = PInt z → 120 ≤ z ≤ 560).
Proof.
  destruct y as [z|f]; unfold py_max, py_min, py_gt, py_ge, py_le, py_lt; cbn [to_float].
  - destruct (Z.ltb_spec 560 z).
    + cbn. repeat split; try done; simplify_eq; lia.
    + destruct (Z.ltb_spec 120 z).
      * destruct (Z.ltb_spec 560 z); [lia|]. destruct (Z.ltb_spec 120 z); [|lia].
        repeat split; try (apply Z.leb_gt; lia); try (apply Z.leb_le; lia);
          simplify_eq; lia.
      * cbn. repeat split; try done; simplify_eq; lia.
  - destruct (float_of_Z 560 <? f)%float eqn:Hhi; cbn [to_float].
    + cbn. repeat split; try done; simplify_eq; lia.
    + destruct (float_of_Z 120 <? f)%float eqn:Hlo; cbn [to_float].
      * destruct (y_axis_order f Hhi Hlo) as (? & ? & ? & ?).
        repeat (progress (rewrite ?Hhi, ?Hlo; cbn [to_float])). repeat split; done.
      * cbn. repeat split; try done; simplify_eq; lia.
Qed.

(** The recentring branch of [clamp_position] is never taken: the result is
    the clamped pair, it lies in the safe box, and clamping it again changes
    nothing. *)
Lemma clamp_position_spec (x y : num) :
  clamp_position x y
  = (py_max (PInt 320) (py_min x (PInt 880)), py_max (PInt 120) (py_min y (PInt 560)))
  ∧ contained (clamp_position x y).1 (clamp_position x y).2 = true
  ∧ clamp_position (clamp_position x y).1 (clamp_position x y).2 = clamp_position x y.
Proof.
  pose proof (clamp_x x) as (Hx1 & Hx2 & Hx3 & Hx4 & Hx5 & _).
  pose proof (clamp_y y) as (Hy1 & Hy2 & Hy3 & Hy4 & Hy5 & _).
  cbn zeta in *.
  assert (clamp_position x y
          = (py_max (PInt 320) (py_min x (PInt 880)),
             py_max (PInt 120) (py_min y (PInt 560)))) as Heq.
  { rewrite clamp_position_unfold. cbn zeta. by rewrite Hx1, Hx2, Hy1, Hy2. }
  split; [done|]. rewrite Heq. cbn [fst snd]. split.
  - unfold contained. change (ax board_area + board_margin) with 320.
    change (ax board_area + awidth board_area - board_margin) with 880.
    change (ay board_area + 20) with 120.
    change (ay board_area + aheight board_area - 20) with 560.
    by rewrite Hx3, Hx4, Hy3, Hy4.
  - rewrite clamp_position_unfold. cbn zeta. by rewrite Hx5, Hy5, Hx1, Hx2, Hy1, Hy2.
Qed.

(** ** The tables of [precalculate_positions] *)

Lemma for_each_invariant {A S} (P : S → Prop) (body : A → S → result S) l s s' :
  (∀ a s s', a ∈ l → P s → body a s = Ok s' → P s') →
  P s → for_each body l s = Ok s' → P s'.
Proof.
  revert s. induction l as [|a l IH]; intros s Hbody Hs; cbn [for_each].
  - by intros [= <-].
  - intros Hl. bind_split Hl as s1 Hs1. apply (IH s1); [|by eapply Hbody; [left|..]|done].
    intros a' t t' Ha'. apply Hbody. by right.
Qed.

(** The peg table has no key outside the triangle. *)
Lemma peg_table_dom sx sy n pegs row col p :
  peg_table sx sy n = Ok pegs → pegs !! (row, col) = Some p → 0 ≤ col ≤ row ∧ row < n.
Proof.
  intros Htable. revert row col p.
  set (P := λ pegs : gmap (Z * Z) (Z * Z),
              ∀ row col p, pegs !! (row, col) = Some p → 0 ≤ col ≤ row ∧ row < n).
  change (P pegs).
  eapply (for_each_invariant P); [| |exact Htable].
  - intros row0 t t' Hrow0%elem_of_seqZ Ht Ht'.
    eapply (for_each_invariant P); [| |exact Ht']; [|done].
    intros col0 u u' Hcol0%elem_of_seqZ Hu Hu'. bind_split Hu' as q Hq. injection Hu' as <-.
    intros row col p. destruct (decide ((row0, col0) = (row, col))) as [[= <- <-]|Hne].
    + intros _. lia.
    + rewrite lookup_insert_ne by done. apply Hu.
  - intros row col p. by rewrite lookup_empty.
Qed.

Lemma geometry_table : forallb geometry_ok (seqZ 5 14) = true.
Proof. vm_compute. reflexivity. Qed.

Lemma geometry_ok_rows n : 5 ≤ n ≤ 18 → geometry_ok n = true.
Proof.
  intros Hn. pose proof geometry_table as Htable.
  rewrite forallb_forall in Htable. apply Htable.
  apply list_elem_of_In, elem_of_seqZ. lia.
Qed.

Lemma contained_int x y :
  contained (PInt x) (PInt y) = true ↔ 320 ≤ x ≤ 880 ∧ 120 ≤ y ≤ 560.
Proof.
  unfold contained, py_le. cbn [ax ay awidth aheight board_area].
  unfold board_margin, header_height. rewrite !andb_true_iff, !Z.leb_le. lia.
Qed.

Lemma clamp_position_int x y :
  contained (PInt x) (PInt y) = true →
  clamp_position (PInt x) (PInt y) = (PInt x, PInt y).
Proof.
  intros Hc%contained_int.
  destruct (clamp_position_spec (PInt x) (PInt y)) as (-> & _).
  unfold py_max, py_min, py_gt, py_lt.
  destruct (Z.ltb_spec 880 x); [lia|]. destruct (Z.ltb_spec 560 y); [lia|].
  destruct (Z.ltb_spec 320 x), (Z.ltb_spec 120 y); f_equal; f_equal; lia.
Qed.

Lemma compute_geometry_pegs n g :
  compute_geometry n = Ok g → ∃ sx sy, peg_table sx sy n = Ok (peg_positions g).
Proof.
  unfold compute_geometry. intros Hg.
  bind_split Hg as sx Hsx. bind_split Hg as sy Hsy. bind_split Hg as pegs Hpegs.
  bind_split Hg as half Hhalf. bind_split Hg as bins Hbins. injection Hg as <-.
  by exists sx, sy.
Qed.

Section GeometryFacts.
Variable s : State.
Hypothesis Hrows : 5 ≤ n_rows (params s) ≤ 18.
Hypothesis Hgeometry : compute_geometry (n_rows (params s)) = Ok (geometry s).

Lemma geometry_ok_unfold :
  (∀ row col, 0 ≤ col ≤ row → row < n_rows (params s) →
     peg_ok (geometry s) (n_rows (params s)) row col = true)
  ∧ (∀ k, 0 ≤ k ≤ n_rows (params s) → bin_ok (geometry s) (n_rows (params s)) k = true)
  ∧ Z.of_nat (size (bin_positions (geometry s))) = n_rows (params s) + 1
  ∧ peg_positions (geometry s) !! (0, 0) = Some (600, 160).
Proof.
  pose proof (geometry_ok_rows _ Hrows) as Hok. unfold geometry_ok in Hok.
  rewrite Hgeometry in Hok.
  apply andb_true_iff in Hok as [[[Hpegs Hbins]%andb_true_iff Hsize%Z.eqb_eq]%andb_true_iff
                                   Hfirst%bool_decide_eq_true].
  rewrite forallb_forall in Hpegs. rewrite forallb_forall in Hbins.
  split; [|split; [|done]].
  - intros row col Hcol Hrow.
    specialize (Hpegs row). rewrite forallb_forall in Hpegs.
    apply Hpegs; apply list_elem_of_In, elem_of_seqZ; lia.
  - intros k Hk. apply Hbins, list_elem_of_In, elem_of_seqZ. lia.
Qed.

Lemma peg_present row col :
  0 ≤ col ≤ row → row < n_rows (params s) →
  ∃ x y, peg_positions (geometry s) !! (row, col) = Some (x, y)
         ∧ get_peg_position s row col = (x, y)
         ∧ contained (PInt x) (PInt y) = true.
Proof.
  intros Hcol Hrow. destruct geometry_ok_unfold as (Hpegs & _).
  specialize (Hpegs row col Hcol Hrow). unfold peg_ok in Hpegs.
  unfold get_peg_position.
  destruct (peg_positions (geometry s) !! (row, col)) as [[x y]|]; [|done].
  apply andb_true_iff in Hpegs as [Hc _]. by exists x, y.
Qed.

Lemma peg_absent row col :
  ¬ (0 ≤ col ≤ row ∧ row < n_rows (params s)) →
  get_peg_position s row col = default_peg.
Proof.
  intros Hout. unfold get_peg_position.
  destruct (peg_positions (geometry s) !! (row, col)) as [p|] eqn:Hp; [|done].
  destruct (compute_geometry_pegs _ _ Hgeometry) as (sx & sy & Htable).
  destruct Hout. by eapply peg_table_dom.
Qed.

Lemma bin_present k :
  0 ≤ k ≤ n_rows (params s) →
  ∃ x, bin_positions (geometry s) !! k = Some (x, 520)
       ∧ get_bin_position s k = (x, 520) ∧ 320 ≤ x ≤ 880.
Proof.
  intros Hk. destruct geometry_ok_unfold as (_ & Hbins & Hsize & _).
  specialize (Hbins k Hk). unfold bin_ok in Hbins. unfold get_bin_position.
  rewrite Hsize. destruct (Z.leb_spec 0 k); [|lia].
  destruct (Z.ltb_spec k (n_rows (params s) + 1)); [|lia]. cbn [andb].
  destruct (bin_positions (geometry s) !! k) as [[x y]|]; [|done].
  apply andb_true_iff in Hbins as [[Hc%contained_int Hy%Z.eqb_eq]%andb_true_iff _].
  cbn in Hy. subst y. exists x. repeat split; try done; lia.
Qed.

Lemma bin_absent k :
  ¬ (0 ≤ k ≤ n_rows (params s)) → get_bin_position s k = default_bin.
Proof.
  intros Hout. unfold get_bin_position.
  destruct geometry_ok_unfold as (_ & _ & Hsize & _). rewrite Hsize.
  destruct (Z.leb_spec 0 k); [|done].
  destruct (Z.ltb_spec k (n_rows (params s) + 1)); [lia|done].
Qed.

(** Every position the tables or their fallbacks give is inside the safe
    box: clamping a target changes nothing. *)
Lemma peg_contained row col :
  contained (PInt (get_peg_position s row col).1) (PInt (get_peg_position s row col).2) = true.
Proof.
  destruct (decide (0 ≤ col ≤ row ∧ row < n_rows (params s))) as [[Hcol Hrow]|Hout].
  - by destruct (peg_present row col Hcol Hrow) as (x & y & _ & -> & ?).
  - by rewrite peg_absent.
Qed.

Lemma bin_contained k :
  contained (PInt (get_bin_position s k).1) (PInt (get_bin_position s k).2) = true.
Proof.
  destruct (decide (0 ≤ k ≤ n_rows (params s))) as [Hk|Hout].
  - destruct (bin_present k Hk) as (x & _ & -> & ?). apply contained_int. cbn. lia.
  - by rewrite bin_absent.
Qed.
End GeometryFacts.

Section GeometryShape.
Variable s : State.
Hypothesis Hrows : 5 ≤ n_rows (params s) ≤ 18.
Hypothesis Hgeometry : compute_geometry (n_rows (params s)) = Ok (geometry s).

Lemma peg_below row col :
  0 ≤ col ≤ row → row + 1 < n_rows (params s) →
  (get_peg_position s (row + 1) col).1 < (get_peg_position s row col).1
  ∧ (get_peg_position s row col).1 < (get_peg_position s (row + 1) (col + 1)).1
  ∧ (get_peg_position s row col).2 < (get_peg_position s (row + 1) col).2
  ∧ (get_peg_position s (row + 1) col).2 = (get_peg_position s (row + 1) (col + 1)).2.
Proof.
  intros Hcol Hrow. destruct (geometry_ok_unfold s Hrows Hgeometry) as (Hpegs & _).
  specialize (Hpegs row col Hcol ltac:(lia)). unfold peg_ok in Hpegs.
  unfold get_peg_position. unfold peg_of in Hpegs.
  destruct (peg_positions (geometry s) !! (row, col)) as [[x y]|]; [|done].
  apply andb_true_iff in Hpegs as [_ Hshape].
  destruct (Z.leb_spec (n_rows (params s)) (row + 1)); [lia|]. cbn [orb] in Hshape.
  rewrite !andb_true_iff, !Z.ltb_lt, Z.eqb_eq in Hshape. cbn [default fst snd] in *. change (id (x, y)) with (x, y). cbn [fst snd]. lia.
Qed.

Lemma bin_below col :
  0 ≤ col < n_rows (params s) →
  (get_bin_position s col).1 < (get_peg_position s (n_rows (params s) - 1) col).1
  ∧ (get_peg_position s (n_rows (params s) - 1) col).1 < (get_bin_position s (col + 1)).1.
Proof.
  intros Hcol. destruct (geometry_ok_unfold s Hrows Hgeometry) as (_ & Hbins & Hsize & _).
  specialize (Hbins col ltac:(lia)). unfold bin_ok in Hbins.
  unfold get_bin_position, get_peg_position. unfold peg_of, bin_of in Hbins.
  rewrite Hsize.
  destruct (Z.leb_spec 0 col); [|lia]. destruct (Z.leb_spec 0 (col + 1)); [|lia].
  destruct (Z.ltb_spec col (n_rows (params s) + 1)); [|lia].
  destruct (Z.ltb_spec (col + 1) (n_rows (params s) + 1)); [|lia]. cbn [andb].
  destruct (bin_positions (geometry s) !! col) as [[x y]|]; [|done].
  apply andb_true_iff in Hbins as [_ Hshape].
  destruct (Z.leb_spec (n_rows (params s)) col); [lia|]. cbn [orb] in Hshape.
  rewrite !andb_true_iff, !Z.ltb_lt in Hshape. cbn [default fst snd] in *. change (id (x, y)) with (x, y). cbn [fst snd]. lia.
Qed.
End GeometryShape.

(** ** Lists *)

Lemma py_getitem_lookup {A} (l : list A) (i : Z) :
  0 ≤ i < len l → ∃ a, l !! Z.to_nat i = Some a ∧ py_getitem l i = Ok a.
Proof.
  intros Hi. unfold py_getitem.
  destruct (Z.ltb_spec i 0); [lia|].
  destruct (Z.leb_spec 0 i); [|lia]. destruct (Z.ltb_spec i (len l)); [|lia]. cbn [andb].
  destruct (l !! Z.to_nat i) as [a|] eqn:Ha; [by exists a|].
  apply lookup_ge_None in Ha. unfold len in *. lia.
Qed.

Lemma py_getitem_final {A} (l : list A) :
  0 < len l → ∃ a, last l = Some a ∧ py_getitem l (-1) = Ok a.
Proof.
  intros Hl. unfold py_getitem. change (-1 <? 0) with true. cbn match.
  destruct (Z.leb_spec 0 (-1 + len l)); [|lia].
  destruct (Z.ltb_spec (-1 + len l) (len l)); [|lia]. cbn [andb].
  rewrite last_lookup.
  replace (Z.to_nat (-1 + len l)) with (Init.Nat.pred (length l)) by (unfold len; lia).
  destruct (l !! Init.Nat.pred (length l)) as [a|] eqn:Ha; [by exists a|].
  apply lookup_ge_None in Ha. unfold len in *. lia.
Qed.

Lemma increasing_nil : increasing [].
Proof. by intros i j a b Ha. Qed.

Lemma increasing_snoc l x :
  increasing l → Forall (λ a, a < x) l → increasing (l ++ [x]).
Proof.
  intros Hl Hx i j a b Ha Hb Hij.
  assert (i < length l)%nat as Hi.
  { apply lookup_lt_Some in Hb. rewrite length_app in Hb. cbn in Hb. lia. }
  rewrite lookup_app_l in Ha by done.
  destruct (decide (j < length l)%nat) as [Hj|Hj].
  - rewrite lookup_app_l in Hb by done. by eapply Hl.
  - rewrite lookup_app_r in Hb by lia.
    apply list_lookup_singleton_Some in Hb as [_ <-].
    rewrite Forall_lookup in Hx. by eapply Hx.
Qed.

Lemma increasing_delete l k : increasing l → increasing (delete k l).
Proof.
  intros Hl i j a b Ha Hb Hij.
  destruct (decide (i < k)%nat), (decide (j < k)%nat).
  - rewrite list_lookup_delete_lt in Ha, Hb by done. by eapply Hl.
  - rewrite list_lookup_delete_lt in Ha by done. rewrite list_lookup_delete_ge in Hb by lia.
    eapply Hl; [done..|lia].
  - lia.
  - rewrite list_lookup_delete_ge in Ha, Hb by lia. eapply Hl; [done..|lia].
Qed.

(** ** The histogram *)

Lemma length_histogram n l : length (histogram n l) = n.
Proof. unfold histogram. rewrite length_fmap, length_seqZ. lia. Qed.

Lemma histogram_lookup n l (k : nat) :
  (k < n)%nat → histogram n l !! k = Some (len (filter (λ v, v = Z.of_nat k) l)).
Proof.
  intros Hk. unfold histogram. rewrite list_lookup_fmap, lookup_seqZ_lt by lia.
  cbn. by rewrite Z.add_0_l.
Qed.

Lemma histogram_nil n : histogram n [] = replicate n 0.
Proof.
  apply list_eq. intros k. destruct (decide (k < n)%nat) as [Hk|Hk].
  - rewrite histogram_lookup by done. by rewrite lookup_replicate_2.
  - rewrite !lookup_ge_None_2; [done| |]; rewrite ?length_replicate, ?length_histogram; lia.
Qed.

Lemma histogram_snoc n l v :
  0 ≤ v → histogram n (l ++ [v]) = alter (λ c, c + 1) (Z.to_nat v) (histogram n l).
Proof.
  intros Hv. apply list_eq. intros k. destruct (decide (k < n)%nat) as [Hk|Hk].
  - rewrite histogram_lookup by done. rewrite filter_app, len_app.
    destruct (decide (k = Z.to_nat v)) as [->|Hne].
    + rewrite list_lookup_alter_eq, histogram_lookup by done. cbn [fmap option_fmap option_map].
      rewrite filter_cons_True by lia. by rewrite filter_nil.
    + rewrite list_lookup_alter_ne by done. rewrite histogram_lookup by done.
      rewrite filter_cons_False by lia. rewrite filter_nil, len_nil. f_equal. lia.
  - rewrite !lookup_ge_None_2; [done| |];
      rewrite ?length_alter, ?length_histogram; lia.
Qed.

(** ** The statistics on display *)

Lemma refreshed_full l : len l mod 5 = 0 → refreshed l = l.
Proof.
  intros Hl. unfold refreshed. apply take_ge.
  apply Z.mod_divide in Hl as [k Hk]; [|done].
  rewrite Hk, Z.div_mul by done. unfold len in Hk. lia.
Qed.

Lemma refreshed_snoc l v : (len l + 1) mod 5 ≠ 0 → refreshed (l ++ [v]) = refreshed l.
Proof.
  intros Hl. unfold refreshed. rewrite len_app. change (len [v]) with 1.
  pose proof (len_nonneg l) as Hnn.
  assert ((len l + 1) / 5 = len l / 5) as ->.
  { pose proof (Z.div_mod (len l + 1) 5 ltac:(done)).
    pose proof (Z.mod_pos_bound (len l + 1) 5 ltac:(done)).
    pose proof (Z.div_mod (len l) 5 ltac:(done)).
    pose proof (Z.mod_pos_bound (len l) 5 ltac:(done)).
    lia. }
  apply take_app_le.
  pose proof (Z.mul_div_le (len l) 5 ltac:(done)). unfold len in *. lia.
Qed.

Section OutcomeFacts.
Context `{NumPy}.

Lemma outcome_facts_empty n r :
  positions r = [] → bins_count r = replicate n 0 → balls_completed r = 0 →
  observed_mean r = PInt 0 → observed_std r = PInt 0 →
  outcome_facts r.
Proof.
  intros Hp Hb Hc Hm Hs.
  constructor; rewrite ?Hp, ?Hb, ?Hc, ?Hm, ?Hs; try done.
  by rewrite length_replicate, histogram_nil.
Qed.

Lemma record_outcome_outcome_facts v s :
  outcome_facts (results s) → 0 ≤ v < len (bins_count (results s)) →
  outcome_facts (results (record_outcome v s)).
Proof.
  intros [Hcount Hhist Hrange Hmean Hstd] Hv.
  destruct (record_outcome_valid v s Hv) as (om & os & w & -> & Hstats).
  pose proof (len_nonneg (positions (results s))) as Hnn.
  assert (len (positions (results s) ++ [v]) = balls_completed (results s) + 1) as Hlen
    by (rewrite len_app; change (len [v]) with 1; lia).
  destruct s as [? ? [pos bins completed om0 os0 tm ts sc] ? ?]. cbn in *. rewrite Hlen in Hstats.
  constructor; cbn.
  - done.
  - rewrite length_alter, histogram_snoc by lia. by rewrite <- Hhist.
  - unfold len. rewrite length_alter. apply Forall_app. split; [done|].
    by apply Forall_singleton.
  - unfold shown_mean. rewrite Hlen.
    destruct (Z.eqb_spec ((completed + 1) mod 5) 0) as [Hmod|Hmod].
    + destruct Hstats as [-> _].
      destruct (Z.ltb_spec (completed + 1) 5) as [Hlt|_].
      { rewrite Z.mod_small in Hmod by lia. lia. }
      rewrite refreshed_full; [done|]. by rewrite Hlen.
    + destruct Hstats as [-> _]. rewrite Hmean. unfold shown_mean.
      rewrite refreshed_snoc by (by rewrite Hcount). rewrite Hcount.
      destruct (Z.ltb_spec completed 5), (Z.ltb_spec (completed + 1) 5);
        try done; try lia.
      destruct Hmod. replace (completed + 1) with 5 by lia. done.
  - unfold shown_std. rewrite Hlen.
    destruct (Z.eqb_spec ((completed + 1) mod 5) 0) as [Hmod|Hmod].
    + destruct Hstats as [_ ->].
      destruct (Z.ltb_spec (completed + 1) 5) as [Hlt|Hge].
      { rewrite Z.mod_small in Hmod by lia. lia. }
      destruct (Z.ltb_spec 1 (completed + 1)); [|lia].
      rewrite refreshed_full; [done|]. by rewrite Hlen.
    + destruct Hstats as [_ ->]. rewrite Hstd. unfold shown_std.
      rewrite refreshed_snoc by (by rewrite Hcount). rewrite Hcount.
      destruct (Z.ltb_spec completed 5), (Z.ltb_spec (completed + 1) 5);
        try done; try lia.
      destruct Hmod. replace (completed + 1) with 5 by lia. done.
Qed.
End OutcomeFacts.

(** ** Admission *)

Lemma increasing_app_seqZ l d k :
  increasing l → Forall (λ a, a < d) l → increasing (l ++ seqZ d k).
Proof.
  intros Hl Hd i j a b Ha Hb Hij.
  destruct (decide (j < length l)%nat) as [Hj|Hj].
  - rewrite lookup_app_l in Ha, Hb by lia. by eapply Hl.
  - rewrite (lookup_app_r _ _ j) in Hb by lia. apply lookup_seqZ in Hb as [-> Hb].
    destruct (decide (i < length l)%nat) as [Hi|Hi].
    + rewrite lookup_app_l in Ha by done. rewrite Forall_lookup in Hd.
      specialize (Hd i a Ha). cbn in Hd. lia.
    + rewrite lookup_app_r in Ha by lia. apply lookup_seqZ in Ha as [-> Ha]. lia.
Qed.

Lemma admit_ball_new s :
  peg_positions (geometry s) !! (0, 0) = Some (600, 160) →
  admit_ball s
  = upd_anim (set_balls_dropped (balls_dropped (anim s) + 1))
      (upd_anim (set_balls_in_flight
                   (balls_in_flight (anim s) ++ [new_ball (balls_dropped (anim s))])) s).
Proof. intros Hpeg. unfold admit_ball. rewrite Hpeg. reflexivity. Qed.

Lemma admit_loop_new fuel s :
  peg_positions (geometry s) !! (0, 0) = Some (600, 160) →
  let k := Z.min (Z.of_nat fuel)
             (Z.min (max_simultaneous_balls (params s) - len (balls_in_flight (anim s)))
                (n_balls (params s) - balls_dropped (anim s))) in
  admit_loop fuel s
  = upd_anim (set_balls_dropped (balls_dropped (anim s) + Z.max 0 k))
      (upd_anim (set_balls_in_flight
                   (balls_in_flight (anim s) ++ (new_ball <$> seqZ (balls_dropped (anim s)) k)))
         s).
Proof.
  revert s. induction fuel as [|fuel IH]; intros s Hpeg k; cbn [admit_loop].
  - assert (k ≤ 0) as Hk by lia. rewrite seqZ_nil by done.
    replace (Z.max 0 k) with 0 by lia. cbn [fmap list_fmap]. rewrite app_nil_r, Z.add_0_r.
    by destruct s as [? [] ? ? ?].
  - unfold may_admit. 
    destruct (Z.ltb_spec (len (balls_in_flight (anim s))) (max_simultaneous_balls (params s)));
      cbn [andb]; cycle 1.
    { assert (k ≤ 0) as Hk by lia. rewrite seqZ_nil by done.
      replace (Z.max 0 k) with 0 by lia. cbn [fmap list_fmap]. rewrite app_nil_r, Z.add_0_r.
      by destruct s as [? [] ? ? ?]. }
    destruct (Z.ltb_spec (balls_dropped (anim s)) (n_balls (params s))); cycle 1.
    { assert (k ≤ 0) as Hk by lia. rewrite seqZ_nil by done.
      replace (Z.max 0 k) with 0 by lia. cbn [fmap list_fmap]. rewrite app_nil_r, Z.add_0_r.
      by destruct s as [? [] ? ? ?]. }
    rewrite IH by (rewrite admit_ball_new by done; by destruct s as [? [] ? ? ?]).
    rewrite admit_ball_new by done.
    assert (0 < k) as Hk by lia.
    rewrite (seqZ_cons _ k) by done. cbn [fmap list_fmap].
    destruct s as [[nb nr pr sp cap] [paths flight dropped dc bf pa st rc] ? ? ?].
    cbn in *. rewrite len_app in *. change (len [_]) with 1 in *.
    rewrite <- app_assoc. cbn [app].
    replace (Z.min (Z.of_nat fuel)
               (Z.min (cap - (len flight + 1)) (nb - (dropped + 1)))) with (Z.pred k) by lia.
    replace (Z.succ dropped) with (dropped + 1) by lia.
    do 2 f_equal. lia.
Qed.

(** [start_next_balls] admits as many balls as there are free places and
    balls left, numbered from [balls_dropped] on. *)
Lemma start_next_balls_new s :
  peg_positions (geometry s) !! (0, 0) = Some (600, 160) →
  let k := Z.min (max_simultaneous_balls (params s) - len (balls_in_flight (anim s)))
             (n_balls (params s) - balls_dropped (anim s)) in
  start_next_balls s
  = upd_anim (set_balls_dropped (balls_dropped (anim s) + Z.max 0 k))
      (upd_anim (set_balls_in_flight
                   (balls_in_flight (anim s) ++ (new_ball <$> seqZ (balls_dropped (anim s)) k)))
         s).
Proof.
  intros Hpeg k. unfold start_next_balls. rewrite admit_loop_new by done. cbn zeta.
  set (k' := Z.min _ _).
  destruct (decide (0 < k)) as [Hk|Hk].
  - replace k' with k by lia. done.
  - rewrite (seqZ_nil _ k), (seqZ_nil _ k') by lia.
    replace (Z.max 0 k') with (Z.max 0 k) by lia. done.
Qed.

(** ** One ball, one tick: the body of the loop never raises *)

Lemma contained_bounds x y :
  contained x y = true →
  (∀ k, x = PInt k → 320 ≤ k ≤ 880) ∧ (∀ k, y = PInt k → 120 ≤ k ≤ 560).
Proof.
  intros Hc. split; intros k ->.
  - destruct y as [ky|fy]; unfold contained, py_le in Hc;
      cbn [ax ay awidth aheight board_area] in Hc; unfold board_margin, header_height in Hc;
      rewrite !andb_true_iff, !Z.leb_le in Hc; lia.
  - destruct x as [kx|fx]; unfold contained, py_le in Hc;
      cbn [ax ay awidth aheight board_area] in Hc; unfold board_margin, header_height in Hc;
      rewrite !andb_true_iff, !Z.leb_le in Hc; lia.
Qed.

Lemma distance_sq_small x y tx ty z :
  contained x y = true → contained (PInt tx) (PInt ty) = true →
  py_add (py_mul (py_sub (PInt tx) x) (py_sub (PInt tx) x))
    (py_mul (py_sub (PInt ty) y) (py_sub (PInt ty) y)) = PInt z →
  z < 2 ^ 53.
Proof.
  intros [Hx Hy]%contained_bounds Ht%contained_int.
  destruct x as [kx|], y as [ky|]; cbn [py_add py_mul py_sub]; try done.
  intros [= <-]. specialize (Hx _ eq_refl). specialize (Hy _ eq_refl).
  change (2 ^ 53) with 9007199254740992.
  assert ((tx - kx) * (tx - kx) ≤ 560 * 560) by nia.
  assert ((ty - ky) * (ty - ky) ≤ 440 * 440) by nia.
  lia.
Qed.

Lemma ball_ok_frame s s' b :
  params s' = params s → ball_paths (anim s') = ball_paths (anim s) →
  balls_dropped (anim s') = balls_dropped (anim s) → geometry s' = geometry s →
  ball_ok s b → ball_ok s' b.
Proof.
  intros Hp Hpa Hd Hg [Hi Hr Hc (x & y & Hx & Hy & Ht)].
  constructor; rewrite ?Hp, ?Hd; try done.
  exists x, y. repeat split; try done.
  unfold target_of, get_peg_position, get_bin_position in *. by rewrite Hp, Hpa, Hg.
Qed.

Section BallStep.
Context `{NumPy}.

Lemma advance_ball_step i b s rm :
  5 ≤ n_rows (params s) ≤ 18 →
  compute_geometry (n_rows (params s)) = Ok (geometry s) →
  balls_dropped (anim s) ≤ len (ball_paths (anim s)) →
  Forall (λ path, len path = n_rows (params s)) (ball_paths (anim s)) →
  ball_ok s b →
  ∃ s' rm',
    advance_ball i b s rm = Ok (s', rm')
    ∧ ((rm' = rm
        ∧ ∃ b', s' = upd_anim (set_balls_in_flight (<[i := b']> (balls_in_flight (anim s)))) s
                ∧ ball_index b' = ball_index b ∧ ball_ok s b')
       ∨ (rm' = rm ++ [i]
          ∧ ∃ path v, path ∈ ball_paths (anim s) ∧ last path = Some v
                      ∧ s' = record_outcome v s)).
Proof.
  intros Hrows Hgeo Hdropped Hpaths [Hindex Hrow [Hcb Hct] (tx & ty & Htx & Hty & Htarget)].
  destruct b as [idx row x0 y0 tx0 ty0].
  cbn [ball_index current_row bx by_ target_x target_y] in *. subst tx0 ty0.
  unfold advance_ball. cbn [ball_index current_row bx by_ target_x target_y].
  rewrite (clamp_position_int tx ty) by done.
  destruct (clamp_position_spec x0 y0) as (_ & Hcxy & _).
  destruct (clamp_position x0 y0) as [x y]. cbn [fst snd] in Hcxy.
  destruct (py_getitem_lookup (ball_paths (anim s)) idx ltac:(lia)) as (path & Hpath & Hget).
  assert (len path = n_rows (params s)) as Hlen.
  { rewrite Forall_lookup in Hpaths. by eapply Hpaths. }
  assert (path ∈ ball_paths (anim s)) as Hin by by eapply list_elem_of_lookup_2.
  destruct (py_lt _ _) eqn:Harrived.
  - rewrite (clamp_position_int tx ty) by done.
    destruct (Z.ltb_spec row (n_rows (params s))) as [Hnext|Hlast].
    + rewrite Hget. cbn [mbind result_bind].
      destruct (Z.ltb_spec (row + 1) (n_rows (params s))) as [Hpeg|Hbin].
      * destruct (py_getitem_lookup path (row + 1) ltac:(lia)) as (col & Hcol & ->).
        cbn [mbind result_bind].
        pose proof (peg_contained s Hrows Hgeo (row + 1) col) as Hc.
        destruct (get_peg_position s (row + 1) col) as [px py] eqn:Hp. cbn [fst snd] in *.
        rewrite (clamp_position_int px py) by done.
        eexists _, _. split; [done|]. left. split; [done|].
        eexists. split; [done|]. split; [done|].
        constructor; cbn [ball_index current_row bx by_ target_x target_y]; [done|lia|done|].
        exists px, py. split; [done|]. split; [done|].
        unfold target_of. cbn [ball_index current_row]. rewrite Hpath. cbn [mbind option_bind].
        destruct (Z.eqb_spec (row + 1) 0); [lia|].
        destruct (Z.ltb_spec (row + 1) (n_rows (params s))); [|lia].
        rewrite Hcol. cbn [mbind option_bind]. by rewrite Hp.
      * destruct (py_getitem_final path ltac:(lia)) as (v & Hv & ->).
        cbn [mbind result_bind].
        pose proof (bin_contained s Hrows Hgeo v) as Hc.
        destruct (get_bin_position s v) as [px py] eqn:Hp. cbn [fst snd] in *.
        rewrite (clamp_position_int px py) by done.
        eexists _, _. split; [done|]. left. split; [done|].
        eexists. split; [done|]. split; [done|].
        constructor; cbn [ball_index current_row bx by_ target_x target_y]; [done|lia|done|].
        exists px, py. split; [done|]. split; [done|].
        unfold target_of. cbn [ball_index current_row]. rewrite Hpath. cbn [mbind option_bind].
        destruct (Z.eqb_spec (row + 1) 0); [lia|].
        destruct (Z.ltb_spec (row + 1) (n_rows (params s))); [lia|].
        rewrite Hv. cbn [mbind option_bind]. by rewrite Hp.
    + rewrite Hget. cbn [mbind result_bind].
      destruct (py_getitem_final path ltac:(lia)) as (v & Hv & ->).
      cbn [mbind result_bind].
      eexists _, _. split; [done|]. right. split; [done|]. by exists path, v.
  - set (distance_sq := py_add _ _) in *.
    assert (∃ new, (if py_gt distance_sq (PInt 0)
                    then
                      distance ← math_sqrt distance_sq;
                      step_x ← py_div (py_mul (PInt (effective_speed s)) (py_sub (PInt tx) x))
                                 (PFloat distance);
                      step_y ← py_div (py_mul (PInt (effective_speed s)) (py_sub (PInt ty) y))
                                 (PFloat distance);
                      Ok (py_add x step_x, py_add y step_y)
                    else Ok (x, y)) = Ok new) as [new ->].
    { destruct (py_gt distance_sq (PInt 0)) eqn:Hpos; [|by eexists].
      destruct (math_sqrt_pos distance_sq Hpos) as (r & -> & Hr).
      { intros z Hz. by eapply distance_sq_small. }
      cbn [mbind result_bind]. unfold py_div. rewrite Hr. cbn [mbind result_bind].
      by eexists. }
    cbn [mbind result_bind].
    destruct (clamp_position_spec new.1 new.2) as (_ & Hcnew & _).
    destruct (clamp_position new.1 new.2) as [nx ny]. cbn [fst snd] in Hcnew.
    eexists _, _. split; [done|]. left. split; [done|].
    eexists. split; [done|]. split; [done|].
    constructor; cbn [ball_index current_row bx by_ target_x target_y]; [done|done|done|].
    by exists tx, ty.
Qed.
End BallStep.

(** ** The loop over the balls in flight *)

Lemma removable_le indices n m : removable indices n → (n ≤ m)%nat → removable indices m.
Proof. destruct indices as [|i rest]; cbn; [done|]. intros [? ?] ?. split; [lia|done]. Qed.

Section LoopFacts.
Context `{NumPy}.

Lemma flight_facts_insert s i b b' :
  flight_facts s →
  balls_in_flight (anim s) !! i = Some b →
  ball_index b' = ball_index b → ball_ok s b' →
  flight_facts (upd_anim (set_balls_in_flight (<[i := b']> (balls_in_flight (anim s)))) s).
Proof.
  intros [Hcount Hrows Hballs Hsorted Hout] Hb Hindex Hok.
  destruct s as [? [] ? ? ?]. cbn in *.
  constructor; cbn; try done.
  - apply Forall_insert.
    + eapply Forall_impl; [exact Hballs|]. intros c. by apply ball_ok_frame.
    + revert Hok. by apply ball_ok_frame.
  - rewrite list_fmap_insert, list_insert_id; [done|].
    by rewrite list_lookup_fmap, Hb, Hindex.
Qed.

Lemma flight_facts_record s v :
  flight_facts s → 0 ≤ v < len (bins_count (results s)) →
  flight_facts (record_outcome v s).
Proof.
  intros [Hcount Hrows Hballs Hsorted Hout] Hv.
  destruct (record_outcome_anim v s) as (Ha & Hp & Hg).
  constructor; rewrite ?Ha, ?Hp; try done.
  - eapply Forall_impl; [done|]. intros c. apply ball_ok_frame; by rewrite ?Ha.
  - by apply record_outcome_outcome_facts.
Qed.

Lemma advance_ball_flight i b s rm k :
  5 ≤ n_rows (params s) ≤ 18 →
  compute_geometry (n_rows (params s)) = Ok (geometry s) →
  balls_in_flight (anim s) !! i = Some b →
  flight_facts s → run_facts k s → Forall (λ c, 0 ≤ c) (bins_count (results s)) →
  ∃ s' rm',
    advance_ball i b s rm = Ok (s', rm')
    ∧ flight_facts s'
    ∧ (rm' = rm ∧ positions (results s') = positions (results s)
       ∨ rm' = rm ++ [i] ∧ ∃ v, positions (results s') = positions (results s) ++ [v]).
Proof.
  intros Hrows Hgeo Hb Hff Hrf Hnn.
  pose proof Hff as [Hcount Hprows Hballs Hsorted Hout].
  assert (ball_ok s b) as Hok.
  { rewrite Forall_lookup in Hballs. by eapply Hballs. }
  pose proof (rf_dropped _ _ Hrf) as Hdropped.
  destruct (advance_ball_step i b s rm Hrows Hgeo ltac:(lia) Hprows Hok)
    as (s' & rm' & Hs & [(-> & b' & -> & Hindex & Hok')|(-> & path & v & Hpath & Hv & ->)]).
  - eexists _, rm. split; [done|]. split; [by eapply flight_facts_insert|].
    left. split; [done|]. by destruct s as [? [] ? ? ?].
  - pose proof (rf_outcomes _ _ Hrf path v Hpath Hv) as Hvalid.
    eexists _, _. split; [done|]. split; [by apply flight_facts_record|].
    right. split; [done|]. exists v.
    destruct (record_outcome_valid v s Hvalid) as (om & os & w & -> & _).
    by destruct s as [? ? [] ? ?].
Qed.

Lemma advance_balls_flight todo i s rm k :
  5 ≤ n_rows (params s) ≤ 18 →
  compute_geometry (n_rows (params s)) = Ok (geometry s) →
  flight_facts s → run_facts k s → Forall (λ c, 0 ≤ c) (bins_count (results s)) →
  removable (reverse rm) i →
  ∃ s' rm' vs,
    advance_balls todo i s rm = Ok (s', rm')
    ∧ flight_facts s'
    ∧ removable (reverse rm') (length (balls_in_flight (anim s')) `max` i)
    ∧ positions (results s') = positions (results s) ++ vs
    ∧ length rm' = (length rm + length vs)%nat.
Proof.
  revert i s rm k. induction todo as [|todo IH]; intros i s rm k Hrows Hgeo Hff Hrf Hnn Hrm;
    cbn [advance_balls].
  - exists s, rm, []. split; [done|]. split; [done|].
    split; [eapply removable_le; [done|lia]|]. split; [by rewrite app_nil_r|cbn; lia].
  - destruct (balls_in_flight (anim s) !! i) as [b|] eqn:Hb; cycle 1.
    { exists s, rm, []. split; [done|]. split; [done|].
      split; [eapply removable_le; [done|lia]|]. split; [by rewrite app_nil_r|cbn; lia]. }
    destruct (advance_ball_flight i b s rm k Hrows Hgeo Hb Hff Hrf Hnn)
      as (s1 & rm1 & Hs1 & Hff1 & Hcases).
    rewrite Hs1. cbn [mbind result_bind fst snd].
    destruct (advance_ball_facts i b s rm s1 rm1 k Hs1 Hrf Hnn) as (Hfr & Hlen & Hrf1 & Hnn1).
    assert (removable (reverse rm1) (S i)) as Hrm1.
    { destruct Hcases as [[-> _]|[-> _]].
      - eapply removable_le; [done|lia].
      - rewrite reverse_snoc. cbn. split; [lia|done]. }
    destruct (IH (S i) s1 rm1 _ ltac:(by rewrite (lf_params _ _ Hfr))
                ltac:(by rewrite (lf_params _ _ Hfr), (lf_geometry _ _ Hfr))
                Hff1 Hrf1 Hnn1 Hrm1) as (s2 & rm2 & vs & Hs2 & Hff2 & Hrm2 & Hpos & Hlen2).
    assert (length (balls_in_flight (anim s2)) = length (balls_in_flight (anim s))) as Hlen'.
    { destruct (advance_balls_facts _ _ _ _ _ _ _ Hs2 Hrf1 Hnn1) as (_ & -> & _). done. }
    assert (i < length (balls_in_flight (anim s)))%nat as Hi by by eapply lookup_lt_Some.
    destruct Hcases as [[-> Hp]|[-> [v Hp]]].
    + exists s2, rm2, vs. split; [done|]. split; [done|]. split.
      { eapply removable_le; [done|lia]. }
      split; [by rewrite Hpos, Hp|done].
    + exists s2, rm2, (v :: vs). split; [done|]. split; [done|]. split.
      { eapply removable_le; [done|lia]. }
      split; [by rewrite Hpos, Hp, <- app_assoc|].
      rewrite Hlen2, length_app. cbn. lia.
Qed.
End LoopFacts.

(** ** The removals *)

Lemma removable_length indices n : removable indices n → (length indices ≤ n)%nat.
Proof.
  revert n. induction indices as [|i rest IH]; intros n; cbn; [lia|].
  intros [Hi Hrest]. specialize (IH i Hrest). lia.
Qed.

Lemma remove_loop_total indices s :
  removable indices (length (balls_in_flight (anim s))) →
  for_each
    (λ index s, l ← py_pop (balls_in_flight (anim s)) index;
                Ok (upd_anim (set_balls_in_flight l) s))
    indices s
  = Ok (upd_anim
          (set_balls_in_flight (foldl (λ l i, delete i l) (balls_in_flight (anim s)) indices))
          s).
Proof.
  revert s. induction indices as [|i rest IH]; intros s; cbn [for_each foldl removable].
  - intros _. by destruct s as [? [] ? ? ?].
  - intros [Hi Hrest]. unfold py_pop. destruct (decide _) as [_|]; [|done].
    cbn [mbind result_bind]. rewrite IH.
    + by destruct s as [? [] ? ? ?].
    + eapply removable_le; [done|].
      assert (length (delete i (balls_in_flight (anim s)))
              = (length (balls_in_flight (anim s)) - 1)%nat) as Hlen.
      { apply length_delete. by apply lookup_lt_is_Some. }
      destruct s as [? [] ? ? ?]. cbn in *. lia.
Qed.

Lemma remove_balls_total rm s :
  removable (reverse rm) (length (balls_in_flight (anim s))) →
  remove_balls rm s
  = Ok (upd_anim
          (set_balls_in_flight
             (foldl (λ l i, delete i l) (balls_in_flight (anim s)) (reverse rm))) s).
Proof. apply remove_loop_total. Qed.

Lemma Forall_foldl_delete {A} (P : A → Prop) (l : list A) indices :
  Forall P l → Forall P (foldl (λ l i, delete i l) l indices).
Proof.
  revert l. induction indices as [|i rest IH]; intros l Hl; cbn [foldl]; [done|].
  by apply IH, Forall_delete.
Qed.

Lemma increasing_foldl_delete {A} (f : A → Z) (l : list A) indices :
  increasing (f <$> l) → increasing (f <$> foldl (λ l i, delete i l) l indices).
Proof.
  revert l. induction indices as [|i rest IH]; intros l Hl; cbn [foldl]; [done|].
  apply IH. rewrite list_fmap_delete. by apply increasing_delete.
Qed.

(** ** The tick *)

Lemma tick_frame_refl s : tick_frame s s.
Proof. by constructor. Qed.

Lemma tick_frame_trans s1 s2 s3 : tick_frame s1 s2 → tick_frame s2 s3 → tick_frame s1 s3.
Proof. intros [] []. constructor; congruence. Qed.

Section TickTotal.
Context `{NumPy}.

Lemma record_outcome_tick_frame v s : tick_frame s (record_outcome v s).
Proof.
  unfold record_outcome. destruct (_ && _); [|apply tick_frame_refl].
  destruct (_ mod 5 =? 0); destruct (plot_update_interval <=? _);
    constructor; by destruct s as [? ? [] ? []].
Qed.

Lemma advance_ball_tick_frame i b s rm s' rm' :
  advance_ball i b s rm = Ok (s', rm') → tick_frame s s'.
Proof.
  intros [(_ & b' & ->)|(_ & path & v & _ & _ & ->)]%advance_ball_Ok.
  - constructor; by destruct s as [? [] ? ? ?].
  - apply record_outcome_tick_frame.
Qed.

Lemma advance_balls_tick_frame todo i s rm s' rm' :
  advance_balls todo i s rm = Ok (s', rm') → tick_frame s s'.
Proof.
  revert i s rm. induction todo as [|todo IH]; intros i s rm; cbn [advance_balls].
  - intros [= <- <-]. apply tick_frame_refl.
  - destruct (balls_in_flight (anim s) !! i) as [b|]; [|intros [= <- <-]; apply tick_frame_refl].
    intros Hs. bind_split Hs as [s1 rm1] Hs1. cbn [fst snd] in Hs.
    eapply tick_frame_trans; [by eapply advance_ball_tick_frame|by eapply IH].
Qed.

Lemma flight_facts_next s :
  peg_positions (geometry s) !! (0, 0) = Some (600, 160) →
  1 ≤ n_rows (params s) →
  balls_dropped (anim s) ≤ n_balls (params s) → 0 ≤ balls_dropped (anim s) →
  flight_facts s → flight_facts (start_next_balls s).
Proof.
  intros Hpeg Hrows Hdropped Hnn [Hcount Hprows Hballs Hsorted Hout].
  rewrite start_next_balls_new by done. cbn zeta.
  set (k := Z.min _ _).
  assert (∀ j, balls_dropped (anim s) ≤ j < balls_dropped (anim s) + k →
               ball_ok (upd_anim (set_balls_dropped (balls_dropped (anim s) + Z.max 0 k)) s)
                 (new_ball j)) as Hnew.
  { intros j Hj. constructor; cbn [new_ball ball_index current_row bx by_ target_x target_y].
    - destruct s as [? [] ? ? ?]. cbn in *. lia.
    - destruct s as [? [] ? ? ?]. cbn in *. lia.
    - done.
    - exists 600, 160. split; [done|]. split; [done|].
      unfold target_of, get_peg_position. cbn [new_ball ball_index current_row].
      destruct (ball_paths (anim s) !! Z.to_nat j) as [path|] eqn:Hpath.
      + replace (ball_paths (anim
                   (upd_anim (set_balls_dropped (balls_dropped (anim s) + Z.max 0 k)) s)))
          with (ball_paths (anim s)) by by destruct s as [? [] ? ? ?].
        rewrite Hpath. cbn.
        replace (geometry
                   (upd_anim (set_balls_dropped (balls_dropped (anim s) + Z.max 0 k)) s))
          with (geometry s) by by destruct s as [? [] ? ? ?].
        by rewrite Hpeg.
      + apply lookup_ge_None in Hpath. unfold len in *. lia. }
  destruct s as [? [paths flight dropped dc bf pa st rc] ? ? ?]. cbn in *.
  constructor; cbn; try done.
  - apply Forall_app. split.
    + eapply Forall_impl; [exact Hballs|]. intros c [Hi Hr Hc Ht].
      constructor; cbn in *; try done. lia.
    + apply Forall_fmap, Forall_forall. intros j Hj%elem_of_seqZ.
      specialize (Hnew j Hj). revert Hnew. by apply ball_ok_frame.
  - rewrite fmap_app, <- list_fmap_compose.
    replace (ball_index ∘ new_ball <$> seqZ dropped k) with (seqZ dropped k)
      by (rewrite <- (list_fmap_id (seqZ _ _)) at 1; by apply list_fmap_ext).
    apply increasing_app_seqZ; [done|].
    apply Forall_fmap. eapply Forall_impl; [exact Hballs|]. intros c [Hi _ _ _]. cbn in *. lia.
Qed.

Lemma flight_facts_delay s d :
  flight_facts s → flight_facts (upd_anim (set_delay_counter d) s).
Proof.
  intros [Hcount Hprows Hballs Hsorted Hout].
  destruct s as [? [] ? ? ?]. cbn in *. constructor; cbn; try done.
  eapply Forall_impl; [exact Hballs|]. intros c. by apply ball_ok_frame.
Qed.

Lemma flight_facts_admission s :
  peg_positions (geometry s) !! (0, 0) = Some (600, 160) →
  1 ≤ n_rows (params s) →
  balls_dropped (anim s) ≤ n_balls (params s) → 0 ≤ balls_dropped (anim s) →
  flight_facts s → flight_facts (admission_phase s) ∧ tick_frame s (admission_phase s).
Proof.
  intros Hpeg Hrows Hdropped Hnn Hff.
  unfold admission_phase. destruct (py_gt _ _).
  { split; [by apply flight_facts_delay|constructor; by destruct s as [? [] ? ? ?]]. }
  split; [by apply flight_facts_delay, flight_facts_next|].
  rewrite start_next_balls_new by done. constructor; by destruct s as [? [] ? ? ?].
Qed.
End TickTotal.

Section TickFlight.
Context `{NumPy}.

Lemma outcome_facts_frame r r' :
  positions r' = positions r → bins_count r' = bins_count r →
  balls_completed r' = balls_completed r →
  observed_mean r' = observed_mean r → observed_std r' = observed_std r →
  outcome_facts r → outcome_facts r'.
Proof. intros Hp Hb Hc Hm Hs []. constructor; by rewrite ?Hp, ?Hb, ?Hc, ?Hm, ?Hs. Qed.

Lemma flight_facts_frame s s' :
  params s' = params s → ball_paths (anim s') = ball_paths (anim s) →
  balls_dropped (anim s') = balls_dropped (anim s) → geometry s' = geometry s →
  balls_in_flight (anim s') = balls_in_flight (anim s) →
  (outcome_facts (results s) → outcome_facts (results s')) →
  flight_facts s → flight_facts s'.
Proof.
  intros Hp Hpa Hd Hg Hb Hr [Hcount Hrows Hballs Hsorted Hout].
  constructor; rewrite ?Hp, ?Hpa, ?Hb; try done; [|by apply Hr].
  eapply Forall_impl; [exact Hballs|]. intros c. by apply ball_ok_frame.
Qed.

Lemma flight_facts_removed s indices :
  flight_facts s →
  flight_facts (upd_anim (set_balls_in_flight
                            (foldl (λ l i, delete i l) (balls_in_flight (anim s)) indices)) s).
Proof.
  intros [Hcount Hrows Hballs Hsorted Hout].
  destruct s as [? [] ? ? ?]. cbn in *. constructor; cbn; try done.
  - apply Forall_foldl_delete. eapply Forall_impl; [exact Hballs|].
    intros c. by apply ball_ok_frame.
  - by apply increasing_foldl_delete.
Qed.

Lemma flight_facts_completion s : flight_facts s → flight_facts (completion_check s).
Proof.
  unfold completion_check. destruct (_ && _); [|done].
  apply flight_facts_frame; try (by destruct s as [? [] [] ? []]).
  apply outcome_facts_frame; by destruct s as [? [] [] ? []].
Qed.

Lemma completion_check_tick_frame s : tick_frame s (completion_check s).
Proof.
  unfold completion_check. destruct (_ && _); [|apply tick_frame_refl].
  constructor; by destruct s as [? [] [] ? []].
Qed.

(** A tick of a run in progress never raises; it keeps the facts of the
    flight and appends the outcomes of the balls it removes. *)
Lemma update_animation_total s :
  inv s → config_facts s → ball_falling (anim s) = true → flight_facts s →
  ∃ s' vs,
    update_animation s = Ok s' ∧ flight_facts s' ∧ tick_frame s s'
    ∧ positions (results s') = positions (results s) ++ vs.
Proof.
  intros Hinv Hcf Hf Hff.
  destruct (paused (anim s)) eqn:Hp.
  { exists s, []. rewrite update_animation_closed by auto.
    rewrite app_nil_r. split; [done|]. split; [done|]. split; [apply tick_frame_refl|done]. }
  destruct (inv_run s Hinv Hf) as (Hst & Hsc & Hrf).
  pose proof (vp_rows _ (inv_params s Hinv)) as Hrows.
  pose proof (cf_geometry s Hcf) as Hgeo.
  destruct (geometry_ok_unfold s Hrows Hgeo) as (_ & _ & _ & Hpeg).
  pose proof (len_nonneg (positions (results s))) as Hnn.
  pose proof (len_nonneg (balls_in_flight (anim s))) as Hnn'.
  assert (0 ≤ balls_dropped (anim s)) as Hd0.
  { pose proof (rf_accounting _ _ Hrf). pose proof (rf_positions _ _ Hrf). lia. }
  destruct (flight_facts_admission s Hpeg ltac:(lia) (rf_dropped _ _ Hrf) Hd0 Hff)
    as [Hff1 Hfr1].
  destruct (admission_phase_facts s Hrf) as (Hlfd & Hrf1 & Hres).
  unfold update_animation. rewrite Hf, Hp, Hst. cbn [negb orb].
  revert Hff1 Hfr1 Hlfd Hrf1 Hres. generalize (admission_phase s). intros s1 Hff1 Hfr1 Hlfd Hrf1 Hres.
  destruct (advance_balls_flight (length (balls_in_flight (anim s1))) 0 s1 [] 0)
    as (s2 & rm2 & vs & Hs2 & Hff2 & Hrm2 & Hpos & _).
  { by rewrite (lfd_params _ _ Hlfd). }
  { by rewrite (lfd_params _ _ Hlfd), (lfd_geometry _ _ Hlfd). }
  { done. }
  { done. }
  { rewrite Hres. apply Hinv. }
  { done. }
  rewrite Hs2. cbn [mbind result_bind fst snd].
  rewrite Nat.max_0_r in Hrm2. rewrite (remove_balls_total rm2 s2 Hrm2).
  cbn [mbind result_bind].
  eexists _, vs. split; [done|]. split; [|split].
  - by apply flight_facts_completion, flight_facts_removed.
  - eapply tick_frame_trans; [exact Hfr1|].
    eapply tick_frame_trans; [by eapply advance_balls_tick_frame|].
    eapply tick_frame_trans; [|apply completion_check_tick_frame].
    constructor; by destruct s2 as [? [] ? ? ?].
  - rewrite <- Hres, <- Hpos.
    unfold completion_check. destruct (_ && _); by destruct s2 as [? [] [] ? []].
Qed.
End TickFlight.

(** ** Start, reset and the sliders never raise *)

Section StartFacts.
Context `{NumPy}.

(** The paths [generate_ball_paths] draws with the generator at [calls]. *)
Lemma start_animation_spec s :
  5 ≤ n_rows (params s) ≤ 18 →
  ∃ g,
    compute_geometry (n_rows (params s)) = Ok g
    ∧ start_animation s
      = Ok {| params := params s;
              anim :=
                {| ball_paths :=
                     (λ b, (λ r, successes (probability (params s))
                                   (rng_calls (anim s)
                                    + b * Z.to_nat (n_rows (params s))) (S r))
                           <$> seq 0 (Z.to_nat (n_rows (params s))))
                     <$> seq 0 (Z.to_nat (n_balls (params s)));
                   balls_in_flight :=
                     new_ball <$> seqZ 0 (Z.min (max_simultaneous_balls (params s))
                                            (n_balls (params s)));
                   balls_dropped :=
                     Z.max 0 (Z.min (max_simultaneous_balls (params s)) (n_balls (params s)));
                   delay_counter := PInt 0;
                   ball_falling := true; paused := false; stopped := false;
                   rng_calls :=
                     (rng_calls (anim s)
                      + Z.to_nat (n_balls (params s)) * Z.to_nat (n_rows (params s)))%nat |};
              results :=
                {| positions := [];
                   bins_count := replicate (Z.to_nat (n_rows (params s) + 1)) 0;
                   balls_completed := 0;
                   observed_mean := PInt 0; observed_std := PInt 0;
                   theoretical_mean := theoretical_mean (results s);
                   theoretical_std := theoretical_std (results s);
                   simulation_complete := false |};
              geometry := g;
              widgets :=
                set_plot_needs_update true (set_plot_update_counter 0 (widgets s)) |}.
Proof.
  intros Hrows.
  destruct (compute_geometry_total _ Hrows) as [g Hg]. exists g. split; [done|].
  destruct (update_bins_array_size_total s ltac:(lia)) as [s1 Hs1].
  pose proof (update_bins_array_size_Ok _ _ Hs1) as [_ ->].
  unfold start_animation. rewrite Hs1. cbn [mbind result_bind].
  match goal with |- context [precalculate_positions ?s0] =>
    destruct (precalculate_positions_total s0) as [s2 Hs2];
      [by destruct s as [[] [] [] ? []]|];
    rewrite Hs2; apply precalculate_positions_Ok in Hs2 as (g' & Hg' & ->)
  end.
  assert (g' = g) as -> by (destruct s as [[] [] [] ? []]; cbn in *; congruence).
  clear Hg' Hs1.
  assert (peg_positions g !! (0, 0) = Some (600, 160)) as Hpeg.
  { destruct (geometry_ok_unfold (upd_geometry (λ _, g) s)) as (_ & _ & _ & Hpeg);
      by destruct s as [[] [] [] ? []]. }
  cbn [mbind result_bind]. f_equal.
  unfold generate_ball_paths. rewrite generate_paths_spec. cbn [app].
  rewrite start_next_balls_new by (by destruct s as [[] [] [] ? []]).
  destruct s as [[] [] [] ? []]. cbn.
  rewrite length_resize, resize_replicate, !Z.sub_0_r, ?Z.add_0_l. done.
Qed.

Lemma start_animation_facts s :
  valid_params (params s) → config_facts s →
  ∃ s', start_animation s = Ok s' ∧ config_facts s' ∧ flight_facts s'
        ∧ ball_falling (anim s') = true.
Proof.
  intros [Hballs Hstep Hrows Hprob Hspeed Hmulti] [Hvb Hvr Hvp Hvs Hvm Htm Hts Hgeo].
  destruct (start_animation_spec s Hrows) as (g & Hg & ->).
  assert (g = geometry s) as -> by congruence.
  destruct (geometry_ok_unfold s Hrows Hgeo) as (_ & _ & _ & Hpeg).
  eexists. split; [done|]. split; [|split; [|done]].
  - constructor; cbn; try done; by destruct s as [? ? ? ? []].
  - constructor; cbn.
    + unfold len. rewrite length_fmap, length_seq. lia.
    + apply Forall_fmap, Forall_forall. intros b _. cbn.
      unfold len. rewrite length_fmap, length_seq. lia.
    + apply Forall_fmap, Forall_forall. intros j Hj%elem_of_seqZ. cbn.
      constructor; cbn; [lia|lia|done|].
      exists 600, 160. split; [done|]. split; [done|].
      unfold target_of, get_peg_position. cbn.
      rewrite list_lookup_fmap, lookup_seq_lt by lia. cbn. by rewrite Hpeg.
    + rewrite <- list_fmap_compose.
      replace (ball_index ∘ new_ball <$> seqZ 0 (Z.min (max_simultaneous_balls (params s))
                                                (n_balls (params s))))
        with ([] ++ seqZ 0 (Z.min (max_simultaneous_balls (params s)) (n_balls (params s))))
        by (cbn [app]; rewrite <- (list_fmap_id (seqZ _ _)) at 1; by apply list_fmap_ext).
      apply increasing_app_seqZ; [apply increasing_nil|done].
    + by eapply outcome_facts_empty.
Qed.

(** [reset_parameters] never raises, whatever the state. *)
Lemma reset_parameters_spec s :
  ∃ g,
    compute_geometry 12 = Ok g
    ∧ reset_parameters s
      = Ok {| params := default_params;
              anim :=
                {| ball_paths := ball_paths (anim s);
                   balls_in_flight := [];
                   balls_dropped := balls_dropped (anim s);
                   delay_counter := delay_counter (anim s);
                   ball_falling := false; paused := false; stopped := false;
                   rng_calls := rng_calls (anim s) |};
              results :=
                {| positions := [];
                   bins_count := replicate 13 0;
                   balls_completed := 0;
                   observed_mean := observed_mean (results s);
                   observed_std := observed_std (results s);
                   theoretical_mean := py_mul (PInt 12) (PFloat 0.5);
                   theoretical_std :=
                     PFloat (sqrt (to_float (py_mul (py_mul (PInt 12) (PFloat 0.5))
                                               (py_sub (PInt 1) (PFloat 0.5)))));
                   simulation_complete := false |};
              geometry := g;
              widgets :=
                {| value_balls := 500; value_rows := 12; value_prob := PFloat 0.5;
                   value_speed := 6; value_multi := 8;
                   dragging := dragging (widgets s); running := running (widgets s);
                   plot_update_counter := plot_update_counter (widgets s);
                   plot_needs_update := true |} |}.
Proof.
  destruct (compute_geometry_total 12 ltac:(lia)) as [g Hg]. exists g. split; [done|].
  unfold reset_parameters.
  match goal with |- context [update_bins_array_size ?s0] =>
    destruct (update_bins_array_size_total s0) as [s1 Hs1];
      [by destruct s as [[] [] [] ? []]|];
    rewrite Hs1; apply update_bins_array_size_Ok in Hs1 as [_ ->]
  end.
  cbn [mbind result_bind].
  match goal with |- precalculate_positions ?s0 = _ =>
    destruct (precalculate_positions_total s0) as [s2 Hs2];
      [unfold calculate_theoretical_values, default_params;
       destruct s as [[] [] [] ? []]; simpl_upd; lia|];
    rewrite Hs2; apply precalculate_positions_Ok in Hs2 as (g' & Hg' & ->)
  end.
  assert (g' = g) as ->.
  { unfold calculate_theoretical_values, default_params in Hg'.
    destruct s as [[] [] [] ? []]. simpl_upd. congruence. }
  f_equal. unfold calculate_theoretical_values, default_params.
  destruct s as [[] [] [] ? []]. simpl_upd.
  rewrite length_resize, !resize_replicate. done.
Qed.

Lemma config_facts_default g s :
  compute_geometry 12 = Ok g →
  params s = default_params → geometry s = g →
  value_balls (widgets s) = 500 → value_rows (widgets s) = 12 →
  value_prob (widgets s) = PFloat 0.5 → value_speed (widgets s) = 6 →
  value_multi (widgets s) = 8 →
  theoretical_mean (results s) = py_mul (PInt 12) (PFloat 0.5) →
  theoretical_std (results s)
  = PFloat (sqrt (to_float (py_mul (py_mul (PInt 12) (PFloat 0.5))
                              (py_sub (PInt 1) (PFloat 0.5))))) →
  config_facts s.
Proof.
  intros Hg Hp Hgs Hvb Hvr Hvp Hvs Hvm Htm Hts.
  constructor; rewrite ?Hp, ?Hgs, ?Hvb, ?Hvr, ?Hvp, ?Hvs, ?Hvm, ?Htm, ?Hts; done.
Qed.

Lemma reset_parameters_facts s :
  ∃ s', reset_parameters s = Ok s' ∧ config_facts s' ∧ ball_falling (anim s') = false.
Proof.
  destruct (reset_parameters_spec s) as (g & Hg & ->).
  eexists. split; [done|]. split; [|done]. by eapply config_facts_default.
Qed.

Lemma init_facts : ∃ s, init = Ok s ∧ config_facts s ∧ ball_falling (anim s) = false.
Proof.
  destruct (compute_geometry_total 12 ltac:(lia)) as [g Hg].
  unfold init.
  match goal with |- context [precalculate_positions ?s0] =>
    destruct (precalculate_positions_total s0) as [s2 Hs2]; [cbn; lia|];
    rewrite Hs2; apply precalculate_positions_Ok in Hs2 as (g' & Hg' & ->)
  end.
  assert (g' = g) as -> by (cbn in *; congruence).
  eexists. split; [done|]. split; [|done]. by eapply config_facts_default.
Qed.
End StartFacts.

(** ** Every handler keeps the facts and never raises *)

Lemma config_facts_frame s s' :
  params s' = params s → geometry s' = geometry s →
  value_balls (widgets s') = value_balls (widgets s) →
  value_rows (widgets s') = value_rows (widgets s) →
  value_prob (widgets s') = value_prob (widgets s) →
  value_speed (widgets s') = value_speed (widgets s) →
  value_multi (widgets s') = value_multi (widgets s) →
  theoretical_mean (results s') = theoretical_mean (results s) →
  theoretical_std (results s') = theoretical_std (results s) →
  config_facts s → config_facts s'.
Proof.
  intros Hp Hg Hvb Hvr Hvp Hvs Hvm Htm Hts [].
  constructor; rewrite ?Hp, ?Hg, ?Hvb, ?Hvr, ?Hvp, ?Hvs, ?Hvm, ?Htm, ?Hts; done.
Qed.

Lemma config_facts_tick s s' : tick_frame s s' → config_facts s → config_facts s'.
Proof. intros []. by apply config_facts_frame. Qed.

Lemma config_facts_recalculated s :
  value_balls (widgets s) = n_balls (params s) →
  value_rows (widgets s) = n_rows (params s) →
  value_prob (widgets s) = probability (params s) →
  value_speed (widgets s) = ball_speed (params s) →
  value_multi (widgets s) = max_simultaneous_balls (params s) →
  compute_geometry (n_rows (params s)) = Ok (geometry s) →
  config_facts (calculate_theoretical_values s).
Proof.
  intros Hvb Hvr Hvp Hvs Hvm Hg. unfold calculate_theoretical_values.
  destruct s as [[] ? [] ? []]. simpl_upd. by constructor.
Qed.

Lemma set_slider_facts name mx s :
  slider_x ≤ mx ≤ slider_x + slider_width →
  config_facts s →
  ∃ s', set_slider name mx s = Ok s' ∧ config_facts s' ∧ anim s' = anim s.
Proof.
  intros Hmx [Hvb Hvr Hvp Hvs Hvm Htm Hts Hg]. unfold set_slider.
  destruct name.
  - destruct (slider_value_int_total Balls mx ltac:(done) Hmx) as (z & Hz).
    bind_split Hz as v Hv. apply as_int_Ok in Hz as ->. rewrite Hv.
    cbn [mbind result_bind as_int]. eexists. split; [done|]. split.
    + apply config_facts_recalculated; by destruct s as [[] ? ? ? []].
    + unfold calculate_theoretical_values. by destruct s as [[] ? [] ? []].
  - destruct (slider_value_int_total Rows mx ltac:(done) Hmx) as (z & Hz).
    bind_split Hz as v Hv. apply as_int_Ok in Hz as ->. rewrite Hv.
    apply slider_value_rounded in Hv as (lo & hi & z' & [= <-] & [= <-] & [= <-] & Hz);
      [|auto].
    cbn [mbind result_bind as_int].
    match goal with |- context [update_bins_array_size ?s0] =>
      destruct (update_bins_array_size_total s0) as [s1 Hs1];
        [destruct s as [[] ? ? ? []]; simpl_upd; lia|];
      rewrite Hs1; apply update_bins_array_size_Ok in Hs1 as [_ ->]
    end.
    cbn [mbind result_bind].
    match goal with |- context [precalculate_positions ?s0] =>
      destruct (precalculate_positions_total s0) as [s2 Hs2];
        [destruct s as [[] ? [] ? []]; simpl_upd; lia|];
      rewrite Hs2; apply precalculate_positions_Ok in Hs2 as (g' & Hg' & ->)
    end.
    cbn [mbind result_bind]. eexists. split; [done|]. split.
    + apply config_facts_recalculated; destruct s as [[] ? [] ? []]; simpl_upd; done.
    + unfold calculate_theoretical_values. by destruct s as [[] ? [] ? []].
  - destruct (slider_value_prob mx Hmx) as (v & -> & _).
    cbn [mbind result_bind]. eexists. split; [done|]. split.
    + apply config_facts_recalculated; by destruct s as [[] ? ? ? []].
    + unfold calculate_theoretical_values. by destruct s as [[] ? [] ? []].
  - destruct (slider_value_int_total Speed mx ltac:(done) Hmx) as (z & Hz).
    bind_split Hz as v Hv. apply as_int_Ok in Hz as ->. rewrite Hv.
    cbn [mbind result_bind as_int]. eexists. split; [done|]. split.
    + apply config_facts_recalculated; by destruct s as [[] ? ? ? []].
    + unfold calculate_theoretical_values. by destruct s as [[] ? [] ? []].
  - destruct (slider_value_int_total Multi mx ltac:(done) Hmx) as (z & Hz).
    bind_split Hz as v Hv. apply as_int_Ok in Hz as ->. rewrite Hv.
    cbn [mbind result_bind as_int]. eexists. split; [done|]. split.
    + apply config_facts_recalculated; by destruct s as [[] ? ? ? []].
    + unfold calculate_theoretical_values. by destruct s as [[] ? [] ? []].
Qed.

Lemma slider_loop_facts names mx my s :
  config_facts s →
  ∃ s' r, slider_loop names mx my s = Ok (s', r) ∧ config_facts s' ∧ anim s' = anim s.
Proof.
  intros Hcf. induction names as [|name names IH]; cbn [slider_loop].
  - by exists s, None.
  - destruct (slider_hit name mx my) eqn:Hhit; [|done].
    apply slider_hit_range in Hhit as [Hmx _].
    destruct (set_slider_facts name mx s Hmx Hcf) as (s' & -> & Hcf' & Ha).
    cbn [mbind result_bind]. by exists s', (Some name).
Qed.

Section HandlerFacts.
Context `{NumPy}.

Lemma program_facts_idle s :
  inv s → config_facts s → ball_falling (anim s) = false → program_facts s.
Proof. intros Hinv Hcf Hf. constructor; [done..|]. by rewrite Hf. Qed.

Lemma handle_slider_input_facts pos s :
  program_facts s →
  ∃ s' r, handle_slider_input pos s = Ok (s', r) ∧ program_facts s' ∧ anim s' = anim s.
Proof.
  intros [Hinv Hcf Hff]. unfold handle_slider_input.
  destruct (ball_falling (anim s)) eqn:Hf; cbn [andb].
  - destruct (inv_run s Hinv Hf) as (-> & _). cbn [negb].
    exists s, None. split; [done|]. split; [|done]. constructor; [done..|]. by rewrite Hf.
  - destruct (slider_loop_facts slider_names pos.1 pos.2 s Hcf) as (s' & r & Hs & Hcf' & Ha).
    exists s', r. split; [done|]. split; [|done].
    apply program_facts_idle; [|done|by rewrite Ha].
    eapply slider_loop_inv; [exact Hinv|exact Hf|exact Hs].
Qed.

Lemma program_facts_flags s s' :
  inv s' →
  params s' = params s → geometry s' = geometry s → results s' = results s →
  ball_paths (anim s') = ball_paths (anim s) →
  balls_dropped (anim s') = balls_dropped (anim s) →
  balls_in_flight (anim s') = balls_in_flight (anim s) →
  (ball_falling (anim s') = true → ball_falling (anim s) = true) →
  value_balls (widgets s') = value_balls (widgets s) →
  value_rows (widgets s') = value_rows (widgets s) →
  value_prob (widgets s') = value_prob (widgets s) →
  value_speed (widgets s') = value_speed (widgets s) →
  value_multi (widgets s') = value_multi (widgets s) →
  program_facts s → program_facts s'.
Proof.
  intros Hinv Hp Hg Hr Hpa Hd Hb Hf Hvb Hvr Hvp Hvs Hvm [_ Hcf Hff].
  constructor; [done| |].
  - revert Hcf. apply config_facts_frame; by rewrite ?Hr.
  - intros Hf'. specialize (Hff (Hf Hf')). revert Hff.
    apply flight_facts_frame; try done. by rewrite Hr.
Qed.

Lemma click_facts name s :
  program_facts s → ∃ s', click name s = Ok s' ∧ program_facts s'.
Proof.
  intros Hpf. pose proof Hpf as [Hinv Hcf Hff]. destruct name; cbn [click].
  - destruct (ball_falling (anim s)) eqn:Hf; cbn [negb]; [by exists s|].
    destruct (start_animation_facts s (inv_params s Hinv) Hcf) as (s' & Hs & Hcf' & Hff' & _).
    exists s'. split; [done|]. constructor; [|done..].
    eapply start_animation_inv; [apply Hinv|done].
  - destruct (ball_falling (anim s)) eqn:Hf; [|by exists s].
    eexists. split; [done|].
    eapply (program_facts_flags s); [by apply toggle_pause_inv|..|done];
      by destruct s as [? [] ? ? ?].
  - destruct (reset_parameters_facts s) as (s' & Hs & Hcf' & Hf').
    exists s'. split; [done|]. apply program_facts_idle; [|done..].
    by eapply reset_parameters_inv.
  - eexists. split; [done|].
    eapply (program_facts_flags s); [by eapply (click_inv Stop s)|..|done];
      by destruct s as [? [] ? ? ?].
Qed.

Lemma handle_button_click_facts pos s :
  program_facts s → ∃ s' r, handle_button_click pos s = Ok (s', r) ∧ program_facts s'.
Proof.
  intros Hpf. unfold handle_button_click. generalize button_names. intros names.
  induction names as [|name names IH]; cbn [button_loop].
  - by exists s, None.
  - destruct (button_hit name _ _); [|done].
    destruct (click_facts name s Hpf) as (s' & -> & Hpf').
    cbn [mbind result_bind]. by exists s', (Some name).
Qed.

Lemma program_facts_widgets f s :
  (∀ w, value_balls (f w) = value_balls w ∧ value_rows (f w) = value_rows w
        ∧ value_prob (f w) = value_prob w ∧ value_speed (f w) = value_speed w
        ∧ value_multi (f w) = value_multi w) →
  program_facts s → program_facts (upd_widgets f s).
Proof.
  intros Hf Hpf. destruct (Hf (widgets s)) as (? & ? & ? & ? & ?).
  eapply (program_facts_flags s); [apply inv_widgets, Hpf|..|done];
    by destruct s as [? [] ? ? ?].
Qed.

Lemma handle_event_facts e s :
  program_facts s → ∃ s', handle_event e s = Ok s' ∧ program_facts s'.
Proof.
  intros Hpf. pose proof Hpf as [Hinv Hcf Hff].
  destruct e as [|k|button pos|button|pos|]; cbn [handle_event].
  - eexists. split; [done|]. apply program_facts_widgets; [by intros []|done].
  - destruct k.
    + eexists. split; [done|]. apply program_facts_widgets; [by intros []|done].
    + eexists. split; [done|]. apply program_facts_widgets; [by intros []|done].
    + apply (click_facts Reset s Hpf).
    + apply (click_facts Run s Hpf).
    + apply (click_facts Run s Hpf).
    + apply (click_facts Pause s Hpf).
    + by exists s.
  - destruct (button =? 1); [|by exists s].
    destruct (handle_slider_input_facts pos s Hpf) as (s1 & r & -> & Hpf1 & _).
    cbn [mbind result_bind fst snd].
    assert (program_facts (upd_widgets (set_dragging r) s1)) as Hpf2
      by (apply program_facts_widgets; [by intros []|done]).
    destruct r; [by eexists|].
    destruct (handle_button_click_facts pos _ Hpf2) as (s2 & r2 & -> & Hpf3).
    by exists s2.
  - destruct (button =? 1); [|by exists s].
    eexists. split; [done|]. apply program_facts_widgets; [by intros []|done].
  - destruct (dragging (widgets s)); [|by exists s].
    destruct (handle_slider_input_facts pos s Hpf) as (s1 & r & -> & Hpf1 & _).
    by exists s1.
  - by exists s.
Qed.

Lemma update_animation_facts s :
  program_facts s →
  ∃ s' vs, update_animation s = Ok s' ∧ program_facts s' ∧ tick_frame s s'
           ∧ positions (results s') = positions (results s) ++ vs.
Proof.
  intros [Hinv Hcf Hff].
  destruct (ball_falling (anim s)) eqn:Hf; cycle 1.
  { exists s, []. rewrite update_animation_closed by auto. rewrite app_nil_r.
    split; [done|]. split; [by apply program_facts_idle|].
    split; [apply tick_frame_refl|done]. }
  destruct (update_animation_total s Hinv Hcf Hf (Hff eq_refl))
    as (s' & vs & Hs & Hff' & Hfr & Hpos).
  exists s', vs. split; [done|]. split; [|done].
  constructor; [|by eapply config_facts_tick|done].
  by eapply update_animation_inv.
Qed.

Lemma perform_facts a s :
  program_facts s → ∃ s', perform a s = Ok s' ∧ program_facts s'.
Proof.
  intros Hpf. destruct a as [e| |]; cbn [perform].
  - by apply handle_event_facts.
  - destruct (update_animation_facts s Hpf) as (s' & vs & Hs & Hpf' & _). by exists s'.
  - eexists. split; [done|]. unfold update_plot_surface.
    destruct (_ || _); [done|]. apply program_facts_widgets; [by intros []|done].
Qed.

(** Every reachable state has the facts. *)
Lemma reachable_facts s : reachable s → program_facts s.
Proof.
  induction 1 as [s Hs|a s s' _ IH Hs].
  - destruct init_facts as (s0 & Hs0 & Hcf & Hf).
    assert (s0 = s) as -> by congruence.
    apply program_facts_idle; [by apply init_inv|done..].
  - destruct (perform_facts a s IH) as (s0 & Hs0 & Hpf). congruence.
Qed.
End HandlerFacts.

(** ** Tables over the pixels of the sliders and the counts of the bar *)

Lemma slider_values_table : forallb slider_values_ok slider_names = true.
Proof. vm_compute. reflexivity. Qed.

Lemma slider_monotone_table : forallb slider_monotone_ok slider_names = true.
Proof. vm_compute. reflexivity. Qed.

Lemma handle_click_table : forallb handle_click_ok slider_names = true.
Proof. vm_compute. reflexivity. Qed.

Lemma progress_table : forallb (λ j, progress_ok (100 + 50 * j)) (seqZ 0 19) = true.
Proof. vm_compute. reflexivity. Qed.

(** ** The main loop never raises *)

Lemma demo_on_row_one_Ok : @update_animation demo_numpy demo_started = Ok demo_on_row_one.
Proof. vm_compute. reflexivity. Qed.

Lemma demo_on_row_one_reachable : @reachable demo_numpy demo_on_row_one.
Proof.
  apply (reachable_step Tick demo_started);
    [apply demo_started_reachable|apply demo_on_row_one_Ok].
Qed.

Section MainLoopFacts.
Context `{NumPy}.

Lemma for_each_facts events s :
  program_facts s → ∃ s', for_each handle_event events s = Ok s' ∧ program_facts s'.
Proof.
  revert s. induction events as [|e events IH]; intros s Hpf; cbn [for_each].
  - by exists s.
  - destruct (handle_event_facts e s Hpf) as (s1 & -> & Hpf1). cbn [mbind result_bind].
    by apply IH.
Qed.

Lemma frame_facts events s :
  program_facts s → ∃ s', frame events s = Ok s' ∧ program_facts s'.
Proof.
  intros Hpf. unfold frame.
  destruct (for_each_facts events s Hpf) as (s1 & -> & Hpf1). cbn [mbind result_bind].
  destruct (update_animation_facts s1 Hpf1) as (s2 & vs & -> & Hpf2 & _).
  cbn [mbind result_bind]. eexists. split; [done|].
  destruct (plot_needs_update (widgets s2)); [|done].
  destruct (perform_facts Plot s2 Hpf2) as (s3 & [= <-] & Hpf3). done.
Qed.

Lemma run_total_facts frames s :
  program_facts s → ∃ s', run frames s = Ok s' ∧ program_facts s'.
Proof.
  revert s. induction frames as [|events frames IH]; intros s Hpf; cbn [run].
  - by exists s.
  - destruct (running (widgets s)); [|by exists s].
    destruct (frame_facts events s Hpf) as (s1 & -> & Hpf1). cbn [mbind result_bind].
    by apply IH.
Qed.

Lemma reachable_rows s : reachable s → 5 ≤ n_rows (params s) ≤ 18.
Proof. intros Hr%reachable_inv. apply (vp_rows _ (inv_params s Hr)). Qed.

Lemma reachable_geometry s :
  reachable s → compute_geometry (n_rows (params s)) = Ok (geometry s).
Proof. intros Hr%reachable_facts. apply (cf_geometry s (pf_config s Hr)). Qed.

Lemma reachable_flight s :
  reachable s → ball_falling (anim s) = true → flight_facts s.
Proof. intros Hr%reachable_facts Hf. by apply (pf_flight s Hr). Qed.

(** The outcomes before and after a tick of a run in progress. *)
Lemma outcome_facts_tick s s' :
  reachable s → ball_falling (anim s) = true → update_animation s = Ok s' →
  outcome_facts (results s') ∧ len (bins_count (results s')) = n_rows (params s') + 1.
Proof.
  intros Hr Hf Hs'. pose proof (reachable_facts s Hr) as [Hinv Hcf Hff].
  destruct (update_animation_total s Hinv Hcf Hf (Hff Hf)) as (s1 & vs & Hs1 & Hff1 & _).
  assert (s1 = s') as -> by congruence.
  split; [apply Hff1|].
  apply (inv_bins_len s'), reachable_inv. by apply (reachable_step Tick s).
Qed.
End MainLoopFacts.

(** * Further properties *)

(** X1. [clamp_position] never takes its recentring branch: whatever the
    point, a float or an int, nan and the infinities included, the result is
    the point clamped coordinate by coordinate to [320, 880] x [120, 560]; it
    lies in that box, and clamping it again changes nothing. *)
Theorem clamp_position_never_recentres (x y : num) :
  clamp_position x y
  = (py_max (PInt 320) (py_min x (PInt 880)), py_max (PInt 120) (py_min y (PInt 560)))
  ∧ contained (clamp_position x y).1 (clamp_position x y).2 = true
  ∧ clamp_position (clamp_position x y).1 (clamp_position x y).2 = clamp_position x y.
Proof. apply clamp_position_spec. Qed.

Section Extras.
Context `{NumPy}.

(** X2. No step of the main loop raises: from a state the program can reach,
    every event handler, the tick and the plot refresh return a state, which
    is reachable in turn. *)
Theorem step_never_raises (a : action) (s : State) :
  reachable s → ∃ s', perform a s = Ok s' ∧ reachable s'.
Proof.
  intros Hr. destruct (perform_facts a s (reachable_facts s Hr)) as (s' & Hs & _).
  exists s'. split; [done|]. by apply (reachable_step a s).
Qed.

(** X3. [__init__] returns a state, and from it [run] returns a state
    whatever the events of the successive frames are. *)
Theorem run_never_raises :
  ∃ s0, init = Ok s0 ∧ ∀ frames, ∃ s', run frames s0 = Ok s' ∧ reachable s'.
Proof.
  destruct init_facts as (s0 & Hs0 & _). exists s0. split; [done|]. intros frames.
  assert (reachable s0) as Hr by by apply reachable_init.
  destruct (run_total_facts frames s0 (reachable_facts s0 Hr)) as (s' & Hs' & _).
  exists s'. split; [done|]. by eapply run_reachable.
Qed.

(** X4. While a run is in progress there is one path for each of the
    [n_balls] balls, each path has [n_rows] entries, and every ball in flight
    has been dropped: its index is below [balls_dropped], which is at most
    [n_balls], so that its path exists. *)
Theorem paths_match_configuration (s : State) :
  reachable s → ball_falling (anim s) = true →
  len (ball_paths (anim s)) = n_balls (params s)
  ∧ Forall (λ path, len path = n_rows (params s)) (ball_paths (anim s))
  ∧ balls_dropped (anim s) ≤ n_balls (params s)
  ∧ Forall (λ b, 0 ≤ ball_index b < balls_dropped (anim s)
                 ∧ is_Some (ball_paths (anim s) !! Z.to_nat (ball_index b)))
      (balls_in_flight (anim s)).
Proof.
  intros Hr Hf. pose proof (reachable_flight s Hr Hf) as [Hcount Hrows Hballs _ _].
  destruct (inv_run s (reachable_inv s Hr) Hf) as (_ & _ & Hrf).
  pose proof (rf_dropped _ _ Hrf) as Hdropped.
  split; [done|]. split; [done|]. split; [done|].
  eapply Forall_impl; [exact Hballs|]. intros b [Hindex _ _ _]. split; [done|].
  apply lookup_lt_is_Some. unfold len in *. lia.
Qed.

(** X5. While a run is in progress the balls in flight are listed by strictly
    increasing index, so that no ball is in flight twice; each one is on a row
    between 0 and [n_rows], and its position and its target are inside the
    box [320, 880] x [120, 560]. *)
Theorem balls_in_flight_ordered (s : State) :
  reachable s → ball_falling (anim s) = true →
  increasing (ball_index <$> balls_in_flight (anim s))
  ∧ Forall (λ b, 0 ≤ current_row b ≤ n_rows (params s)
                 ∧ contained (bx b) (by_ b) = true
                 ∧ contained (target_x b) (target_y b) = true)
      (balls_in_flight (anim s)).
Proof.
  intros Hr Hf. pose proof (reachable_flight s Hr Hf) as [_ _ Hballs Hsorted _].
  split; [done|].
  eapply Forall_impl; [exact Hballs|]. by intros b [_ Hrow [Hc Ht] _].
Qed.

(** X6. While a run is in progress the target of a ball in flight is the one
    its path gives for its row: the first peg on row 0, the peg
    [(row, path[row])] on a row below [n_rows], the bin of the final entry of
    the path on row [n_rows]; both coordinates are ints. *)
Theorem targets_follow_paths (s : State) (i : nat) (b : ball) :
  reachable s → ball_falling (anim s) = true →
  balls_in_flight (anim s) !! i = Some b →
  ∃ x y, target_x b = PInt x ∧ target_y b = PInt y ∧ target_of s b = Some (x, y).
Proof.
  intros Hr Hf Hb. pose proof (reachable_flight s Hr Hf) as [_ _ Hballs _ _].
  rewrite Forall_lookup in Hballs. apply (bo_target s b (Hballs i b Hb)).
Qed.

(** X7. A ball on row [row], below the first, whose path has an entry
    [path[row]] greater than [row] (its first [row + 1] trials all succeeded)
    finds no peg [(row, path[row])]: it heads for the fallback position
    (600, 120), above the first peg. *)
Theorem overshooting_column_falls_back (s : State) (i : nat) (b : ball)
    (path : list Z) (col : Z) :
  reachable s → ball_falling (anim s) = true →
  balls_in_flight (anim s) !! i = Some b →
  0 < current_row b < n_rows (params s) →
  ball_paths (anim s) !! Z.to_nat (ball_index b) = Some path →
  path !! Z.to_nat (current_row b) = Some col →
  current_row b < col →
  target_x b = PInt 600 ∧ target_y b = PInt 120.
Proof.
  intros Hr Hf Hb Hrow Hpath Hcol Hover.
  pose proof (reachable_flight s Hr Hf) as [_ _ Hballs _ _].
  rewrite Forall_lookup in Hballs.
  destruct (bo_target s b (Hballs i b Hb)) as (x & y & -> & -> & Htarget).
  unfold target_of in Htarget. rewrite Hpath in Htarget. cbn [mbind option_bind] in Htarget.
  destruct (Z.eqb_spec (current_row b) 0); [lia|].
  destruct (Z.ltb_spec (current_row b) (n_rows (params s))); [|lia].
  rewrite Hcol in Htarget. cbn [mbind option_bind] in Htarget.
  rewrite (peg_absent s (reachable_geometry s Hr)) in Htarget by lia.
  by injection Htarget as <- <-.
Qed.

(** X8. In every reachable state the position tables are those of the
    current [n_rows]: [get_peg_position] finds a peg inside the box for every
    [0 <= col <= row < n_rows] and gives the fallback (600, 120) for every
    other key; [get_bin_position] finds a bin on the line [y = 520] for every
    index from 0 to [n_rows] and gives the fallback (600, 520) for every
    other index. *)
Theorem position_lookups (s : State) :
  reachable s →
  (∀ row col, 0 ≤ col ≤ row → row < n_rows (params s) →
     ∃ x y, peg_positions (geometry s) !! (row, col) = Some (x, y)
            ∧ get_peg_position s row col = (x, y)
            ∧ 320 ≤ x ≤ 880 ∧ 120 ≤ y ≤ 560)
  ∧ (∀ row col, ¬ (0 ≤ col ≤ row ∧ row < n_rows (params s)) →
       get_peg_position s row col = (600, 120))
  ∧ (∀ k, 0 ≤ k ≤ n_rows (params s) →
       ∃ x, bin_positions (geometry s) !! k = Some (x, 520)
            ∧ get_bin_position s k = (x, 520) ∧ 320 ≤ x ≤ 880)
  ∧ (∀ k, ¬ (0 ≤ k ≤ n_rows (params s)) → get_bin_position s k = (600, 520)).
Proof.
  intros Hr. pose proof (reachable_rows s Hr) as Hrows.
  pose proof (reachable_geometry s Hr) as Hgeo.
  split; [|split; [|split]].
  - intros row col Hcol Hrow.
    destruct (peg_present s Hrows Hgeo row col Hcol Hrow) as (x & y & Hxy & Hget & Hc).
    exists x, y. split; [done|]. split; [done|]. by apply contained_int.
  - intros row col Hout. by rewrite (peg_absent s Hgeo).
  - intros k Hk. by apply (bin_present s Hrows Hgeo).
  - intros k Hout. by rewrite (bin_absent s Hrows Hgeo).
Qed.

(** X9. In every reachable state the pegs form a triangle: a peg lies
    strictly above the two pegs of the next row at its column and at the next
    column, strictly between them horizontally, and those two are level.
    Each peg of the last row lies strictly between the bins of its column
    and of the next. *)
Theorem pegs_form_a_triangle (s : State) :
  reachable s →
  (∀ row col, 0 ≤ col ≤ row → row + 1 < n_rows (params s) →
     (get_peg_position s (row + 1) col).1 < (get_peg_position s row col).1
     ∧ (get_peg_position s row col).1 < (get_peg_position s (row + 1) (col + 1)).1
     ∧ (get_peg_position s row col).2 < (get_peg_position s (row + 1) col).2
     ∧ (get_peg_position s (row + 1) col).2 = (get_peg_position s (row + 1) (col + 1)).2)
  ∧ (∀ col, 0 ≤ col < n_rows (params s) →
       (get_bin_position s col).1 < (get_peg_position s (n_rows (params s) - 1) col).1
       ∧ (get_peg_position s (n_rows (params s) - 1) col).1
         < (get_bin_position s (col + 1)).1).
Proof.
  intros Hr. pose proof (reachable_rows s Hr) as Hrows.
  pose proof (reachable_geometry s Hr) as Hgeo.
  split.
  - intros row col. by apply peg_below.
  - intros col. by apply bin_below.
Qed.

(** X10. In every reachable state [start_next_balls] admits exactly
    [k = min(max_simultaneous_balls - len(balls_in_flight),
    n_balls - balls_dropped)] balls when [k] is positive and none otherwise:
    the balls numbered from [balls_dropped] on, each at (600, 120) on row 0
    with the first peg (600, 160) as target, appended in that order. *)
Theorem start_next_balls_admits (s : State) :
  reachable s →
  let k := Z.min (max_simultaneous_balls (params s) - len (balls_in_flight (anim s)))
             (n_balls (params s) - balls_dropped (anim s)) in
  start_next_balls s
  = upd_anim (set_balls_dropped (balls_dropped (anim s) + Z.max 0 k))
      (upd_anim (set_balls_in_flight
                   (balls_in_flight (anim s) ++ (new_ball <$> seqZ (balls_dropped (anim s)) k)))
         s).
Proof.
  intros Hr. apply start_next_balls_new.
  by destruct (geometry_ok_unfold s (reachable_rows s Hr) (reachable_geometry s Hr))
    as (_ & _ & _ & Hpeg).
Qed.
End Extras.

Section Extras2.
Context `{NumPy}.

Lemma outcome_facts_run s :
  reachable s → ball_falling (anim s) = true →
  outcome_facts (results s) ∧ len (bins_count (results s)) = n_rows (params s) + 1.
Proof.
  intros Hr Hf. split; [apply (reachable_flight s Hr Hf)|].
  apply (inv_bins_len s), reachable_inv, Hr.
Qed.

Lemma outcome_facts_around s s' t :
  reachable s → ball_falling (anim s) = true → update_animation s = Ok s' →
  t = s ∨ t = s' →
  outcome_facts (results t) ∧ len (bins_count (results t)) = n_rows (params t) + 1.
Proof.
  intros Hr Hf Hs' [-> | ->]; [by apply outcome_facts_run|by eapply outcome_facts_tick].
Qed.

(** X11. With a number of rows the slider allows, [start_animation] returns
    this state: the results cleared, the bins zeroed at [n_rows + 1], the
    geometry of [n_rows], [n_balls] paths drawn with [n_balls * n_rows] random
    numbers, and the first [min(max_simultaneous_balls, n_balls)] balls
    admitted above the first peg. *)
Theorem start_animation_result (s : State) :
  5 ≤ n_rows (params s) ≤ 18 →
  ∃ g,
    compute_geometry (n_rows (params s)) = Ok g
    ∧ start_animation s
      = Ok {| params := params s;
              anim :=
                {| ball_paths :=
                     (λ b, (λ r, successes (probability (params s))
                                   (rng_calls (anim s)
                                    + b * Z.to_nat (n_rows (params s))) (S r))
                           <$> seq 0 (Z.to_nat (n_rows (params s))))
                     <$> seq 0 (Z.to_nat (n_balls (params s)));
                   balls_in_flight :=
                     new_ball <$> seqZ 0 (Z.min (max_simultaneous_balls (params s))
                                            (n_balls (params s)));
                   balls_dropped :=
                     Z.max 0 (Z.min (max_simultaneous_balls (params s)) (n_balls (params s)));
                   delay_counter := PInt 0;
                   ball_falling := true; paused := false; stopped := false;
                   rng_calls :=
                     (rng_calls (anim s)
                      + Z.to_nat (n_balls (params s)) * Z.to_nat (n_rows (params s)))%nat |};
              results :=
                {| positions := [];
                   bins_count := replicate (Z.to_nat (n_rows (params s) + 1)) 0;
                   balls_completed := 0;
                   observed_mean := PInt 0; observed_std := PInt 0;
                   theoretical_mean := theoretical_mean (results s);
                   theoretical_std := theoretical_std (results s);
                   simulation_complete := false |};
              geometry := g;
              widgets :=
                set_plot_needs_update true (set_plot_update_counter 0 (widgets s)) |}.
Proof. apply start_animation_spec. Qed.

(** X12. [reset_parameters] never raises, whatever the state, and returns
    this state: the parameters, the slider values, the theoretical values
    and the geometry are those of the defaults, the outcomes and the balls in
    flight are cleared; the observed mean and deviation, [balls_dropped], the
    paths and the delay counter are left as they were. A second reset
    changes nothing. *)
Theorem reset_parameters_result (s : State) :
  ∃ g s',
    compute_geometry 12 = Ok g
    ∧ reset_parameters s = Ok s'
    ∧ s' = {| params := default_params;
              anim :=
                {| ball_paths := ball_paths (anim s);
                   balls_in_flight := [];
                   balls_dropped := balls_dropped (anim s);
                   delay_counter := delay_counter (anim s);
                   ball_falling := false; paused := false; stopped := false;
                   rng_calls := rng_calls (anim s) |};
              results :=
                {| positions := [];
                   bins_count := replicate 13 0;
                   balls_completed := 0;
                   observed_mean := observed_mean (results s);
                   observed_std := observed_std (results s);
                   theoretical_mean := py_mul (PInt 12) (PFloat 0.5);
                   theoretical_std :=
                     PFloat (sqrt (to_float (py_mul (py_mul (PInt 12) (PFloat 0.5))
                                               (py_sub (PInt 1) (PFloat 0.5)))));
                   simulation_complete := false |};
              geometry := g;
              widgets :=
                {| value_balls := 500; value_rows := 12; value_prob := PFloat 0.5;
                   value_speed := 6; value_multi := 8;
                   dragging := dragging (widgets s); running := running (widgets s);
                   plot_update_counter := plot_update_counter (widgets s);
                   plot_needs_update := true |} |}
    ∧ reset_parameters s' = Ok s'.
Proof.
  destruct (reset_parameters_spec s) as (g & Hg & Hs).
  eexists g, _. split; [done|]. split; [exact Hs|]. split; [done|].
  match goal with |- reset_parameters ?t = _ =>
    destruct (reset_parameters_spec t) as (g' & Hg' & ->)
  end.
  assert (g' = g) as -> by congruence. done.
Qed.

(** X13. Before and after every tick of a run in progress, the tick that
    completes the run included, [bins_count] is the histogram of [positions]:
    bin [k] holds the number of outcomes equal to [k], for [k] from 0 to
    [n_rows], and every outcome is one of these bins. *)
Theorem histogram_counts_outcomes (s s' t : State) :
  reachable s → ball_falling (anim s) = true → update_animation s = Ok s' →
  t = s ∨ t = s' →
  bins_count (results t)
  = histogram (Z.to_nat (n_rows (params t) + 1)) (positions (results t))
  ∧ Forall (λ v, 0 ≤ v ≤ n_rows (params t)) (positions (results t)).
Proof.
  intros Hr Hf Hs' Ht.
  destruct (outcome_facts_around s s' t Hr Hf Hs' Ht) as [[_ Hhist Hrange _ _] Hlen].
  split.
  - rewrite Hhist at 1. f_equal. unfold len in Hlen. lia.
  - eapply Forall_impl; [exact Hrange|]. cbn. intros v. lia.
Qed.

(** X14. Before and after every tick of a run in progress, the observed mean
    and deviation are 0 while fewer than five balls have landed, and then
    those of the outcomes up to the last multiple of five: the statistics
    lag the outcome list by up to four balls. *)
Theorem statistics_are_throttled (s s' t : State) :
  reachable s → ball_falling (anim s) = true → update_animation s = Ok s' →
  t = s ∨ t = s' →
  observed_mean (results t) = shown_mean (positions (results t))
  ∧ observed_std (results t) = shown_std (positions (results t)).
Proof.
  intros Hr Hf Hs' Ht.
  by destruct (outcome_facts_around s s' t Hr Hf Hs' Ht) as [[_ _ _ Hmean Hstd] _].
Qed.

(** X15. A tick changes nothing of the configuration: the parameters, the
    geometry, the paths, the number of random draws, the pause and stop
    flags, the slider values, the drag state, the running flag and the
    theoretical values are those of before, and the outcome list only grows
    at its end. *)
Theorem tick_keeps_configuration (s s' : State) :
  reachable s → update_animation s = Ok s' →
  tick_frame s s' ∧ ∃ vs, positions (results s') = positions (results s) ++ vs.
Proof.
  intros Hr Hs'.
  destruct (update_animation_facts s (reachable_facts s Hr)) as (s1 & vs & Hs1 & _ & Hfr & Hpos).
  assert (s1 = s') as -> by congruence. split; [done|]. by exists vs.
Qed.

(** X16. In every reachable state each slider shows the parameter it sets. *)
Theorem sliders_show_parameters (s : State) :
  reachable s →
  value_balls (widgets s) = n_balls (params s)
  ∧ value_rows (widgets s) = n_rows (params s)
  ∧ value_prob (widgets s) = probability (params s)
  ∧ value_speed (widgets s) = ball_speed (params s)
  ∧ value_multi (widgets s) = max_simultaneous_balls (params s).
Proof. intros Hr. by destruct (pf_config s (reachable_facts s Hr)). Qed.

(** X17. In every reachable state the derived values are those of the
    current parameters: recomputing the theoretical mean and deviation, or
    the bin array and the position tables, gives the state back. *)
Theorem derived_values_are_current (s : State) :
  reachable s →
  calculate_theoretical_values s = s ∧ precalculate_positions s = Ok s.
Proof.
  intros Hr. pose proof (reachable_facts s Hr) as [Hinv [_ _ _ _ _ Hmean Hstd Hgeo] _].
  pose proof (inv_bins_len s Hinv) as Hlen.
  split.
  - unfold calculate_theoretical_values. destruct s as [[] ? [] ? ?]. simpl_upd.
    by rewrite <- Hstd, <- Hmean.
  - unfold precalculate_positions, update_bins_array_size.
    case_decide; [done|]. cbn [mbind result_bind]. rewrite Hgeo. cbn [mbind result_bind].
    by destruct s.
Qed.
End Extras2.

(** ** Sliders, pixel by pixel *)

Lemma num_eqb_eq a b : num_eqb a b = true → a = b.
Proof.
  destruct a as [x|x], b as [y|y]; cbn [num_eqb]; try done.
  - by intros ->%Z.eqb_eq.
  - by intros ->%FloatAxioms.Leibniz.eqb_spec.
Qed.

Lemma num_eqb_refl a : num_eqb a a = true.
Proof.
  destruct a as [x|x]; cbn [num_eqb]; [apply Z.eqb_refl|by apply FloatAxioms.Leibniz.eqb_spec].
Qed.

Lemma result_is_eq v r : result_is v r = true ↔ r = Ok v.
Proof.
  destruct r as [w|e]; cbn [result_is]; [|done]. split.
  - by intros ->%num_eqb_eq.
  - intros [= ->]. apply num_eqb_refl.
Qed.

Lemma slider_names_all name : In name slider_names.
Proof. destruct name; cbn; tauto. Qed.

Lemma slider_pixels_range mx :
  In mx slider_pixels ↔ slider_x ≤ mx ≤ slider_x + slider_width.
Proof.
  unfold slider_pixels. rewrite <- list_elem_of_In, elem_of_seqZ. lia.
Qed.

Lemma slider_table (ok : slider_name → bool) name :
  forallb ok slider_names = true → ok name = true.
Proof. intros Htable. rewrite forallb_forall in Htable. apply Htable, slider_names_all. Qed.

(** X18. The value a slider takes never decreases as the mouse moves right
    along it, pixel by pixel; its left end gives the minimum and its right
    end the maximum. *)
Theorem slider_value_monotone (name : slider_name) :
  (∀ mx, slider_x ≤ mx < slider_x + slider_width →
     ∃ v w, slider_value name mx = Ok v ∧ slider_value name (mx + 1) = Ok w
            ∧ py_le v w = true)
  ∧ slider_value name slider_x = Ok (slider_min name)
  ∧ slider_value name (slider_x + slider_width) = Ok (slider_max name).
Proof.
  pose proof (slider_table _ name slider_monotone_table) as Hok.
  unfold slider_monotone_ok in Hok.
  apply andb_true_iff in Hok as [[Hmono Hmin%result_is_eq]%andb_true_iff Hmax%result_is_eq].
  split; [|done]. intros mx Hmx.
  rewrite forallb_forall in Hmono. specialize (Hmono mx).
  destruct (slider_value name mx) as [v|]; cycle 1.
  { exfalso. enough (false = true) by done.
    apply Hmono, list_elem_of_In, elem_of_seqZ. lia. }
  destruct (slider_value name (mx + 1)) as [w|]; cycle 1.
  { exfalso. enough (false = true) by done.
    apply Hmono, list_elem_of_In, elem_of_seqZ. lia. }
  exists v, w. split; [done|]. split; [done|].
  apply Hmono, list_elem_of_In, elem_of_seqZ. lia.
Qed.

Lemma slider_values_spec (name : slider_name) :
  (∀ mx, slider_x ≤ mx ≤ slider_x + slider_width →
     ∃ v, slider_value name mx = Ok v ∧ v ∈ slider_values name)
  ∧ (∀ v, v ∈ slider_values name →
       ∃ mx, slider_x ≤ mx ≤ slider_x + slider_width ∧ slider_value name mx = Ok v).
Proof.
  pose proof (slider_table _ name slider_values_table) as Hok.
  unfold slider_values_ok in Hok. cbn zeta in Hok.
  apply andb_true_iff in Hok as [Hinto Honto].
  rewrite forallb_forall in Hinto. rewrite forallb_forall in Honto.
  split.
  - intros mx Hmx.
    assert (In (slider_value name mx) (slider_value name <$> slider_pixels)) as Hin.
    { apply list_elem_of_In, list_elem_of_fmap. exists mx. split; [done|].
      by apply list_elem_of_In, slider_pixels_range. }
    apply Hinto, existsb_exists in Hin as (v & Hv & Hr%result_is_eq).
    exists v. split; [done|]. by apply list_elem_of_In.
  - intros v Hv%list_elem_of_In.
    apply Honto, existsb_exists in Hv as (r & Hr & His%result_is_eq).
    apply list_elem_of_In, list_elem_of_fmap in Hr as (mx & -> & Hmx).
    exists mx. split; [|done]. by apply slider_pixels_range, list_elem_of_In.
Qed.

(** X19. The values a slider can take are exactly the multiples of its step
    between its bounds: 100, 150, ..., 1000 balls; 5 to 18 rows; the
    binary64 quotients k / 100 for k from 10 to 90; 1 to 100 for the speed;
    1 to 25 balls at once. Every pixel of the slider gives one of them, and
    each of them is given by some pixel. *)
Theorem slider_values_exact (name : slider_name) :
  (∀ mx, slider_x ≤ mx ≤ slider_x + slider_width →
     ∃ v, slider_value name mx = Ok v ∧ v ∈ slider_values name)
  ∧ (∀ v, v ∈ slider_values name →
       ∃ mx, slider_x ≤ mx ≤ slider_x + slider_width ∧ slider_value name mx = Ok v).
Proof. apply slider_values_spec. Qed.

(** X20. A click on the centre of the handle, where [draw_slider] draws it
    for the current value, keeps the value of the rows, probability, speed
    and simultaneous-balls sliders. On the balls slider it keeps 100, 550
    and 1000 and lowers every other value by one step of 50. *)
Theorem click_on_handle_value (name : slider_name) (v : num) :
  v ∈ slider_values name →
  click_on_handle name v
  = Ok (match name, v with
        | Balls, PInt k =>
            if (k =? 100) || (k =? 550) || (k =? 1000) then PInt k else PInt (k - 50)
        | _, _ => v
        end).
Proof.
  intros Hv%list_elem_of_In.
  pose proof (slider_table _ name handle_click_table) as Hok.
  unfold handle_click_ok in Hok. rewrite forallb_forall in Hok. specialize (Hok v Hv).
  destruct (click_on_handle name v) as [w|]; [|done]. f_equal.
  destruct name; try (by apply num_eqb_eq).
  destruct v; by apply num_eqb_eq.
Qed.

(** ** Hit areas and dispatch *)

Lemma button_hit_range name mx my :
  button_hit name mx my = true ↔
  (button_pos name).1 ≤ mx ≤ (button_pos name).1 + 110
  ∧ (button_pos name).2 ≤ my ≤ (button_pos name).2 + 40.
Proof.
  unfold button_hit. destruct (button_pos name) as [x y]. cbn [fst snd].
  unfold button_width, button_height. rewrite !andb_true_iff, !Z.leb_le. lia.
Qed.

Lemma button_hit_unique name name' mx my :
  button_hit name mx my = true → name' ≠ name → button_hit name' mx my = false.
Proof.
  intros Hhit%button_hit_range Hne.
  destruct (button_hit name' mx my) eqn:Hhit'; [|done].
  apply button_hit_range in Hhit'.
  destruct name, name'; try done;
    cbn [button_pos fst snd] in *; unfold button_y, slider_start_y, slider_spacing,
      header_height in *; lia.
Qed.

Lemma button_not_slider name sl mx my :
  button_hit name mx my = true → slider_hit sl mx my = false.
Proof.
  intros Hhit%button_hit_range.
  destruct (slider_hit sl mx my) eqn:Hhit'; [|done].
  apply slider_hit_range in Hhit' as [_ Hy].
  destruct name, sl;
    cbn [button_pos fst snd slider_y] in *; unfold button_y, slider_start_y, slider_spacing,
      slider_height, header_height in *; lia.
Qed.

Lemma slider_loop_miss names mx my s :
  (∀ sl, slider_hit sl mx my = false) → slider_loop names mx my s = Ok (s, None).
Proof.
  intros Hmiss. induction names as [|name names IH]; cbn [slider_loop]; [done|].
  by rewrite Hmiss.
Qed.

Lemma handle_slider_input_miss pos s :
  (∀ sl, slider_hit sl pos.1 pos.2 = false) → handle_slider_input pos s = Ok (s, None).
Proof.
  intros Hmiss. unfold handle_slider_input. destruct (_ && _); [done|].
  by apply slider_loop_miss.
Qed.

Section Dispatch.
Context `{NumPy}.

Lemma button_loop_hit name mx my s :
  button_hit name mx my = true →
  button_loop button_names mx my s = (s' ← click name s; Ok (s', Some name)).
Proof.
  intros Hhit. unfold button_names.
  destruct name; cbn [button_loop];
    rewrite ?(button_hit_unique _ _ _ _ Hhit) by done; by rewrite Hhit.
Qed.

(** X21. The hit areas of the five sliders and the four buttons are pairwise
    disjoint, so the order in which the loops test them does not matter: a
    click inside a button runs the action of that button and of no other, a
    click inside the hit area of a slider sets that slider and no other, and
    no point is in both a button and a slider. *)
Theorem click_reaches_one_widget (mx my : Z) (s : State) :
  (∀ name, button_hit name mx my = true →
     (∀ sl, slider_hit sl mx my = false)
     ∧ handle_button_click (mx, my) s = (s' ← click name s; Ok (s', Some name)))
  ∧ (∀ sl, slider_hit sl mx my = true →
       (∀ name, button_hit name mx my = false)
       ∧ slider_loop slider_names mx my s = (s' ← set_slider sl mx s; Ok (s', Some sl))).
Proof.
  split.
  - intros name Hhit. split; [intros sl; by eapply button_not_slider|].
    by apply button_loop_hit.
  - intros sl Hhit. split; [|by apply slider_loop_hit].
    intros name. destruct (button_hit name mx my) eqn:Hb; [|done].
    by rewrite (button_not_slider name sl mx my Hb) in Hhit.
Qed.

(** X22. A left click inside the run, pause or reset button does what its
    key does (Return or Space, p, r), except that the click also clears the
    drag state first. The stop button has no key. *)
Theorem shortcut_equals_button (name : button_name) (k : key) (pos : Z * Z) (s : State) :
  k ∈ shortcuts name → button_hit name pos.1 pos.2 = true →
  handle_event (MOUSEBUTTONDOWN 1 pos) s
  = handle_event (KEYDOWN k) (upd_widgets (set_dragging None) s).
Proof.
  intros Hk Hhit. cbn [handle_event]. change (1 =? 1) with true. cbn match.
  rewrite handle_slider_input_miss by (intros sl; by eapply button_not_slider).
  cbn [mbind result_bind fst snd]. unfold handle_button_click.
  rewrite (button_loop_hit name) by done.
  assert (∀ r : result State, fst <$> (s' ← r; Ok (s', Some name)) = r) as ->
    by by intros [].
  destruct name; cbn [shortcuts] in Hk.
  - apply elem_of_cons in Hk as [->|Hk]; [done|].
    by apply list_elem_of_singleton in Hk as ->.
  - by apply list_elem_of_singleton in Hk as ->.
  - by apply list_elem_of_singleton in Hk as ->.
  - by apply elem_of_nil in Hk.
Qed.
End Dispatch.

(** ** The running flag *)

Lemma set_slider_running name mx s s' :
  set_slider name mx s = Ok s' → running (widgets s') = running (widgets s).
Proof.
  unfold set_slider. intros Hs. bind_split Hs as v Hv. bind_split Hs as s1 Hs1.
  injection Hs as <-.
  assert (running (widgets s1) = running (widgets s)) as <-.
  { destruct name.
    - bind_split Hs1 as z Hz. injection Hs1 as <-. by destruct s as [? ? ? ? []].
    - bind_split Hs1 as z Hz. bind_split Hs1 as s2 Hs2.
      apply update_bins_array_size_Ok in Hs2 as [_ ->].
      apply precalculate_positions_Ok in Hs1 as (g & _ & ->).
      by destruct s as [? ? ? ? []].
    - injection Hs1 as <-. by destruct s as [? ? ? ? []].
    - bind_split Hs1 as z Hz. injection Hs1 as <-. by destruct s as [? ? ? ? []].
    - bind_split Hs1 as z Hz. injection Hs1 as <-. by destruct s as [? ? ? ? []]. }
  unfold calculate_theoretical_values. by destruct s1 as [? ? ? ? []].
Qed.

Lemma slider_loop_running names mx my s s' r :
  slider_loop names mx my s = Ok (s', r) → running (widgets s') = running (widgets s).
Proof.
  induction names as [|name names IH]; cbn [slider_loop]; [by intros [= <- <-]|].
  destruct (slider_hit name mx my); [|done].
  intros Hs. bind_split Hs as s1 Hs1. injection Hs as <- <-. by eapply set_slider_running.
Qed.

Lemma handle_slider_input_running pos s s' r :
  handle_slider_input pos s = Ok (s', r) → running (widgets s') = running (widgets s).
Proof.
  unfold handle_slider_input. destruct (_ && _); [by intros [= <- <-]|].
  apply slider_loop_running.
Qed.

Section Running.
Context `{NumPy}.

Lemma click_running name s s' :
  5 ≤ n_rows (params s) ≤ 18 →
  click name s = Ok s' → running (widgets s') = running (widgets s).
Proof.
  intros Hrows. destruct name; cbn [click].
  - destruct (negb _); [|by intros [= <-]].
    destruct (start_animation_spec s Hrows) as (g & _ & ->). intros [= <-].
    by destruct s as [? ? ? ? []].
  - destruct (ball_falling _); intros [= <-]; by destruct s as [? [] ? ? []].
  - destruct (reset_parameters_spec s) as (g & _ & ->). by intros [= <-].
  - intros [= <-]. by destruct s as [? [] ? ? []].
Qed.

Lemma button_loop_running names mx my s s' r :
  5 ≤ n_rows (params s) ≤ 18 →
  button_loop names mx my s = Ok (s', r) → running (widgets s') = running (widgets s).
Proof.
  intros Hrows. induction names as [|name names IH]; cbn [button_loop];
    [by intros [= <- <-]|].
  destruct (button_hit name mx my); [|done].
  intros Hs. bind_split Hs as s1 Hs1. injection Hs as <- <-. by eapply click_running.
Qed.

(** X23. Only closing the window, [q] and [Escape] change the running flag,
    and they clear it: every other event, the tick and the plot refresh
    leave it as it was, so that nothing sets it again. *)
Theorem running_is_only_cleared (a : action) (s s' : State) :
  reachable s → perform a s = Ok s' →
  running (widgets s') = if quits a then false else running (widgets s).
Proof.
  intros Hr. pose proof (reachable_rows s Hr) as Hrows.
  destruct a as [e| |]; cbn [perform quits].
  - destruct e as [|k|button pos|button|pos|]; cbn [handle_event].
    + intros [= <-]. by destruct s as [? ? ? ? []].
    + destruct k.
      * intros [= <-]. by destruct s as [? ? ? ? []].
      * intros [= <-]. by destruct s as [? ? ? ? []].
      * apply (click_running Reset s s' Hrows).
      * apply (click_running Run s s' Hrows).
      * apply (click_running Run s s' Hrows).
      * apply (click_running Pause s s' Hrows).
      * by intros [= <-].
    + destruct (button =? 1); [|by intros [= <-]].
      intros Hs. bind_split Hs as [s1 r] Hs1. cbn [fst snd] in Hs.
      pose proof (handle_slider_input_running _ _ _ _ Hs1) as Hrun1.
      destruct r.
      * injection Hs as <-. rewrite <- Hrun1. by destruct s1 as [? ? ? ? []].
      * apply fmap_Ok in Hs as ([s2 r2] & Hs2 & <-). cbn [fst].
        destruct (handle_slider_input_facts pos s (reachable_facts s Hr))
          as (s1' & r' & Hs1' & Hpf1 & _).
        assert (s1' = s1) as -> by congruence.
        pose proof (vp_rows _ (inv_params s1 (pf_inv s1 Hpf1))) as Hrows1.
        apply button_loop_running in Hs2; [|by destruct s1 as [? ? ? ? []]].
        rewrite Hs2, <- Hrun1. by destruct s1 as [? ? ? ? []].
    + destruct (button =? 1); intros [= <-]; by destruct s as [? ? ? ? []].
    + destruct (dragging (widgets s)); [|by intros [= <-]].
      intros ([s1 r] & Hs1 & <-)%fmap_Ok. by eapply handle_slider_input_running.
    + by intros [= <-].
  - intros Hs'.
    destruct (update_animation_facts s (reachable_facts s Hr)) as (s1 & vs & Hs1 & _ & Hfr & _).
    assert (s1 = s') as -> by congruence. apply (tk_running _ _ Hfr).
  - intros [= <-]. unfold update_plot_surface.
    destruct (_ || _); [done|]. by destruct s as [? ? ? ? []].
Qed.
End Running.

(** ** The progress bar *)

Lemma progress_width_bounds n k :
  100 ≤ n ≤ 1000 → n mod 50 = 0 → 0 ≤ k ≤ n →
  ∃ w, progress_width_of k n = Ok w ∧ 0 ≤ w ≤ 240 ∧ (w = 240 ↔ k = n).
Proof.
  intros Hn Hstep Hk. pose proof progress_table as Htable.
  rewrite forallb_forall in Htable. specialize (Htable ((n - 100) / 50)).
  pose proof (Z.div_mod n 50 ltac:(done)) as Hdiv.
  assert (n = 100 + 50 * ((n - 100) / 50)) as Heq.
  { replace (n - 100) with ((n / 50 - 2) * 50) by lia. rewrite Z.div_mul by done. lia. }
  rewrite <- Heq in Htable.
  assert (progress_ok n = true) as Hok.
  { apply Htable, list_elem_of_In, elem_of_seqZ.
    split; [apply Z.div_pos; lia|].
    apply Z.div_lt_upper_bound; lia. }
  unfold progress_ok in Hok. apply andb_true_iff in Hok as [Hbelow Hfull].
  destruct (decide (k = n)) as [->|Hne].
  - destruct (progress_width_of n n) as [w|]; [|done].
    apply Z.eqb_eq in Hfull as ->. exists 240. split; [done|]. split; [lia|done].
  - rewrite forallb_forall in Hbelow. specialize (Hbelow k).
    destruct (progress_width_of k n) as [w|]; cycle 1.
    { exfalso. enough (false = true) by done.
      apply Hbelow, list_elem_of_In, elem_of_seqZ. lia. }
    destruct (progress_width_of (k + 1) n) as [w'|]; cycle 1.
    { exfalso. enough (false = true) by done.
      apply Hbelow, list_elem_of_In, elem_of_seqZ. lia. }
    assert (In k (seqZ 0 n)) as Hin by (apply list_elem_of_In, elem_of_seqZ; lia).
    apply Hbelow in Hin. rewrite !andb_true_iff, !Z.leb_le, Z.ltb_lt in Hin.
    exists w. split; [done|]. split; [lia|]. split; lia.
Qed.

Lemma progress_bar_widths_eq s :
  0 < n_balls (params s) →
  progress_bar_widths s
  = (w ← progress_width_of (len (positions (results s))) (n_balls (params s));
     Ok (w, 240 - w)).
Proof.
  intros Hn. unfold progress_bar_widths, progress_width_of.
  destruct (Z.ltb_spec 0 (n_balls (params s))); [|lia].
  by destruct (py_div _ _).
Qed.

Section ProgressBar.
Context `{NumPy}.

Lemma outcomes_bounded s s' t :
  reachable s → ball_falling (anim s) = true → update_animation s = Ok s' →
  t = s ∨ t = s' →
  len (positions (results t)) ≤ n_balls (params t).
Proof.
  intros Hr Hf Hs' Ht. pose proof (reachable_inv s Hr) as Hinv.
  destruct (inv_run s Hinv Hf) as (Hst & _ & Hrf).
  assert (∀ u k, run_facts k u → k = 0 → len (positions (results u)) ≤ n_balls (params u))
    as Hbound.
  { intros u k [_ Hacc Hdropped _ Hpos _ _] ->.
    pose proof (len_nonneg (balls_in_flight (anim u))). lia. }
  destruct Ht as [-> | ->]; [by eapply Hbound|].
  destruct (paused (anim s)) eqn:Hp.
  { rewrite update_animation_closed in Hs' by auto. injection Hs' as <-. by eapply Hbound. }
  destruct (update_animation_open s s' Hs' Hf Hp Hst Hrf (inv_bins_nonneg s Hinv))
    as (s2 & -> & _ & Hrf2 & _).
  specialize (Hbound s2 0 Hrf2 eq_refl).
  unfold completion_check. destruct (_ && _); [|done]. by destruct s2 as [? [] [] ? []].
Qed.

(** X24. Before and after every tick of a run in progress, the tick that
    completes the run included, [draw_horizontal_progress_bar] computes a
    green width [w] between 0 and 240 and a remaining width [240 - w]: the
    bar never overflows its frame, and it is full exactly when every ball
    has landed. *)
Theorem progress_bar_fits (s s' t : State) :
  reachable s → ball_falling (anim s) = true → update_animation s = Ok s' →
  t = s ∨ t = s' →
  ∃ w, progress_bar_widths t = Ok (w, 240 - w) ∧ 0 ≤ w ≤ 240
       ∧ (w = 240 ↔ len (positions (results t)) = n_balls (params t)).
Proof.
  intros Hr Hf Hs' Ht.
  pose proof (outcomes_bounded s s' t Hr Hf Hs' Ht) as Hle.
  assert (reachable t) as Hrt.
  { destruct Ht as [-> | ->]; [done|]. by apply (reachable_step Tick s). }
  destruct (inv_params t (reachable_inv t Hrt)) as [Hballs Hstep _ _ _ _].
  pose proof (len_nonneg (positions (results t))) as Hnn.
  destruct (progress_width_bounds (n_balls (params t)) (len (positions (results t)))
              Hballs Hstep ltac:(lia)) as (w & Hw & Hrange & Hfull).
  exists w. rewrite progress_bar_widths_eq by lia. rewrite Hw. done.
Qed.
End ProgressBar.

(** ** The parameters stay on the grid of the sliders *)

Lemma theory_table :
  forallb (λ n, forallb (theory_ok n) (slider_values Prob)) (seqZ 5 14) = true.
Proof. vm_compute. reflexivity. Qed.

Lemma default_probability_on_grid : PFloat 0.5 ∈ slider_values Prob.
Proof. apply (list_elem_of_lookup_2 _ 40). vm_compute. reflexivity. Qed.

Lemma set_slider_probability name mx s s' :
  slider_x ≤ mx ≤ slider_x + slider_width →
  set_slider name mx s = Ok s' → probability_step s s'.
Proof.
  unfold set_slider, probability_step. intros Hmx Hs.
  bind_split Hs as v Hv. bind_split Hs as s1 Hs1. injection Hs as <-.
  assert (probability (params (calculate_theoretical_values s1)) = probability (params s1))
    as -> by (unfold calculate_theoretical_values; by destruct s1 as [[] ? [] ? ?]).
  destruct name.
  - bind_split Hs1 as z Hz. injection Hs1 as <-. left. by destruct s as [[] ? ? ? []].
  - bind_split Hs1 as z Hz. bind_split Hs1 as s2 Hs2.
    apply update_bins_array_size_Ok in Hs2 as [_ ->].
    apply precalculate_positions_Ok in Hs1 as (g & _ & ->).
    left. by destruct s as [[] ? [] ? []].
  - injection Hs1 as <-. right.
    destruct (slider_values_spec Prob) as [Hinto _].
    destruct (Hinto mx Hmx) as (w & Hw & Hin).
    assert (w = v) as -> by congruence. by destruct s as [[] ? ? ? []].
  - bind_split Hs1 as z Hz. injection Hs1 as <-. left. by destruct s as [[] ? ? ? []].
  - bind_split Hs1 as z Hz. injection Hs1 as <-. left. by destruct s as [[] ? ? ? []].
Qed.

Lemma slider_loop_probability names mx my s s' r :
  slider_loop names mx my s = Ok (s', r) → probability_step s s'.
Proof.
  induction names as [|name names IH]; cbn [slider_loop]; [intros [= <- <-]; by left|].
  destruct (slider_hit name mx my) eqn:Hhit; [|done].
  apply slider_hit_range in Hhit as [Hmx _].
  intros Hs. bind_split Hs as s1 Hs1. injection Hs as <- <-.
  by eapply set_slider_probability.
Qed.

Lemma handle_slider_input_probability pos s s' r :
  handle_slider_input pos s = Ok (s', r) → probability_step s s'.
Proof.
  unfold handle_slider_input. destruct (_ && _); [intros [= <- <-]; by left|].
  apply slider_loop_probability.
Qed.

Section Grid.
Context `{NumPy}.

Lemma click_probability name s s' :
  5 ≤ n_rows (params s) ≤ 18 → click name s = Ok s' → probability_step s s'.
Proof.
  intros Hrows. unfold probability_step. destruct name; cbn [click].
  - destruct (negb _); [|intros [= <-]; by left].
    destruct (start_animation_spec s Hrows) as (g & _ & ->). intros [= <-]. by left.
  - destruct (ball_falling _); intros [= <-]; left; by destruct s as [? [] ? ? ?].
  - destruct (reset_parameters_spec s) as (g & _ & ->). intros [= <-]. right.
    apply default_probability_on_grid.
  - intros [= <-]. left. by destruct s as [? [] ? ? ?].
Qed.

Lemma button_loop_probability names mx my s s' r :
  5 ≤ n_rows (params s) ≤ 18 →
  button_loop names mx my s = Ok (s', r) → probability_step s s'.
Proof.
  intros Hrows. induction names as [|name names IH]; cbn [button_loop];
    [intros [= <- <-]; by left|].
  destruct (button_hit name mx my); [|done].
  intros Hs. bind_split Hs as s1 Hs1. injection Hs as <- <-. by eapply click_probability.
Qed.

Lemma perform_probability a s s' :
  reachable s → perform a s = Ok s' → probability_step s s'.
Proof.
  intros Hr. pose proof (reachable_rows s Hr) as Hrows.
  destruct a as [e| |]; cbn [perform].
  - destruct e as [|k|button pos|button|pos|]; cbn [handle_event].
    + intros [= <-]. left. by destruct s as [? ? ? ? []].
    + destruct k.
      * intros [= <-]. left. by destruct s as [? ? ? ? []].
      * intros [= <-]. left. by destruct s as [? ? ? ? []].
      * apply (click_probability Reset s s' Hrows).
      * apply (click_probability Run s s' Hrows).
      * apply (click_probability Run s s' Hrows).
      * apply (click_probability Pause s s' Hrows).
      * intros [= <-]. by left.
    + destruct (button =? 1); [|intros [= <-]; by left].
      intros Hs. bind_split Hs as [s1 r] Hs1. cbn [fst snd] in Hs.
      pose proof (handle_slider_input_probability _ _ _ _ Hs1) as Hstep1.
      destruct r.
      * injection Hs as <-. unfold probability_step in *. by destruct s1 as [? ? ? ? []].
      * apply fmap_Ok in Hs as ([s2 r2] & Hs2 & <-). cbn [fst].
        destruct (handle_slider_input_facts pos s (reachable_facts s Hr))
          as (s1' & r' & Hs1' & Hpf1 & _).
        assert (s1' = s1) as -> by congruence.
        pose proof (vp_rows _ (inv_params s1 (pf_inv s1 Hpf1))) as Hrows1.
        apply button_loop_probability in Hs2; [|by destruct s1 as [? ? ? ? []]].
        unfold probability_step in *.
        replace (probability (params (upd_widgets (set_dragging None) s1)))
          with (probability (params s1)) in Hs2 by by destruct s1 as [? ? ? ? []].
        destruct Hs2 as [-> | ?]; [done|by right].
    + destruct (button =? 1); intros [= <-]; left; by destruct s as [? ? ? ? []].
    + destruct (dragging (widgets s)); [|intros [= <-]; by left].
      intros ([s1 r] & Hs1 & <-)%fmap_Ok. by eapply handle_slider_input_probability.
    + intros [= <-]. by left.
  - intros Hs'.
    destruct (update_animation_facts s (reachable_facts s Hr)) as (s1 & vs & Hs1 & _ & Hfr & _).
    assert (s1 = s') as -> by congruence. left. by rewrite (tk_params _ _ Hfr).
  - intros [= <-]. left. unfold update_plot_surface.
    destruct (_ || _); [done|]. by destruct s as [? ? ? ? []].
Qed.

Lemma init_probability s : init = Ok s → probability (params s) = PFloat 0.5.
Proof. unfold init. by intros (g & _ & ->)%precalculate_positions_Ok. Qed.

Lemma reachable_probability s : reachable s → probability (params s) ∈ slider_values Prob.
Proof.
  induction 1 as [s Hs|a s s' Hr IH Hs].
  - rewrite (init_probability s Hs). apply default_probability_on_grid.
  - destruct (perform_probability a s s' Hr Hs) as [-> | ?]; done.
Qed.

(** X25. In every reachable state each parameter is one of the values its
    slider offers: [n_balls] one of 100, 150, ..., 1000, [n_rows] one of 5 to
    18, [probability] one of the binary64 quotients k / 100 for k from 10 to
    90, [ball_speed] one of 1 to 100, [max_simultaneous_balls] one of 1 to
    25. *)
Theorem parameters_on_the_grid (s : State) : reachable s → on_grid (params s).
Proof.
  intros Hr name.
  destruct (inv_params s (reachable_inv s Hr)) as [Hballs Hstep Hrows _ Hspeed Hmulti].
  destruct name; cbn [param_of slider_values].
  - apply list_elem_of_fmap. exists ((n_balls (params s) - 100) / 50). split.
    + f_equal. pose proof (Z.div_mod (n_balls (params s)) 50 ltac:(done)) as Hdiv.
      replace (n_balls (params s) - 100) with ((n_balls (params s) / 50 - 2) * 50) by lia.
      rewrite Z.div_mul by done. lia.
    + apply elem_of_seqZ. split; [apply Z.div_pos; lia|].
      apply Z.div_lt_upper_bound; lia.
  - apply list_elem_of_fmap. exists (n_rows (params s)). split; [done|].
    apply elem_of_seqZ. lia.
  - by apply reachable_probability.
  - apply list_elem_of_fmap. exists (ball_speed (params s)). split; [done|].
    apply elem_of_seqZ. lia.
  - apply list_elem_of_fmap. exists (max_simultaneous_balls (params s)). split; [done|].
    apply elem_of_seqZ. lia.
Qed.

(** X26. In every reachable state the theoretical mean and deviation are
    binary64 numbers in [(0, n_rows]]: the square root in
    [calculate_theoretical_values] is never taken of a negative number, and
    neither value is nan or infinite. *)
Theorem theoretical_values_are_finite (s : State) :
  reachable s →
  ∃ mean std,
    theoretical_mean (results s) = PFloat mean
    ∧ theoretical_std (results s) = PFloat std
    ∧ (0 <? mean)%float = true ∧ (mean <=? float_of_Z (n_rows (params s)))%float = true
    ∧ (0 <? std)%float = true ∧ (std <=? float_of_Z (n_rows (params s)))%float = true.
Proof.
  intros Hr. pose proof (reachable_facts s Hr) as [_ [_ _ _ _ _ Hmean Hstd _] _].
  pose proof (reachable_rows s Hr) as Hrows.
  pose proof (reachable_probability s Hr) as Hprob.
  pose proof theory_table as Htable. rewrite forallb_forall in Htable.
  specialize (Htable (n_rows (params s))). rewrite forallb_forall in Htable.
  specialize (Htable ltac:(apply list_elem_of_In, elem_of_seqZ; lia)
                (probability (params s)) ltac:(by apply list_elem_of_In)).
  unfold theory_ok in Htable. rewrite Hmean, Hstd.
  destruct (py_mul (PInt (n_rows (params s))) (probability (params s))) as [|mean] eqn:Hm;
    [done|].
  cbn zeta in Htable. rewrite !andb_true_iff in Htable.
  destruct Htable as [[[? ?] ?] ?].
  eexists _, _. split; [done|]. split; [done|]. done.
Qed.
End Grid.

(** ** The further properties on the concrete runs *)

(** X2 on the run just started: the next tick returns a state. *)
Lemma step_never_raises_witness :
  ∃ s', @perform demo_numpy Tick demo_started = Ok s' ∧ @reachable demo_numpy s'.
Proof. exact (@step_never_raises demo_numpy Tick demo_started demo_started_reachable). Defined.

(** X4 on the run just started: 100 paths, 25 balls dropped. *)
Lemma paths_match_configuration_witness :
  len (ball_paths (anim demo_started)) = 100 ∧ balls_dropped (anim demo_started) ≤ 100.
Proof.
  destruct (@paths_match_configuration demo_numpy demo_started demo_started_reachable eq_refl)
    as (Hcount & _ & Hdropped & _).
  split; [exact Hcount|exact Hdropped].
Defined.

(** X5 on the run just started. *)
Lemma balls_in_flight_ordered_witness :
  increasing (ball_index <$> balls_in_flight (anim demo_started)).
Proof.
  destruct (@balls_in_flight_ordered demo_numpy demo_started demo_started_reachable eq_refl)
    as (Hsorted & _).
  exact Hsorted.
Defined.

(** X6 on ball 2 of the run at its second tick. *)
Lemma targets_follow_paths_witness :
  ∃ x y, target_x demo_ball_two = PInt x ∧ target_y demo_ball_two = PInt y
         ∧ target_of demo_on_row_one demo_ball_two = Some (x, y).
Proof.
  exact (@targets_follow_paths demo_numpy demo_on_row_one 2 demo_ball_two
           demo_on_row_one_reachable eq_refl eq_refl).
Defined.

(** X7 on the same ball: its path sends it to column 2 of row 1, and it
    heads for (600, 120). *)
Lemma overshooting_column_falls_back_witness :
  ball_paths (anim demo_on_row_one) !! 2%nat = Some [1; 2; 3; 3; 3]
  ∧ target_x demo_ball_two = PInt 600 ∧ target_y demo_ball_two = PInt 120.
Proof.
  split; [reflexivity|].
  apply (@overshooting_column_falls_back demo_numpy demo_on_row_one 2 demo_ball_two
           [1; 2; 3; 3; 3] 2 demo_on_row_one_reachable eq_refl eq_refl);
    [split; exact eq_refl|reflexivity|reflexivity|exact eq_refl].
Defined.

(** X8 on the initial state, with 12 rows: no peg (0, 1), no bin 13. *)
Lemma position_lookups_witness :
  get_peg_position demo_init 0 1 = (600, 120) ∧ get_bin_position demo_init 13 = (600, 520).
Proof.
  destruct (@position_lookups demo_numpy demo_init demo_init_reachable)
    as (_ & Hpeg & _ & Hbin).
  split.
  - apply Hpeg. change (n_rows (params demo_init)) with 12. lia.
  - apply Hbin. change (n_rows (params demo_init)) with 12. lia.
Defined.

(** X9 on the initial state: the first peg and the two below it. *)
Lemma pegs_form_a_triangle_witness :
  (get_peg_position demo_init 1 0).1 < (get_peg_position demo_init 0 0).1
  ∧ (get_peg_position demo_init 0 0).1 < (get_peg_position demo_init 1 1).1.
Proof.
  destruct (@pegs_form_a_triangle demo_numpy demo_init demo_init_reachable) as (Hpegs & _).
  destruct (Hpegs 0 0) as (Hleft & Hright & _).
  - lia.
  - change (n_rows (params demo_init)) with 12. lia.
  - split; [exact Hleft|exact Hright].
Defined.

(** X10 on the initial state: eight places, 500 balls left, eight balls
    admitted. *)
Lemma start_next_balls_admits_witness :
  balls_in_flight (anim (start_next_balls demo_init)) = new_ball <$> seqZ 0 8
  ∧ balls_dropped (anim (start_next_balls demo_init)) = 8.
Proof.
  pose proof (@start_next_balls_admits demo_numpy demo_init demo_init_reachable) as Hk.
  cbv zeta in Hk. rewrite Hk. split; reflexivity.
Defined.

(** X11 on the initial state. *)
Lemma start_animation_result_witness :
  ∃ s', @start_animation demo_numpy demo_init = Ok s' ∧ balls_dropped (anim s') = 8.
Proof.
  destruct (@start_animation_result demo_numpy demo_init) as (g & _ & Hs).
  - change (n_rows (params demo_init)) with 12. lia.
  - eexists. split; [exact Hs|reflexivity].
Defined.

(** X13 on the tick that completes the concrete run. *)
Lemma histogram_counts_outcomes_witness :
  bins_count (results demo_complete) = histogram 6 (positions (results demo_complete)).
Proof.
  destruct (@histogram_counts_outcomes demo_numpy demo_last_tick demo_complete demo_complete
              demo_last_tick_reachable eq_refl demo_complete_Ok (or_intror eq_refl))
    as (Hhist & _).
  exact Hhist.
Defined.

(** X14 on the same tick. *)
Lemma statistics_are_throttled_witness :
  observed_mean (results demo_complete)
  = @shown_mean demo_numpy (positions (results demo_complete)).
Proof.
  destruct (@statistics_are_throttled demo_numpy demo_last_tick demo_complete demo_complete
              demo_last_tick_reachable eq_refl demo_complete_Ok (or_intror eq_refl))
    as (Hmean & _).
  exact Hmean.
Defined.

(** X15 on the same tick. *)
Lemma tick_keeps_configuration_witness :
  params demo_complete = params demo_last_tick
  ∧ ∃ vs, positions (results demo_complete) = positions (results demo_last_tick) ++ vs.
Proof.
  destruct (@tick_keeps_configuration demo_numpy demo_last_tick demo_complete
              demo_last_tick_reachable demo_complete_Ok) as (Hframe & Hgrow).
  split; [exact (tk_params _ _ Hframe)|exact Hgrow].
Defined.

(** X16 on the run just started. *)
Lemma sliders_show_parameters_witness :
  value_balls (widgets demo_started) = 100 ∧ value_rows (widgets demo_started) = 5.
Proof.
  destruct (@sliders_show_parameters demo_numpy demo_started demo_started_reachable)
    as (Hballs & Hrows & _).
  split; [exact Hballs|exact Hrows].
Defined.

(** X17 on the run just started. *)
Lemma derived_values_are_current_witness :
  precalculate_positions demo_started = Ok demo_started.
Proof.
  destruct (@derived_values_are_current demo_numpy demo_started demo_started_reachable)
    as (_ & Hgeo).
  exact Hgeo.
Defined.

(** X20 on the default of the balls slider: a click on the handle drawn for
    500 gives 450. *)
Lemma click_on_handle_value_witness : click_on_handle Balls (PInt 500) = Ok (PInt 450).
Proof.
  apply (click_on_handle_value Balls (PInt 500)).
  apply (list_elem_of_lookup_2 _ 8). reflexivity.
Defined.

(** X22 on the reset button and [r]. *)
Lemma shortcut_equals_button_witness :
  @handle_event demo_numpy (MOUSEBUTTONDOWN 1 (165, 495)) demo_init
  = @handle_event demo_numpy (KEYDOWN K_r) (upd_widgets (set_dragging None) demo_init).
Proof.
  apply (@shortcut_equals_button demo_numpy Reset K_r (165, 495) demo_init).
  - apply list_elem_of_here.
  - reflexivity.
Defined.

(** X23 on the initial state: the window is closed. *)
Lemma running_is_only_cleared_witness : running (widgets demo_quit) = false.
Proof.
  exact (@running_is_only_cleared demo_numpy (Event QUIT) demo_init demo_quit
           demo_init_reachable eq_refl).
Defined.

(** X24 on the tick that completes the concrete run: the bar is full. *)
Lemma progress_bar_fits_witness : progress_bar_widths demo_complete = Ok (240, 0).
Proof.
  destruct (@progress_bar_fits demo_numpy demo_last_tick demo_complete demo_complete
              demo_last_tick_reachable eq_refl demo_complete_Ok (or_intror eq_refl))
    as (w & Hw & _ & Hfull).
  rewrite Hw. rewrite (proj2 Hfull eq_refl). reflexivity.
Defined.

(** X25 on the run just started. *)
Lemma parameters_on_the_grid_witness :
  PInt 100 ∈ slider_values Balls ∧ probability (params demo_started) ∈ slider_values Prob.
Proof.
  pose proof (@parameters_on_the_grid demo_numpy demo_started demo_started_reachable) as Hgrid.
  split; [exact (Hgrid Balls)|exact (Hgrid Prob)].
Defined.

(** X26 on the run just started. *)
Lemma theoretical_values_are_finite_witness :
  ∃ mean std,
    theoretical_mean (results demo_started) = PFloat mean
    ∧ theoretical_std (results demo_started) = PFloat std
    ∧ (0 <? mean)%float = true ∧ (mean <=? float_of_Z 5)%float = true
    ∧ (0 <? std)%float = true ∧ (std <=? float_of_Z 5)%float = true.
Proof.
  exact (@theoretical_values_are_finite demo_numpy demo_started demo_started_reachable).
Defined.
